(** * PROOV_ZK: capsule assembly, claim revision and capsule verification

    A shallow embedding of the capsule pipeline of the application:

    - [components/make/Web3SaltGenerator.tsx]: the string hash, the claim
      derivers, salts, commitments, public claims, the private vault and
      [generateZKCapsule];
    - [components/gallery/ShareModal.tsx]: [generateUpdatedCapsule],
      [saveChanges] and [getClaimDescription];
    - [app/(tabs)/verify.tsx]: [verifyProof], [checkTimeLockStatus],
      [checkWalletLockStatus], [loadPrivateVault] and [fetchGlobalTime].

    Conventions.  A JavaScript string is a [string] (a sequence of code
    units below 256); the hash itself is defined on arbitrary lists of code
    units.  A JavaScript number that is only ever an integer here (hash
    accumulator, time value in milliseconds, string length) is a [Z].  A
    [Record<string, string>] is a [gmap string string].  Host facilities
    (the random source, the clock, the key-value store, locale-dependent
    date formatting, JSON, the network) are the fields of [Env]; component
    state and the outside world are threaded explicitly. *)

From Stdlib Require Import ZArith String Ascii HexadecimalString DecimalString.
From stdpp Require Import gmap strings list.

Open Scope Z_scope.
Open Scope string_scope.

(** ** JavaScript numbers and strings *)

Module JS.

(** [ToInt32]: wrap an integer into the signed 32-bit range. *)
Definition toInt32 (z : Z) : Z := (z + 2 ^ 31) mod 2 ^ 32 - 2 ^ 31.

(** [x << n] on numbers. *)
Definition shl (x n : Z) : Z := toInt32 (Z.shiftl (toInt32 x) (n mod 32)).

(** [x & y] on numbers. *)
Definition band (x y : Z) : Z := Z.land (toInt32 x) (toInt32 y).

(** [s.charCodeAt(i)] for [i] ranging over the whole string. *)
Definition charCodes (s : string) : list Z :=
  map (λ c, Z.of_N (N_of_ascii c)) (list_ascii_of_string s).

(** [n.toString(16)] for a non-negative integer. *)
Definition toString16 (n : Z) : string :=
  HexadecimalString.NilZero.string_of_uint (N.to_hex_uint (Z.to_N n)).

(** [n.toString()] for an integer. *)
Definition toString (n : Z) : string :=
  DecimalString.NilZero.string_of_int (Z.to_int n).

(** Truthiness of a string: only the empty string is falsy. *)
Definition nonempty (s : string) : bool :=
  match s with EmptyString => false | String _ _ => true end.

(** Truthiness of an optional string property ([undefined] is falsy). *)
Definition truthy (o : option string) : bool :=
  match o with Some s => nonempty s | None => false end.

(** [o || dflt] on an optional string property. *)
Definition or_else (o : option string) (dflt : string) : string :=
  match o with
  | Some s => if nonempty s then s else dflt
  | None => dflt
  end.

Definition is_digit (c : ascii) : bool :=
  let n := N_of_ascii c in ((48 <=? n) && (n <=? 57))%N.

Fixpoint all_digits (s : string) : bool :=
  match s with
  | EmptyString => true
  | String c s' => is_digit c && all_digits s'
  end.

End JS.

(** ** Data model *)

(** A floating-point number [mantissa * 2 ^ exponent] (coordinates).  Its
    renderings are host functions, see [Env]. *)
Record float := Float { mantissa : Z; exponent : Z }.

Record Location := mkLocation {
  latitude : option float;
  longitude : option float;
  city : option string;
  country : option string;
  continent : option string
}.

(** The metadata of a capture (the fields the assembler reads). *)
Record PhotoMetadata := mkPhotoMetadata {
  timestamp : Z;
  location : option Location;
  deviceInfo : string;
  photoHash : string;
  md_photoUri : option string;
  ipfsCid : option string
}.

Inductive Level_time := T_exact | T_hour | T_day | T_week | T_month | T_year.
Inductive Level_location := L_exact | L_city | L_country | L_continent.
Inductive Level_device := D_devicetype | D_platform | D_imei.
Inductive Level_image := I_none | I_description | I_image.
Inductive LockType := Lock_date | Lock_location | Lock_identity | Lock_content.
Inductive StorageType := Storage_ipfs | Storage_walrus.

Record TimeProof := mkTimeProof { tp_enabled : bool; tp_level : Level_time }.
Record LocationProof := mkLocationProof { lp_enabled : bool; lp_level : Level_location }.
Record DeviceProof := mkDeviceProof { dp_enabled : bool; dp_level : Level_device }.
Record IdentityProof := mkIdentityProof { ip_enabled : bool }.
Record ImageReveal := mkImageReveal { ir_enabled : bool; ir_level : Level_image }.
Record TimeLock := mkTimeLock {
  tl_enabled : bool;
  tl_unlockTime : option Z;
  tl_lockedData : string;
  tl_lockType : LockType
}.
Record ReceiverLock := mkReceiverLock {
  rl_enabled : bool;
  rl_walletAddress : string;
  rl_encryptedContent : string
}.
Record StorageOptions := mkStorageOptions {
  so_type : StorageType;
  so_walrusBlobId : option string
}.

Record PrivacySettings := mkPrivacySettings {
  timeProof : TimeProof;
  locationProof : LocationProof;
  deviceProof : DeviceProof;
  identityProof : IdentityProof;
  imageReveal : ImageReveal;
  timeLock : TimeLock;
  receiverLock : ReceiverLock;
  storageOptions : StorageOptions
}.

Record G1 := mkG1 { g1_x : string; g1_y : string; g1_z : string }.
Record G2 := mkG2 { g2_x : list string; g2_y : list string; g2_z : list string }.
Record CircomProof := mkProof {
  proof_a : G1;
  proof_b : G2;
  proof_c : G1;
  protocol : string;
  curve : string
}.

Record CapsuleMetadata := mkCapsuleMetadata {
  proof_scheme : string;
  circuit_version : string;
  image_hash : string;
  verification_key : string;
  md_ipfsCid : option string;
  md_ipfsUrl : option string;
  walrusBlobId : option string;
  storageType : option StorageType;
  created_at : Z
}.

Record ZKCapsule := mkCapsule {
  capsule_id : string;
  public_claims : gmap string string;
  proof : CircomProof;
  metadata : CapsuleMetadata
}.

Record PrivateVault := mkVault {
  pv_capsule_id : string;
  commitments : gmap string string;
  salts : gmap string string;
  original_values : gmap string string
}.

(** The human-readable claims object built by [generateZKProof]. *)
Record Claims := mkClaims {
  time_claim : option string;
  location_claim : option string;
  device_claim : option string;
  authenticity_claim : option string;
  image_content_claim : option string
}.

(** A photo of the gallery (ShareModal.tsx). *)
Record SavedPhoto := mkSavedPhoto {
  id : string;
  sp_timestamp : Z;
  photoUri : string;
  sp_location : option Location;
  sp_deviceInfo : string;
  sp_photoHash : string;
  sp_ipfsCid : option string;
  zkCapsule : ZKCapsule
}.

Set Warnings "-register-all".

(** A value produced by [JSON.parse], or [undefined]. *)
Inductive value :=
| VUndefined
| VNull
| VBool (b : bool)
| VNumber (n : Z)
| VString (s : string)
| VArray (items : list value)
| VObject (fields : list (string * value)).

(** A [Date] object: a time value in milliseconds, or an invalid date. *)
Inductive Date := ValidDate (t : Z) | InvalidDate.

(** An HTTP response as [fetch] resolves it. *)
Record Response := mkResponse {
  ok : bool;
  status : Z;
  statusText : string;
  body : string
}.

(** ** Component state *)

(** verify.tsx *)
Inductive Verdict := valid | invalid.

Record TimeLockState := mkTimeLockState {
  tls_isLocked : bool;
  unlockTime : option Date;
  lockedData : value;
  currentTime : option Date;
  (** in milliseconds; [None] stands for [NaN] *)
  timeRemaining : option Z
}.

Record WalletLockState := mkWalletLockState {
  wls_isLocked : bool;
  allowedAddress : value;
  connectedWallet : option string;
  encryptedContent : value;
  decryptedContent : value;
  isConnecting : bool
}.

Record VerifyScreen := mkVerifyScreen {
  proofData : string;
  verificationResult : option Verdict;
  isVerifying : bool;
  parsedCapsule : option value;
  showResultsModal : bool;
  showFallingPhrases : bool;
  timeLockState : TimeLockState;
  walletLockState : WalletLockState;
  isLoadingTime : bool
}.

(** Web3SaltGenerator.tsx (the proof generation screen) *)
Record MakerScreen := mkMakerScreen {
  isGeneratingProof : bool;
  generatedCapsule : option ZKCapsule
}.

(** ShareModal.tsx (the photo details modal) *)
Record RevealedClaims := mkRevealed {
  r_time : bool;
  r_location : bool;
  r_device : bool;
  r_authentic : bool;
  r_image : bool
}.

Record SelectedLevels := mkLevels { sl_time : string; sl_location : string }.

Record DetailsModal := mkDetailsModal {
  revealedClaims : RevealedClaims;
  updatedPhoto : option SavedPhoto;
  isSaving : bool;
  selectedLevels : SelectedLevels;
  editMode : bool;
  (** the photos handed to the [onUpdatePhoto] callback, most recent first *)
  notified : list SavedPhoto
}.

(** ** The world outside the components *)

(** A value of [Math.random()]: the rational [numer / denom]. *)
Record draw := Draw { numer : Z; denom : Z }.

Definition in_unit (d : draw) : Prop := 0 <= numer d < denom d.

(** [Math.floor(d * k)].  The product is taken exactly.  The source rounds
    it to a double before the floor: that is exact for [k = 4] and [k = 16],
    and for [k = 10] it can lift a product just below an integer up to that
    integer (the double nearest to 0.7 gives 7, its exact product gives 6),
    so that the digit drawn may differ by one while its range, for a double
    below 1, is the same. *)
Definition floor_scaled (d : draw) (k : Z) : Z := (numer d * k) / denom d.

Record exn := Exn { exn_name : string; exn_message : string }.

Definition Error (msg : string) : exn := Exn "Error" msg.
Definition TypeError (msg : string) : exn := Exn "TypeError" msg.
Definition RangeError (msg : string) : exn := Exn "RangeError" msg.
Definition SyntaxError (msg : string) : exn := Exn "SyntaxError" msg.

Inductive result (A : Type) : Type :=
| Ok (a : A)
| Throw (e : exn).
Arguments Ok {A} a.
Arguments Throw {A} e.

(** What a run can observe and change: the contents of AsyncStorage, how
    many values of the random source and of the clock it has consumed, the
    console and the alerts shown to the user (most recent first), and the
    state of the three screens. *)
Record World := mkWorld {
  storage : gmap string string;
  rng_pos : nat;
  clock_pos : nat;
  console : list string;
  alerts : list (string * string);
  maker : MakerScreen;
  verify : VerifyScreen;
  details : DetailsModal
}.

Definition with_storage (f : gmap string string → gmap string string) (w : World) :=
  mkWorld (f (storage w)) (rng_pos w) (clock_pos w) (console w) (alerts w)
          (maker w) (verify w) (details w).
Definition with_rng (w : World) :=
  mkWorld (storage w) (S (rng_pos w)) (clock_pos w) (console w) (alerts w)
          (maker w) (verify w) (details w).
Definition with_clock (w : World) :=
  mkWorld (storage w) (rng_pos w) (S (clock_pos w)) (console w) (alerts w)
          (maker w) (verify w) (details w).
Definition with_console (line : string) (w : World) :=
  mkWorld (storage w) (rng_pos w) (clock_pos w) (line :: console w) (alerts w)
          (maker w) (verify w) (details w).
Definition with_alert (title msg : string) (w : World) :=
  mkWorld (storage w) (rng_pos w) (clock_pos w) (console w)
          ((title, msg) :: alerts w) (maker w) (verify w) (details w).
Definition with_maker (f : MakerScreen → MakerScreen) (w : World) :=
  mkWorld (storage w) (rng_pos w) (clock_pos w) (console w) (alerts w)
          (f (maker w)) (verify w) (details w).
Definition with_verify (f : VerifyScreen → VerifyScreen) (w : World) :=
  mkWorld (storage w) (rng_pos w) (clock_pos w) (console w) (alerts w)
          (maker w) (f (verify w)) (details w).
Definition with_details (f : DetailsModal → DetailsModal) (w : World) :=
  mkWorld (storage w) (rng_pos w) (clock_pos w) (console w) (alerts w)
          (maker w) (verify w) (f (details w)).

(** A computation that may throw, over the world. *)
Definition M (A : Type) : Type := World → result A * World.

Definition ret {A} (a : A) : M A := λ w, (Ok a, w).
Definition throw {A} (e : exn) : M A := λ w, (Throw e, w).
Definition bind {A B} (m : M A) (k : A → M B) : M B :=
  λ w, match m w with
       | (Ok a, w') => k a w'
       | (Throw e, w') => (Throw e, w')
       end.
Definition lift {A} (r : result A) : M A := λ w, (r, w).
Definition update (f : World → World) : M () := λ w, (Ok (), f w).

(** [try { body } catch (error) { handler }]. *)
Definition try_catch {A} (body : M A) (handler : exn → M A) : M A :=
  λ w, match body w with
       | (Ok a, w') => (Ok a, w')
       | (Throw e, w') => handler e w'
       end.

(** [try { body } finally { fin }], for a [fin] that completes normally. *)
Definition finally {A} (body : M A) (fin : M ()) : M A :=
  λ w, let '(r, w') := body w in (r, (fin w').2).

Declare Scope js_scope.
Delimit Scope js_scope with js.
Notation "x <- m ;; k" := (bind m (λ x, k))
  (at level 100, m at next level, right associativity) : js_scope.
Notation "m ;; k" := (bind m (λ _, k))
  (at level 100, right associativity) : js_scope.
Open Scope js_scope.

Definition console_log (line : string) : M () := update (with_console line).
Definition console_error (line : string) (e : exn) : M () :=
  update (with_console (line +:+ " " +:+ exn_name e +:+ ": " +:+ exn_message e)).
Definition Alert_alert (title msg : string) : M () := update (with_alert title msg).

(** ** Host facilities *)

Record Env := mkEnv {
  (** the successive values of [Math.random()] *)
  Math_random_at : nat → draw;
  (** the successive values of [Date.now()] *)
  Date_now_at : nat → Z;
  (** whether [AsyncStorage.setItem(key, value)] rejects on this store *)
  setItem_rejects : gmap string string → string → string → bool;
  (** whether [AsyncStorage.getItem(key)] rejects on this store *)
  getItem_rejects : gmap string string → string → bool;
  (** [Platform.OS] *)
  Platform_OS : string;
  (** [new Date(t).toISOString()], [.toLocaleDateString()],
      [.toLocaleDateString('en-US', {month: 'long', year: 'numeric'})],
      [.getFullYear()], [.toLocaleString()], [.getHours()], [.getDate()] and
      [.getDay()] of a time value, and the time value after [.setDate(d)] *)
  toISOString : Z → string;
  toLocaleDateString : Z → string;
  toLocaleMonthYear : Z → string;
  getFullYear : Z → Z;
  toLocaleString : Z → string;
  getHours : Z → Z;
  getDate : Z → Z;
  getDay : Z → Z;
  setDate : Z → Z → Z;
  (** a floating-point number with [toFixed(6)] and in a template string *)
  Number_toFixed6 : float → string;
  Number_toString : float → string;
  (** [JSON.stringify] of a vault, of the metadata that [generateZKProof]
      hashes and of the gallery; [JSON.parse] of the gallery ([None]: it
      throws) *)
  JSON_stringify_vault : PrivateVault → string;
  JSON_stringify_metadata : PhotoMetadata → string;
  JSON_stringify_photos : list SavedPhoto → string;
  JSON_parse_photos : string → option (list SavedPhoto);
  (** [JSON.parse] of untrusted text ([None]: it throws) *)
  JSON_parse : string → option value;
  (** [new Date(v)] for a parsed value *)
  new_Date : value → Date;
  (** [v > 0] for a string, an array or an object, after conversion to a
      number *)
  converts_positive : value → bool;
  (** a value other than a string inside a template string *)
  ToString : value → string;
  (** [fetch(url)] ([None]: the request fails) *)
  fetch : string → option Response;
  (** [uploadToIPFS(photoUri, ...)] ([None]: it fails) and [getIPFSUrl] *)
  uploadToIPFS : string → option string;
  getIPFSUrl : string → string;
  (** proof generation by the external library, on either platform, from
      the circuit inputs [a] and [b] ([None]: it fails) *)
  generateCircomProof : list string → list string → option CircomProof
}.

Section Host.
Context (env : Env).

Definition Math_random : M draw :=
  λ w, (Ok (Math_random_at env (rng_pos w)), with_rng w).

Definition Date_now : M Z :=
  λ w, (Ok (Date_now_at env (clock_pos w)), with_clock w).

Definition AsyncStorage_setItem (key value : string) : M () :=
  λ w, if setItem_rejects env (storage w) key value
       then (Throw (Error "AsyncStorage.setItem failed"), w)
       else (Ok (), with_storage (insert key value) w).

Definition AsyncStorage_getItem (key : string) : M (option string) :=
  λ w, if getItem_rejects env (storage w) key
       then (Throw (Error "AsyncStorage.getItem failed"), w)
       else (Ok (storage w !! key), w).
End Host.

(** ** Web3SaltGenerator.tsx: hash, salts and commitments *)

(** One iteration of the loop of [generateSimpleHash]:
    [hash = ((hash << 5) - hash) + char; hash = hash & hash]. *)
Definition hash_step (hash char : Z) : Z :=
  let hash := (JS.shl hash 5 - hash) + char in
  JS.band hash hash.

Definition hash_codes (codes : list Z) : Z := fold_left hash_step codes 0.

Definition generateSimpleHash (input : string) : string :=
  let hash := hash_codes (JS.charCodes input) in
  JS.toString16 (Z.abs hash).

Definition poseidonCommitment (value salt : string) : string :=
  let combined := value +:+ salt in
  generateSimpleHash combined.

Section Salts.
Context (env : Env).

(** The loop of [generateSalt], with [n] iterations left. *)
Fixpoint salt_loop (n : nat) (salt : string) : M string :=
  match n with
  | O => ret salt
  | S n' =>
      r <- Math_random env ;;
      salt_loop n' (salt +:+ JS.toString (floor_scaled r 10))
  end.

Definition generateSalt : M string :=
  r <- Math_random env ;;
  let length := 6 + floor_scaled r 4 in
  salt_loop (Z.to_nat length) "".

(** The keys of the object literal of [generateAllSalts], in order. *)
Definition salt_fields : list string :=
  [ "date_exact"; "date_day"; "date_month"; "date_year";
    "location_exact"; "location_city"; "location_country";
    "location_continent"; "device_info"; "device_platform";
    "device_type"; "image_hash"; "image_cid"; "time_lock";
    "receiver_lock" ].

Fixpoint salts_for (keys : list string) (acc : gmap string string)
  : M (gmap string string) :=
  match keys with
  | [] => ret acc
  | k :: keys' => s <- generateSalt ;; salts_for keys' (<[k := s]> acc)
  end.

Definition generateAllSalts : M (gmap string string) :=
  salts_for salt_fields ∅.
End Salts.

Definition bool_toString (b : bool) : string := if b then "true" else "false".

Definition lockType_str (t : LockType) : string :=
  match t with
  | Lock_date => "date" | Lock_location => "location"
  | Lock_identity => "identity" | Lock_content => "content"
  end.

(** ** Web3SaltGenerator.tsx: claim derivation *)

Section Claims.
Context (env : Env).

(** [x.toFixed(6)] where [x] may be [undefined]. *)
Definition toFixed6 (x : option float) : result string :=
  match x with
  | Some f => Ok (Number_toFixed6 env f)
  | None => Throw (TypeError "Cannot read property 'toFixed' of undefined")
  end.

(** A number inside a template string. *)
Definition template (x : option float) : string :=
  match x with Some f => Number_toString env f | None => "undefined" end.

(** [s.split(',')[0]]. *)
Fixpoint before_comma (s : string) : string :=
  match s with
  | EmptyString => EmptyString
  | String c s' => if Ascii.eqb c "," then EmptyString else String c (before_comma s')
  end.

Definition generateTimeClaim (timestamp : Z) (level : string) : string :=
  let date := timestamp in
  if String.eqb level "exact" then "At " +:+ toLocaleString env date
  else if String.eqb level "hour" then
    "Within hour of " +:+ before_comma (toLocaleString env date) +:+ " "
      +:+ JS.toString (getHours env date) +:+ ":00"
  else if String.eqb level "day" then "On " +:+ toLocaleDateString env date
  else if String.eqb level "week" then
    let weekStart := setDate env date (getDate env date - getDay env date) in
    "Week of " +:+ toLocaleDateString env weekStart
  else if String.eqb level "month" then "In " +:+ toLocaleMonthYear env date
  else if String.eqb level "year" then "In " +:+ JS.toString (getFullYear env date)
  else "Within past month".

Definition generateLocationClaim (location : option Location) (level : string)
  : result string :=
  match location with
  | None => Ok "Location not available"
  | Some location =>
      if String.eqb level "exact" then
        match toFixed6 (latitude location) with
        | Throw e => Throw e
        | Ok lat =>
            match toFixed6 (longitude location) with
            | Throw e => Throw e
            | Ok lon => Ok ("At " +:+ lat +:+ ", " +:+ lon)
            end
        end
      else if String.eqb level "city" then
        Ok (JS.or_else (city location) "In local city")
      else if String.eqb level "country" then
        Ok (JS.or_else (country location) "In authorized country")
      else if String.eqb level "continent" then
        Ok (JS.or_else (continent location) "In authorized continent")
      else
        Ok (if JS.truthy (country location)
            then "In " +:+ default "" (country location)
            else "In authorized region")
  end.

(** [s.includes(sub)]. *)
Definition includes (s sub : string) : bool :=
  match index 0 sub s with Some _ => true | None => false end.

Definition generateDeviceClaim (deviceInfo : string) (level : string) : string :=
  if String.eqb level "devicetype" then "From Phone"
  else if String.eqb level "platform" then
    "From " +:+ (if includes deviceInfo "iOS" then "iOS" else "Android") +:+ " device"
  else if String.eqb level "imei" then
    "From device IMEI: " +:+ substring 0 8 (generateSimpleHash deviceInfo) +:+ "****"
  else "From trusted device".

Definition generateImageContentClaim (level : string) (ipfsCid : option string)
  : string :=
  if String.eqb level "none" then "Image content private"
  else if String.eqb level "description" then "Image description available"
  else if String.eqb level "image" then
    if JS.truthy ipfsCid then "Image available on IPFS" else "Image content revealed"
  else "Image content private".
End Claims.

Definition level_time_str (l : Level_time) : string :=
  match l with
  | T_exact => "exact" | T_hour => "hour" | T_day => "day"
  | T_week => "week" | T_month => "month" | T_year => "year"
  end.

Definition level_location_str (l : Level_location) : string :=
  match l with
  | L_exact => "exact" | L_city => "city"
  | L_country => "country" | L_continent => "continent"
  end.

Definition level_device_str (l : Level_device) : string :=
  match l with
  | D_devicetype => "devicetype" | D_platform => "platform" | D_imei => "imei"
  end.

Definition level_image_str (l : Level_image) : string :=
  match l with
  | I_none => "none" | I_description => "description" | I_image => "image"
  end.

(** ** Web3SaltGenerator.tsx: the capsule assembler *)

Section Assembler.
Context (env : Env).

(** [salts.key] inside a string concatenation. *)
Definition salt_of (salts : gmap string string) (key : string) : string :=
  default "undefined" (salts !! key).

Definition exact_location (loc : Location) : string :=
  template env (latitude loc) +:+ ", " +:+ template env (longitude loc).

(** [if (o) m[key] = o] for an optional string [o]. *)
Definition set_if_truthy (key : string) (o : option string)
    (m : gmap string string) : gmap string string :=
  match o with
  | Some s => if JS.nonempty s then <[key := s]> m else m
  | None => m
  end.

Definition generateCommitments (metadata : PhotoMetadata)
    (salts : gmap string string) : gmap string string :=
  let commit key v := insert key (poseidonCommitment v (salt_of salts key)) in
  let commit_if key o m :=
    if JS.truthy o then commit key (default "" o) m else m in
  let date := timestamp metadata in
  let commitments : gmap string string := ∅ in
  (* Time commitments *)
  let commitments := commit "date_exact" (toISOString env date) commitments in
  let commitments := commit "date_day" (toLocaleDateString env date) commitments in
  let commitments := commit "date_month" (toLocaleMonthYear env date) commitments in
  let commitments :=
    commit "date_year" (JS.toString (getFullYear env date)) commitments in
  (* Location commitments (if available) *)
  let commitments :=
    match location metadata with
    | Some loc =>
        let commitments := commit "location_exact" (exact_location loc) commitments in
        let commitments := commit_if "location_city" (city loc) commitments in
        let commitments := commit_if "location_country" (country loc) commitments in
        commit_if "location_continent" (continent loc) commitments
    | None => commitments
    end in
  (* Device commitments *)
  let commitments := commit "device_info" (deviceInfo metadata) commitments in
  let commitments := commit "device_platform" (Platform_OS env) commitments in
  let commitments := commit "device_type" "Phone" commitments in
  (* Image commitments *)
  let commitments := commit "image_hash" (photoHash metadata) commitments in
  commit_if "image_cid" (ipfsCid metadata) commitments.

(** The blocks of [generatePublicClaims], named after their comments in
    the source; each takes the [publicClaims] object built so far. *)

(* Time claims *)
Definition time_claims (metadata : PhotoMetadata) (privacySettings : PrivacySettings)
    (publicClaims : gmap string string) : gmap string string :=
  let date := timestamp metadata in
  if tp_enabled (timeProof privacySettings) then
    match tp_level (timeProof privacySettings) with
    | T_exact => <["date_exact" := toISOString env date]> publicClaims
    | T_day => <["date_day" := toLocaleDateString env date]> publicClaims
    | T_month => <["date_month" := toLocaleMonthYear env date]> publicClaims
    | T_year => <["date_year" := JS.toString (getFullYear env date)]> publicClaims
    | T_hour | T_week => publicClaims
    end
  else publicClaims.

(* Location claims *)
Definition location_claims (metadata : PhotoMetadata)
    (privacySettings : PrivacySettings) (publicClaims : gmap string string)
  : gmap string string :=
  match lp_enabled (locationProof privacySettings), location metadata with
  | true, Some loc =>
      match lp_level (locationProof privacySettings) with
      | L_exact => <["location_exact" := exact_location loc]> publicClaims
      | L_city => set_if_truthy "location_city" (city loc) publicClaims
      | L_country => set_if_truthy "location_country" (country loc) publicClaims
      | L_continent => set_if_truthy "location_continent" (continent loc) publicClaims
      end
  | _, _ => publicClaims
  end.

(* Device claims *)
Definition device_claims (metadata : PhotoMetadata)
    (privacySettings : PrivacySettings) (publicClaims : gmap string string)
  : gmap string string :=
  if dp_enabled (deviceProof privacySettings) then
    match dp_level (deviceProof privacySettings) with
    | D_devicetype => <["device_type" := "Phone"]> publicClaims
    | D_platform => <["device_platform" := Platform_OS env]> publicClaims
    | D_imei => <["device_info" := deviceInfo metadata]> publicClaims
    end
  else publicClaims.

(* Identity claims *)
Definition identity_claims (privacySettings : PrivacySettings)
    (publicClaims : gmap string string) : gmap string string :=
  if ip_enabled (identityProof privacySettings)
  then <["identity_verified" := "true"]> publicClaims
  else publicClaims.

(* Image content claims *)
Definition image_claims (metadata : PhotoMetadata)
    (privacySettings : PrivacySettings) (publicClaims : gmap string string)
  : gmap string string :=
  if ir_enabled (imageReveal privacySettings) then
    match ir_level (imageReveal privacySettings) with
    | I_description =>
        <["image_description" := "Image description available"]> publicClaims
    | I_image => set_if_truthy "image_cid" (ipfsCid metadata) publicClaims
    | I_none => publicClaims
    end
  else publicClaims.

(* Time lock claims *)
Definition time_lock_claims (privacySettings : PrivacySettings)
    (publicClaims : gmap string string) : gmap string string :=
  match tl_enabled (timeLock privacySettings),
        tl_unlockTime (timeLock privacySettings) with
  | true, Some unlock =>
      <["time_lock_type" := lockType_str (tl_lockType (timeLock privacySettings))]>
        (<["time_lock_until" := toISOString env unlock]> publicClaims)
  | _, _ => publicClaims
  end.

(* Receiver lock claims *)
Definition receiver_lock_claims (privacySettings : PrivacySettings)
    (publicClaims : gmap string string) : gmap string string :=
  if rl_enabled (receiverLock privacySettings)
     && JS.nonempty (rl_walletAddress (receiverLock privacySettings))
  then <["allowed_address" := rl_walletAddress (receiverLock privacySettings)]>
         publicClaims
  else publicClaims.

Definition generatePublicClaims (metadata : PhotoMetadata)
    (privacySettings : PrivacySettings) : gmap string string :=
  let publicClaims : gmap string string := ∅ in
  let publicClaims := time_claims metadata privacySettings publicClaims in
  let publicClaims := location_claims metadata privacySettings publicClaims in
  let publicClaims := device_claims metadata privacySettings publicClaims in
  let publicClaims := identity_claims privacySettings publicClaims in
  let publicClaims := image_claims metadata privacySettings publicClaims in
  let publicClaims := time_lock_claims privacySettings publicClaims in
  receiver_lock_claims privacySettings publicClaims.

Definition generateOriginalValues (metadata : PhotoMetadata)
    (privacySettings : PrivacySettings) : gmap string string :=
  let originalValues : gmap string string := ∅ in
  let date := timestamp metadata in
  (* Time values *)
  let originalValues := <["date_exact" := toISOString env date]> originalValues in
  let originalValues := <["date_day" := toLocaleDateString env date]> originalValues in
  let originalValues := <["date_month" := toLocaleMonthYear env date]> originalValues in
  let originalValues :=
    <["date_year" := JS.toString (getFullYear env date)]> originalValues in
  (* Location values (if available) *)
  let originalValues :=
    match location metadata with
    | Some loc =>
        let originalValues :=
          <["location_exact" := exact_location loc]> originalValues in
        let originalValues := set_if_truthy "location_city" (city loc) originalValues in
        let originalValues :=
          set_if_truthy "location_country" (country loc) originalValues in
        set_if_truthy "location_continent" (continent loc) originalValues
    | None => originalValues
    end in
  (* Device values *)
  let originalValues := <["device_info" := deviceInfo metadata]> originalValues in
  let originalValues := <["device_platform" := Platform_OS env]> originalValues in
  let originalValues := <["device_type" := "Phone"]> originalValues in
  (* Image values *)
  let originalValues := <["image_hash" := photoHash metadata]> originalValues in
  let originalValues := set_if_truthy "image_cid" (ipfsCid metadata) originalValues in
  (* Time lock values *)
  let originalValues :=
    if tl_enabled (timeLock privacySettings)
       && JS.nonempty (tl_lockedData (timeLock privacySettings))
    then <["time_lock_data" := tl_lockedData (timeLock privacySettings)]> originalValues
    else originalValues in
  (* Receiver lock values *)
  if rl_enabled (receiverLock privacySettings)
     && JS.nonempty (rl_encryptedContent (receiverLock privacySettings))
  then <["receiver_lock_data" := rl_encryptedContent (receiverLock privacySettings)]>
         originalValues
  else originalValues.

(** The AsyncStorage key of the vault of a capsule. *)
Definition vault_key (capsuleId : string) : string :=
  "@private_vault_" +:+ capsuleId.

Definition storePrivateVault (capsuleId : string)
    (commitments salts originalValues : gmap string string) : M () :=
  try_catch
    (let privateVault := mkVault capsuleId commitments salts originalValues in
     AsyncStorage_setItem env (vault_key capsuleId)
       (JSON_stringify_vault env privateVault) ;;
     console_log ("Private vault stored securely for capsule: " +:+ capsuleId) ;;
     console_log ("Salts count: " +:+ JS.toString (Z.of_nat (size salts))) ;;
     console_log ("Commitments count: " +:+ JS.toString (Z.of_nat (size commitments))))
    (λ error, console_error "Error storing private vault:" error).

(** [if (flag !== undefined) m[key] = flag.toString()]. *)
Definition set_flag (key : string) (flag : option bool)
    (m : gmap string string) : gmap string string :=
  match flag with
  | Some b => <[key := bool_toString b]> m
  | None => m
  end.

(* Add circuit results to public claims for verification *)
Definition add_circuit_results
    (timeWithinMonth locationInRegion deviceTrusted photoAuthentic
       imageContentRevealed : option bool)
    (publicClaims : gmap string string) : gmap string string :=
  let publicClaims := set_flag "time_within_month" timeWithinMonth publicClaims in
  let publicClaims := set_flag "location_in_region" locationInRegion publicClaims in
  let publicClaims := set_flag "device_trusted" deviceTrusted publicClaims in
  let publicClaims := set_flag "photo_authentic" photoAuthentic publicClaims in
  set_flag "image_content_revealed" imageContentRevealed publicClaims.

(* Add human-readable claims *)
Definition add_readable_claims (claims : option Claims)
    (publicClaims : gmap string string) : gmap string string :=
  match claims with
  | Some claims =>
      let publicClaims := set_if_truthy "time_claim" (time_claim claims) publicClaims in
      let publicClaims :=
        set_if_truthy "location_claim" (location_claim claims) publicClaims in
      let publicClaims :=
        set_if_truthy "device_claim" (device_claim claims) publicClaims in
      let publicClaims :=
        set_if_truthy "authenticity_claim" (authenticity_claim claims) publicClaims in
      set_if_truthy "image_content_claim" (image_content_claim claims) publicClaims
  | None => publicClaims
  end.

(* Add time lock commitment if enabled; add receiver lock commitment if enabled *)
Definition add_lock_commitments (privacySettings : PrivacySettings)
    (salts commitments : gmap string string) : gmap string string :=
  let commitments :=
    if tl_enabled (timeLock privacySettings)
       && JS.nonempty (tl_lockedData (timeLock privacySettings))
    then <["time_lock_data" :=
             poseidonCommitment (tl_lockedData (timeLock privacySettings))
               (salt_of salts "time_lock")]> commitments
    else commitments in
  if rl_enabled (receiverLock privacySettings)
     && JS.nonempty (rl_encryptedContent (receiverLock privacySettings))
  then <["receiver_lock_data" :=
           poseidonCommitment (rl_encryptedContent (receiverLock privacySettings))
             (salt_of salts "receiver_lock")]> commitments
  else commitments.

Definition generateZKCapsule (metadata : PhotoMetadata)
    (privacySettings : PrivacySettings) (proof : CircomProof)
    (verificationKey : string) (ipfsCid ipfsUrl : option string)
    (currentTime : option Z) (metadataHash : option string)
    (timeWithinMonth locationInRegion deviceTrusted photoAuthentic
       imageContentRevealed : option bool)
    (claims : option Claims) : M ZKCapsule :=
  (* Generate unique capsule ID *)
  now <- Date_now env ;;
  let capsuleId := generateSimpleHash (photoHash metadata +:+ JS.toString now) in
  (* Generate all salts *)
  salts <- generateAllSalts env ;;
  (* Generate original values for storage *)
  let originalValues := generateOriginalValues metadata privacySettings in
  (* Generate commitments *)
  let commitments := generateCommitments metadata salts in
  let commitments := add_lock_commitments privacySettings salts commitments in
  (* Store private data locally *)
  storePrivateVault capsuleId commitments salts originalValues ;;
  (* Generate public claims (only these are shared) *)
  let publicClaims := generatePublicClaims metadata privacySettings in
  let publicClaims :=
    add_circuit_results timeWithinMonth locationInRegion deviceTrusted
      photoAuthentic imageContentRevealed publicClaims in
  let publicClaims := add_readable_claims claims publicClaims in
  (* Create the public capsule *)
  created <- match currentTime with
             | Some t => if Z.eqb t 0 then Date_now env else ret t
             | None => Date_now env
             end ;;
  let capsule :=
    mkCapsule capsuleId publicClaims proof
      (mkCapsuleMetadata "circom 2" "multiplier2_v1" (photoHash metadata)
         verificationKey ipfsCid ipfsUrl
         (so_walrusBlobId (storageOptions privacySettings))
         (Some (so_type (storageOptions privacySettings))) created) in
  console_log "Commitments generated and stored PRIVATELY for circuit inputs" ;;
  console_log "Only public claims and proof will be shared" ;;
  ret capsule.

Definition gallery_key : string := "@zk_verified_photos".

Definition savePhotoToGallery (metadata : PhotoMetadata) (capsule : ZKCapsule)
    (photoUri : string) : M () :=
  try_catch
    (now <- Date_now env ;;
     let photoData :=
       mkSavedPhoto (JS.toString now) (timestamp metadata) photoUri
         (location metadata) (deviceInfo metadata) (photoHash metadata)
         (ipfsCid metadata) capsule in
     existingPhotosString <- AsyncStorage_getItem env gallery_key ;;
     existingPhotos <-
       (if JS.truthy existingPhotosString then
          match JSON_parse_photos env (default "" existingPhotosString) with
          | Some l => ret l
          | None => throw (SyntaxError "JSON Parse error")
          end
        else ret []) ;;
     let updatedPhotos := photoData :: existingPhotos in
     AsyncStorage_setItem env gallery_key (JSON_stringify_photos env updatedPhotos) ;;
     console_log "Photo saved with ZK capsule!")
    (λ error, console_error "Error saving photo to gallery:" error).

(** An optional string when it is truthy. *)
Definition truthy_string (o : option string) : option string :=
  match o with
  | Some s => if JS.nonempty s then Some s else None
  | None => None
  end.

Definition setIsGeneratingProof (b : bool) : M () :=
  update (with_maker (λ s, mkMakerScreen b (generatedCapsule s))).
Definition setGeneratedCapsule (c : ZKCapsule) : M () :=
  update (with_maker (λ s, mkMakerScreen (isGeneratingProof s) (Some c))).

(** [generateZKProof], for the [metadata] and [privacySettings] the screen
    was given.  The choice of platform and the download of the proving key
    are part of [generateCircomProof]. *)
Definition generateZKProof (metadata : option PhotoMetadata)
    (privacySettings : PrivacySettings) : M () :=
  match metadata with
  | None => Alert_alert "Error" "No photo metadata available"
  | Some metadata =>
    setIsGeneratingProof true ;;
    finally
      (try_catch
         ((* First, upload the photo to IPFS if it exists *)
          uploaded <-
            match truthy_string (md_photoUri metadata) with
            | Some photoUri =>
                try_catch
                  (match uploadToIPFS env photoUri with
                   | None => throw (Error "IPFS upload failed")
                   | Some cid =>
                       if JS.nonempty cid
                       then ret (Some cid, Some (getIPFSUrl env cid), Some cid)
                       else ret (Some cid, None, ipfsCid metadata)
                   end)
                  (λ ipfsError,
                     console_error "IPFS upload failed:" ipfsError ;;
                     Alert_alert "IPFS Upload Warning"
                       "Your photo could not be uploaded to IPFS. The proof will be generated without permanent storage." ;;
                     ret (None, None, ipfsCid metadata))
            | None => ret (None, None, ipfsCid metadata)
            end ;;
          let '(ipfsCid, ipfsUrl, metadata_ipfsCid) := uploaded in
          (* Update metadata with IPFS CID *)
          let metadata :=
            mkPhotoMetadata (timestamp metadata) (location metadata)
              (deviceInfo metadata) (photoHash metadata) (md_photoUri metadata)
              metadata_ipfsCid in
          currentTime <- Date_now env ;;
          let oneMonthAgo := currentTime - 30 * 24 * 60 * 60 * 1000 in
          (* Create meaningful claims based on selected levels *)
          location_claim <-
            match lp_enabled (locationProof privacySettings), location metadata with
            | true, Some loc =>
                lift (generateLocationClaim env (Some loc)
                        (level_location_str (lp_level (locationProof privacySettings))))
            | _, _ => ret "Location not verified"
            end ;;
          let claims :=
            mkClaims
              (Some (if tp_enabled (timeProof privacySettings)
                     then generateTimeClaim env (timestamp metadata)
                            (level_time_str (tp_level (timeProof privacySettings)))
                     else "Time not verified"))
              (Some location_claim)
              (Some (if dp_enabled (deviceProof privacySettings)
                     then generateDeviceClaim (deviceInfo metadata)
                            (level_device_str (dp_level (deviceProof privacySettings)))
                     else "Device not verified"))
              (Some (if ip_enabled (identityProof privacySettings)
                     then "Identity verified" else "Identity not verified"))
              (Some (if ir_enabled (imageReveal privacySettings)
                     then generateImageContentClaim
                            (level_image_str (ir_level (imageReveal privacySettings)))
                            ipfsCid
                     else "Image content private")) in
          (* Create a simple hash of the metadata for the circuit *)
          let metadataHash :=
            generateSimpleHash (JSON_stringify_metadata env metadata) in
          (* Circuit inputs for the multiplier circuit *)
          let timeWithinMonth :=
            tp_enabled (timeProof privacySettings)
            && Z.ltb oneMonthAgo (timestamp metadata) in
          let locationInRegion :=
            lp_enabled (locationProof privacySettings)
            && match location metadata with Some _ => true | None => false end in
          let deviceTrusted := dp_enabled (deviceProof privacySettings) in
          let photoAuthentic := ip_enabled (identityProof privacySettings) in
          let imageContentRevealed :=
            ir_enabled (imageReveal privacySettings)
            && negb (String.eqb (level_image_str (ir_level (imageReveal privacySettings)))
                       "none") in
          let circuit_a := [JS.toString (if timeWithinMonth then 1 else 0)] in
          let circuit_b := [JS.toString (if locationInRegion then 1 else 0)] in
          proofResult <- match generateCircomProof env circuit_a circuit_b with
                         | Some p => ret p
                         | None => throw (Error "Proof generation failed")
                         end ;;
          (* Generate verification key *)
          now <- Date_now env ;;
          let verificationKey :=
            generateSimpleHash ("verification_key_" +:+ JS.toString now) in
          (* Generate the complete ZK Capsule directly *)
          capsule <- generateZKCapsule metadata privacySettings proofResult
                       verificationKey ipfsCid ipfsUrl (Some currentTime)
                       (Some metadataHash)
                       (Some timeWithinMonth) (Some locationInRegion)
                       (Some deviceTrusted) (Some photoAuthentic)
                       (Some imageContentRevealed) (Some claims) ;;
          setGeneratedCapsule capsule ;;
          console_log "=== ZK PROOF CAPSULE GENERATED ===" ;;
          (* Save original photo to gallery *)
          match truthy_string (md_photoUri metadata) with
          | Some photoUri =>
              savePhotoToGallery metadata capsule photoUri ;;
              console_log "Photo saved to gallery"
          | None => ret ()
          end)
         (λ error,
            console_error "Error generating ZK proof:" error ;;
            Alert_alert "Error" ("Failed to generate proof: " +:+ exn_message error)))
      (setIsGeneratingProof false)
  end.
End Assembler.

(** ** ShareModal.tsx: claim revision *)

Section Revision.
Context (env : Env).

Definition fallback_proof : CircomProof :=
  mkProof (mkG1 "0" "0" "1") (mkG2 ["0"; "0"] ["0"; "0"] ["1"; "0"])
          (mkG1 "0" "0" "1") "groth16" "bn128".

(** The five flags written from [revealedClaims]. *)
Definition write_flags (revealedClaims : RevealedClaims)
    (claims : gmap string string) : gmap string string :=
  let claims := <["time_within_month" := bool_toString (r_time revealedClaims)]> claims in
  let claims := <["location_in_region" := bool_toString (r_location revealedClaims)]> claims in
  let claims := <["device_trusted" := bool_toString (r_device revealedClaims)]> claims in
  let claims := <["photo_authentic" := bool_toString (r_authentic revealedClaims)]> claims in
  <["image_content_revealed" := bool_toString (r_image revealedClaims)]> claims.

Definition generateUpdatedCapsule (photo : SavedPhoto)
    (revealedClaims : RevealedClaims) (selectedLevels : SelectedLevels)
  : M ZKCapsule :=
  let existingCapsule := zkCapsule photo in
  (* Create the new public claims based on revealed settings *)
  let newPublicClaims := public_claims existingCapsule in
  let newPublicClaims := write_flags revealedClaims newPublicClaims in
  (* Add level information *)
  let newPublicClaims := <["time_level" := sl_time selectedLevels]> newPublicClaims in
  let newPublicClaims :=
    <["location_level" := sl_location selectedLevels]> newPublicClaims in
  originalProof <- try_catch (ret (proof (zkCapsule photo)))
                             (λ _, ret fallback_proof) ;;
  created <- (if Z.eqb (created_at (metadata existingCapsule)) 0
              then Date_now env
              else ret (created_at (metadata existingCapsule))) ;;
  let newCapsule :=
    mkCapsule (capsule_id existingCapsule) newPublicClaims originalProof
      (mkCapsuleMetadata
         (proof_scheme (metadata existingCapsule))
         (circuit_version (metadata existingCapsule))
         (image_hash (metadata existingCapsule))
         (verification_key (metadata existingCapsule))
         (md_ipfsCid (metadata existingCapsule))
         (md_ipfsUrl (metadata existingCapsule))
         None None created) in
  ret newCapsule.

Definition with_public_claims (claims : gmap string string) (p : SavedPhoto)
  : SavedPhoto :=
  mkSavedPhoto (id p) (sp_timestamp p) (photoUri p) (sp_location p)
    (sp_deviceInfo p) (sp_photoHash p) (sp_ipfsCid p)
    (mkCapsule (capsule_id (zkCapsule p)) claims (proof (zkCapsule p))
       (metadata (zkCapsule p))).

Definition setIsSaving (b : bool) : M () :=
  update (with_details (λ d,
    mkDetailsModal (revealedClaims d) (updatedPhoto d) b (selectedLevels d)
      (editMode d) (notified d))).
Definition setUpdatedPhoto (p : SavedPhoto) : M () :=
  update (with_details (λ d,
    mkDetailsModal (revealedClaims d) (Some p) (isSaving d) (selectedLevels d)
      (editMode d) (notified d))).
Definition setEditMode (b : bool) : M () :=
  update (with_details (λ d,
    mkDetailsModal (revealedClaims d) (updatedPhoto d) (isSaving d)
      (selectedLevels d) b (notified d))).
Definition onUpdatePhoto (p : SavedPhoto) : M () :=
  update (with_details (λ d,
    mkDetailsModal (revealedClaims d) (updatedPhoto d) (isSaving d)
      (selectedLevels d) (editMode d) (p :: notified d))).

Definition saveChanges (photo : SavedPhoto) : M () :=
  λ w,
  let st := details w in
  match updatedPhoto st with
  | None => ret () w
  | Some updatedPhoto =>
    (setIsSaving true ;;
     finally
       (try_catch
          ((* Generate new capsule with updated claims *)
           newCapsule <- generateUpdatedCapsule photo (revealedClaims st)
                           (selectedLevels st) ;;
           (* Update the photo with new capsule and public inputs *)
           let newPublicInputs :=
             write_flags (revealedClaims st)
               (public_claims (zkCapsule updatedPhoto)) in
           let updatedPhotoWithCapsule :=
             with_public_claims newPublicInputs updatedPhoto in
           (* Get all photos from storage *)
           photosString <- AsyncStorage_getItem env gallery_key ;;
           (if JS.truthy photosString then ret ()
            else throw (Error "No photos found in storage")) ;;
           allPhotos <- match JSON_parse_photos env (default "" photosString) with
                        | Some l => ret l
                        | None => throw (SyntaxError "JSON Parse error")
                        end ;;
           (* Find and update the specific photo *)
           match list_find (λ p, id p = id updatedPhoto) allPhotos with
           | None => throw (Error "Photo not found in storage")
           | Some (photoIndex, _) =>
               let allPhotos := <[photoIndex := updatedPhotoWithCapsule]> allPhotos in
               (* Save back to storage *)
               AsyncStorage_setItem env gallery_key
                 (JSON_stringify_photos env allPhotos) ;;
               setUpdatedPhoto updatedPhotoWithCapsule ;;
               onUpdatePhoto updatedPhotoWithCapsule ;;
               Alert_alert "Success"
                 "Photo claims have been updated and new capsule generated successfully" ;;
               setEditMode false
           end)
          (λ error,
             console_error "Error saving changes:" error ;;
             Alert_alert "Error" "Failed to save changes"))
       (setIsSaving false)) w
  end.

Definition getClaimDescription (st : DetailsModal) (photo : SavedPhoto)
    (claimType : string) : string :=
  let currentPhoto := default photo (updatedPhoto st) in
  let claims := public_claims (zkCapsule currentPhoto) in
  let describe (revealed : bool) (key : string) :=
    if revealed && JS.truthy (claims !! key)
    then default "" (claims !! key)
    else "Private" in
  if String.eqb claimType "time" then
    describe (r_time (revealedClaims st)) "time_claim"
  else if String.eqb claimType "location" then
    describe (r_location (revealedClaims st)) "location_claim"
  else if String.eqb claimType "device" then
    describe (r_device (revealedClaims st)) "device_claim"
  else if String.eqb claimType "authentic" then
    describe (r_authentic (revealedClaims st)) "authenticity_claim"
  else if String.eqb claimType "image" then
    describe (r_image (revealedClaims st)) "image_content_claim"
  else "Private".
End Revision.

(** ** verify.tsx: parsed values *)

Module JV.

(** The last binding of a key, as [JSON.parse] keeps it. *)
Fixpoint assoc (key : string) (fields : list (string * value)) : option value :=
  match fields with
  | [] => None
  | (k, v) :: rest =>
      match assoc key rest with
      | Some v' => Some v'
      | None => if String.eqb key k then Some v else None
      end
  end.

(** [v.key], for the property names the verifier reads: none of them is an
    array index or inherited from a prototype, apart from [length]. *)
Definition getProp (v : value) (key : string) : result value :=
  match v with
  | VUndefined =>
      Throw (TypeError ("Cannot read property '" +:+ key +:+ "' of undefined"))
  | VNull => Throw (TypeError ("Cannot read property '" +:+ key +:+ "' of null"))
  | VObject fields => Ok (default VUndefined (assoc key fields))
  | VString s =>
      Ok (if String.eqb key "length"
          then VNumber (Z.of_nat (String.length s)) else VUndefined)
  | VArray items =>
      Ok (if String.eqb key "length"
          then VNumber (Z.of_nat (List.length items)) else VUndefined)
  | VBool _ | VNumber _ => Ok VUndefined
  end.

Definition truthy (v : value) : bool :=
  match v with
  | VUndefined | VNull => false
  | VBool b => b
  | VNumber n => negb (Z.eqb n 0)
  | VString s => JS.nonempty s
  | VArray _ | VObject _ => true
  end.

(** The white space that [trim] removes, among the code units below 256. *)
Definition is_space (c : ascii) : bool :=
  let n := N_of_ascii c in
  ((9 <=? n) && (n <=? 13) || (n =? 32) || (n =? 160))%N.

Fixpoint trimStart (s : string) : string :=
  match s with
  | String c s' => if is_space c then trimStart s' else s
  | EmptyString => EmptyString
  end.

Fixpoint trimEnd (s : string) : string :=
  match s with
  | String c s' =>
      match trimEnd s' with
      | EmptyString => if is_space c then EmptyString else String c EmptyString
      | t => String c t
      end
  | EmptyString => EmptyString
  end.

Definition trim (s : string) : string := trimEnd (trimStart s).

Definition startsWith (s p : string) : bool := String.prefix p s.

Definition includes (s sub : string) : bool :=
  match index 0 sub s with Some _ => true | None => false end.

Definition getTime (d : Date) : option Z :=
  match d with ValidDate t => Some t | InvalidDate => None end.

(** [a < b] on dates: false as soon as one of them is invalid. *)
Definition date_lt (a b : Date) : bool :=
  match a, b with
  | ValidDate x, ValidDate y => Z.ltb x y
  | _, _ => false
  end.

(** [a - b] on numbers, [None] standing for [NaN]. *)
Definition sub (a b : option Z) : option Z :=
  match a, b with
  | Some x, Some y => Some (x - y)
  | _, _ => None
  end.

End JV.

(** ** verify.tsx: the verifier *)

Section Verifier.
Context (env : Env).

Definition get (v : value) (key : string) : M value := lift (JV.getProp v key).

(** [a && b], [b] being evaluated only when [a] is truthy. *)
Definition and_then (a : value) (b : M value) : M value :=
  if JV.truthy a then b else ret a.

(** [v > 0]. *)
Definition gt0 (v : value) : bool :=
  match v with
  | VUndefined | VNull => false
  | VBool b => b
  | VNumber n => Z.ltb 0 n
  | VString _ | VArray _ | VObject _ => converts_positive env v
  end.

(** A value inside a template string. *)
Definition template_value (v : value) : string :=
  match v with VString s => s | _ => ToString env v end.

Definition date_toISOString (d : Date) : result string :=
  match d with
  | ValidDate t => Ok (toISOString env t)
  | InvalidDate => Throw (RangeError "Invalid time value")
  end.

(** State setters of the screen. *)
Definition setVerificationResult (r : option Verdict) : M () :=
  update (with_verify (λ s,
    mkVerifyScreen (proofData s) r (isVerifying s) (parsedCapsule s)
      (showResultsModal s) (showFallingPhrases s) (timeLockState s)
      (walletLockState s) (isLoadingTime s))).
Definition setIsVerifying (b : bool) : M () :=
  update (with_verify (λ s,
    mkVerifyScreen (proofData s) (verificationResult s) b (parsedCapsule s)
      (showResultsModal s) (showFallingPhrases s) (timeLockState s)
      (walletLockState s) (isLoadingTime s))).
Definition setParsedCapsule (c : option value) : M () :=
  update (with_verify (λ s,
    mkVerifyScreen (proofData s) (verificationResult s) (isVerifying s) c
      (showResultsModal s) (showFallingPhrases s) (timeLockState s)
      (walletLockState s) (isLoadingTime s))).
Definition setShowResultsModal (b : bool) : M () :=
  update (with_verify (λ s,
    mkVerifyScreen (proofData s) (verificationResult s) (isVerifying s)
      (parsedCapsule s) b (showFallingPhrases s) (timeLockState s)
      (walletLockState s) (isLoadingTime s))).
Definition setShowFallingPhrases (b : bool) : M () :=
  update (with_verify (λ s,
    mkVerifyScreen (proofData s) (verificationResult s) (isVerifying s)
      (parsedCapsule s) (showResultsModal s) b (timeLockState s)
      (walletLockState s) (isLoadingTime s))).
Definition setTimeLockState (t : TimeLockState) : M () :=
  update (with_verify (λ s,
    mkVerifyScreen (proofData s) (verificationResult s) (isVerifying s)
      (parsedCapsule s) (showResultsModal s) (showFallingPhrases s) t
      (walletLockState s) (isLoadingTime s))).
Definition setWalletLockState (t : WalletLockState) : M () :=
  update (with_verify (λ s,
    mkVerifyScreen (proofData s) (verificationResult s) (isVerifying s)
      (parsedCapsule s) (showResultsModal s) (showFallingPhrases s)
      (timeLockState s) t (isLoadingTime s))).
Definition setIsLoadingTime (b : bool) : M () :=
  update (with_verify (λ s,
    mkVerifyScreen (proofData s) (verificationResult s) (isVerifying s)
      (parsedCapsule s) (showResultsModal s) (showFallingPhrases s)
      (timeLockState s) (walletLockState s) b)).

Definition timeAPIs : list string :=
  [ "https://worldtimeapi.org/api/timezone/Etc/UTC";
    "https://api.ipgeolocation.io/timezone?apiKey=free";
    "http://worldclockapi.com/api/json/utc/now" ].

(** One iteration of the loop of [fetchGlobalTime]: [Some d] when the
    function returns [d], [None] when the loop goes on. *)
Definition try_time_api (api : string) : M (option Date) :=
  try_catch
    (match fetch env api with
     | None => throw (TypeError "Network request failed")
     | Some response =>
         if ok response then
           data <- match JSON_parse env (body response) with
                   | Some v => ret v
                   | None => throw (SyntaxError "JSON Parse error")
                   end ;;
           datetime <- get data "datetime" ;;
           timeString <-
             (if JV.truthy datetime then ret datetime else
                date_time <- get data "date_time" ;;
                if JV.truthy date_time then ret date_time else
                  currentDateTime <- get data "currentDateTime" ;;
                  if JV.truthy currentDateTime then ret currentDateTime
                  else throw (Error "Unknown time format")) ;;
           let globalTime := new_Date env timeString in
           iso <- lift (date_toISOString globalTime) ;;
           console_log ("Global time fetched from " +:+ api +:+ ": " +:+ iso) ;;
           ret (Some globalTime)
         else ret None
     end)
    (λ apiError,
       console_error ("Failed to fetch time from " +:+ api +:+ ":") apiError ;;
       ret None).

Fixpoint time_api_loop (apis : list string) : M (option Date) :=
  match apis with
  | [] => ret None
  | api :: rest =>
      r <- try_time_api api ;;
      match r with
      | Some d => ret (Some d)
      | None => time_api_loop rest
      end
  end.

(** [new Date()]. *)
Definition device_time : M Date := t <- Date_now env ;; ret (ValidDate t).

Definition fetchGlobalTime : M Date :=
  finally
    (try_catch
       (setIsLoadingTime true ;;
        r <- time_api_loop timeAPIs ;;
        match r with
        | Some globalTime => ret globalTime
        | None =>
            (* Fallback to device time with warning *)
            console_log "All time APIs failed, falling back to device time" ;;
            Alert_alert "Time Sync Warning"
              "Could not verify with global time servers. Using device time as fallback." ;;
            device_time
        end)
       (λ error,
          console_error "Error fetching global time:" error ;;
          device_time))
    (setIsLoadingTime false).

Definition loadPrivateVault (capsuleId : value) : M value :=
  r <- try_catch
         (vaultData <- AsyncStorage_getItem env
                         (vault_key (template_value capsuleId)) ;;
          if JS.truthy vaultData then
            match JSON_parse env (default "" vaultData) with
            | Some v => ret (Some v)
            | None => throw (SyntaxError "JSON Parse error")
            end
          else ret None)
         (λ error,
            console_error "Error loading private vault:" error ;;
            ret None) ;;
  ret (default VNull r).

Definition checkTimeLockStatus (capsule : value) : M () :=
  public_claims <- get capsule "public_claims" ;;
  time_lock_until <- get public_claims "time_lock_until" ;;
  if JV.truthy time_lock_until then
    let unlockTime := new_Date env time_lock_until in
    currentTime <- fetchGlobalTime ;;
    let isLocked := JV.date_lt currentTime unlockTime in
    let timeRemaining :=
      if isLocked then JV.sub (JV.getTime unlockTime) (JV.getTime currentTime)
      else Some 0 in
    lockedData <-
      (if negb isLocked then
         (* Time to reveal the locked data - load from private vault *)
         capsule_id <- get capsule "capsule_id" ;;
         privateVault <- loadPrivateVault capsule_id ;;
         data <- and_then privateVault
                   (original_values <- get privateVault "original_values" ;;
                    get original_values "time_lock_data") ;;
         if JV.truthy data then
           console_log ("Time lock unlocked! Revealing data: " +:+ template_value data) ;;
           ret data
         else
           console_log "No private vault found for unlocked time lock" ;;
           ret VNull
       else ret VNull) ;;
    setTimeLockState
      (mkTimeLockState isLocked (Some unlockTime) lockedData (Some currentTime)
         timeRemaining) ;;
    unlock_iso <- lift (date_toISOString unlockTime) ;;
    current_iso <- lift (date_toISOString currentTime) ;;
    console_log ("Time lock status: " +:+ bool_toString isLocked +:+ " "
                 +:+ unlock_iso +:+ " " +:+ current_iso)
  else
    (* No time lock *)
    setTimeLockState (mkTimeLockState false None VNull None (Some 0)).

Definition checkWalletLockStatus (capsule : value) : M () :=
  public_claims <- get capsule "public_claims" ;;
  allowed_address <- get public_claims "allowed_address" ;;
  if JV.truthy allowed_address then
    let allowedAddress := allowed_address in
    (* Load private vault to get encrypted content *)
    capsule_id <- get capsule "capsule_id" ;;
    privateVault <- loadPrivateVault capsule_id ;;
    data <- and_then privateVault
              (original_values <- get privateVault "original_values" ;;
               get original_values "receiver_lock_data") ;;
    encryptedContent <-
      (if JV.truthy data then
         console_log ("Found wallet-locked content for address: "
                      +:+ template_value allowedAddress) ;;
         ret data
       else ret VNull) ;;
    (* No wallet is ever connected here *)
    let connectedWallet : option string := None in
    let isLocked := true in
    let decryptedContent := VNull in
    setWalletLockState
      (mkWalletLockState isLocked allowedAddress connectedWallet
         encryptedContent decryptedContent false) ;;
    console_log "Wallet lock status: locked"
  else
    setWalletLockState (mkWalletLockState false VNull None VNull VNull false).

Definition isIpfsUrl (capsuleData : string) : bool :=
  JV.startsWith capsuleData "https://gateway.pinata.cloud/ipfs/"
  || JV.startsWith capsuleData "https://ipfs.io/ipfs/"
  || JV.startsWith capsuleData "https://" && JV.includes capsuleData "/ipfs/".

(** The text to parse: the input itself, or the body fetched from the IPFS
    URL it is; [None] when the fetch fails and [verifyProof] returns. *)
Definition resolveCapsuleData (capsuleData : string) : M (option string) :=
  if isIpfsUrl capsuleData then
    console_log "Detected IPFS URL, fetching capsule data..." ;;
    try_catch
      (match fetch env capsuleData with
       | None => throw (TypeError "Network request failed")
       | Some response =>
           if ok response then
             console_log "Successfully fetched data from IPFS" ;;
             ret (Some (body response))
           else
             throw (Error ("HTTP " +:+ JS.toString (status response) +:+ ": "
                           +:+ statusText response))
       end)
      (λ fetchError,
         console_error "Error fetching from IPFS:" fetchError ;;
         Alert_alert "IPFS Error"
           "Failed to fetch capsule data from IPFS URL. Please check the URL and try again." ;;
         setIsVerifying false ;;
         ret None)
  else ret (Some capsuleData).

Definition verification_failed : M () :=
  setVerificationResult (Some invalid) ;;
  Alert_alert "Verification Failed" "Invalid capsule format or corrupted data".

(** The part of [verifyProof] that follows [JSON.parse].  Reading a property
    of a parsed value has no effect, so each property is read once, where
    the source reads it first. *)
Definition verifyParsed (parsed : value) : M () :=
  (* Validate new capsule structure *)
  capsule_id <- get parsed "capsule_id" ;;
  public_claims <- get parsed "public_claims" ;;
  proof <- get parsed "proof" ;;
  metadata <- get parsed "metadata" ;;
  (if negb (JV.truthy capsule_id) || negb (JV.truthy public_claims)
      || negb (JV.truthy proof) || negb (JV.truthy metadata)
   then throw (Error "Invalid capsule structure - missing required fields")
   else ret ()) ;;
  (* Validate metadata structure *)
  verification_key <- get metadata "verification_key" ;;
  proof_scheme <- get metadata "proof_scheme" ;;
  (if negb (JV.truthy verification_key) || negb (JV.truthy proof_scheme)
   then throw (Error "Invalid metadata structure")
   else ret ()) ;;
  (* Check if it has required ZK proof components *)
  a <- get proof "a" ;;
  hasValidProof <- and_then a (b <- get proof "b" ;; and_then b (get proof "c")) ;;
  hasValidMetadata <- and_then verification_key (get metadata "image_hash") ;;
  hasValidCapsuleId <- and_then capsule_id
                         (length <- get capsule_id "length" ;;
                          ret (VBool (gt0 length))) ;;
  isValid <- and_then hasValidProof
               (and_then hasValidMetadata (ret hasValidCapsuleId)) ;;
  if JV.truthy isValid then
    setParsedCapsule (Some parsed) ;;
    setVerificationResult (Some valid) ;;
    (* Check time lock status *)
    checkTimeLockStatus parsed ;;
    (* Check wallet lock status *)
    checkWalletLockStatus parsed ;;
    setShowResultsModal true
  else verification_failed.

Definition verifyProof : M () :=
  λ w,
  let proofData := proofData (verify w) in
  if negb (JS.nonempty (JV.trim proofData)) then
    Alert_alert "Error" "Please enter capsule data to verify" w
  else
    (setIsVerifying true ;;
     setVerificationResult None ;;
     setParsedCapsule None ;;
     setShowFallingPhrases true ;;
     console_log "Setting falling phrases to visible" ;;
     finally
       (try_catch
          (resolved <- resolveCapsuleData (JV.trim proofData) ;;
           match resolved with
           | None => ret ()
           | Some capsuleData =>
               (* Try to parse the capsule data *)
               parsed <- match JSON_parse env capsuleData with
                         | Some v => ret v
                         | None => throw (SyntaxError "JSON Parse error")
                         end ;;
               verifyParsed parsed
           end)
          (λ error,
             console_error "Verification error:" error ;;
             verification_failed))
       (setIsVerifying false)) w.
End Verifier.

(** ** Web3SaltGenerator.tsx: the utilities of the Flow salt screen *)

Module Flow.

Definition chars : string := "0123456789abcdef".

(** [chars[i]] inside a string concatenation. *)
Definition char_at (i : Z) : string :=
  if Z.ltb i 0 then "undefined"
  else match String.get (Z.to_nat i) chars with
       | Some c => String c ""
       | None => "undefined"
       end.

Section Utilities.
Context (env : Env).

(** The loop shared by the two generators, with [n] iterations left. *)
Fixpoint chars_loop (n : nat) (acc : string) : M string :=
  match n with
  | O => ret acc
  | S n' =>
      r <- Math_random env ;;
      chars_loop n'
        (acc +:+ char_at (floor_scaled r (Z.of_nat (String.length chars))))
  end.

Definition generateTransactionHash : M string := chars_loop 64 "0x".

Definition generateSalt : M string := chars_loop 32 "".
End Utilities.

End Flow.

(** ** verify.tsx: the rest of the screen *)

(** [formatTimeRemaining(milliseconds)], [None] standing for [NaN]. *)
Definition formatTimeRemaining (milliseconds : option Z) : string :=
  match milliseconds with
  | None => "NaNs"
  | Some milliseconds =>
      if Z.leb milliseconds 0 then "Unlocked"
      else
        let days := milliseconds / (1000 * 60 * 60 * 24) in
        let hours := (milliseconds mod (1000 * 60 * 60 * 24)) / (1000 * 60 * 60) in
        let minutes := (milliseconds mod (1000 * 60 * 60)) / (1000 * 60) in
        let seconds := (milliseconds mod (1000 * 60)) / 1000 in
        if Z.ltb 0 days then
          JS.toString days +:+ "d " +:+ JS.toString hours +:+ "h "
            +:+ JS.toString minutes +:+ "m"
        else if Z.ltb 0 hours then
          JS.toString hours +:+ "h " +:+ JS.toString minutes +:+ "m "
            +:+ JS.toString seconds +:+ "s"
        else if Z.ltb 0 minutes then
          JS.toString minutes +:+ "m " +:+ JS.toString seconds +:+ "s"
        else JS.toString seconds +:+ "s"
  end.

Definition clearResults : M () :=
  update (with_verify (λ s,
    mkVerifyScreen "" None (isVerifying s) None false (showFallingPhrases s)
      (mkTimeLockState false None VNull None (Some 0))
      (mkWalletLockState false VNull None VNull VNull false)
      (isLoadingTime s))).

(** The button pressed in the alert of [connectWallet]. *)
Inductive WalletChoice := choose_correct | choose_wrong | choose_cancel.

Section Wallet.
Context (env : Env).
(** [s.toLowerCase()], and the address that [connectWallet] derives from a
    value of [Math.random()] for a wrong wallet. *)
Context (toLowerCase : string → string) (random_address : draw → string).

(** [setWalletLockState(prev => ({ ...prev, ... }))]. *)
Definition updateWalletLockState (f : WalletLockState → WalletLockState) : M () :=
  update (with_verify (λ s,
    mkVerifyScreen (proofData s) (verificationResult s) (isVerifying s)
      (parsedCapsule s) (showResultsModal s) (showFallingPhrases s)
      (timeLockState s) (f (walletLockState s)) (isLoadingTime s))).

Definition setIsConnecting (b : bool) : M () :=
  updateWalletLockState (λ prev,
    mkWalletLockState (wls_isLocked prev) (allowedAddress prev)
      (connectedWallet prev) (encryptedContent prev) (decryptedContent prev) b).

(** [v.toLowerCase()] for a value [v]. *)
Definition value_toLowerCase (v : value) : result string :=
  match v with
  | VString s => Ok (toLowerCase s)
  | _ => Throw (TypeError "toLowerCase is not a function")
  end.

(** A value that is a string, as [connectedWallet] holds it. *)
Definition string_of (v : value) : option string :=
  match v with VString s => Some s | _ => None end.

Definition connectWallet (userChoice : WalletChoice) : M () :=
  λ w,
  let walletLockState := walletLockState (verify w) in
  if negb (JV.truthy (allowedAddress walletLockState)) then ret () w
  else
    (setIsConnecting true ;;
     try_catch
       (Alert_alert "Wallet Connection Simulation" "Choose a scenario for testing:" ;;
        match userChoice with
        | choose_cancel => setIsConnecting false
        | _ =>
            simulatedWallet <-
              match userChoice with
              | choose_correct => ret (allowedAddress walletLockState)
              | _ => r <- Math_random env ;; ret (VString (random_address r))
              end ;;
            lowered <- lift (value_toLowerCase simulatedWallet) ;;
            allowed <- lift (value_toLowerCase (allowedAddress walletLockState)) ;;
            let isMatch := String.eqb lowered allowed in
            decryptedContent <-
              (if isMatch && JV.truthy (encryptedContent walletLockState) then
                 (* Simulate decryption *)
                 Alert_alert "Success!" "Wallet connected and content decrypted!" ;;
                 ret (encryptedContent walletLockState)
               else if negb isMatch then
                 Alert_alert "Access Denied"
                   "This wallet is not authorized to view this content." ;;
                 ret VNull
               else ret VNull) ;;
            updateWalletLockState (λ prev,
              mkWalletLockState (negb isMatch) (allowedAddress prev)
                (string_of simulatedWallet)
                (encryptedContent prev) decryptedContent false)
        end)
       (λ error,
          console_error "Wallet connection error:" error ;;
          Alert_alert "Error" "Failed to connect wallet" ;;
          setIsConnecting false)) w.
End Wallet.

(** ** ShareModal.tsx: the rest of the editor *)

Section Editor.
Context (env : Env).

(** [claims.key === "true" || false]. *)
Definition is_true (claims : gmap string string) (key : string) : bool :=
  bool_decide (claims !! key = Some "true").

(** The flags and the levels that the effect on [photo] reads from the
    capsule. *)
Definition revealed_of (claims : gmap string string) : RevealedClaims :=
  mkRevealed (is_true claims "time_within_month")
    (is_true claims "location_in_region") (is_true claims "device_trusted")
    (is_true claims "photo_authentic") (is_true claims "image_content_revealed").

Definition levels_of (claims : gmap string string) : SelectedLevels :=
  mkLevels (JS.or_else (claims !! "time_level") "month")
           (JS.or_else (claims !! "location_level") "country").

Definition setRevealedClaims (r : RevealedClaims) : M () :=
  update (with_details (λ d,
    mkDetailsModal r (updatedPhoto d) (isSaving d) (selectedLevels d)
      (editMode d) (notified d))).
Definition setSelectedLevels (f : SelectedLevels → SelectedLevels) : M () :=
  update (with_details (λ d,
    mkDetailsModal (revealedClaims d) (updatedPhoto d) (isSaving d)
      (f (selectedLevels d)) (editMode d) (notified d))).

(** The effect that runs when [photo] changes. *)
Definition onPhotoChange (photo : option SavedPhoto) : M () :=
  match photo with
  | Some photo =>
      setRevealedClaims (revealed_of (public_claims (zkCapsule photo))) ;;
      setUpdatedPhoto photo ;;
      (* Initialize selected levels based on claims *)
      setSelectedLevels (λ _, levels_of (public_claims (zkCapsule photo)))
  | None => ret ()
  end.

Definition toggleEditMode (photo : SavedPhoto) : M () :=
  λ w,
  let editMode := editMode (details w) in
  (setEditMode (negb editMode) ;;
   if negb editMode then
     (* Entering edit mode - keep track of current state *)
     setUpdatedPhoto photo
   else ret ()) w.

(** The switch of [toggleClaimReveal] on the copy of [revealedClaims]. *)
Definition toggled (claimType : string) (r : RevealedClaims) : RevealedClaims :=
  if String.eqb claimType "time" then
    mkRevealed (negb (r_time r)) (r_location r) (r_device r) (r_authentic r) (r_image r)
  else if String.eqb claimType "location" then
    mkRevealed (r_time r) (negb (r_location r)) (r_device r) (r_authentic r) (r_image r)
  else if String.eqb claimType "device" then
    mkRevealed (r_time r) (r_location r) (negb (r_device r)) (r_authentic r) (r_image r)
  else if String.eqb claimType "authentic" then
    mkRevealed (r_time r) (r_location r) (r_device r) (negb (r_authentic r)) (r_image r)
  else if String.eqb claimType "image" then
    mkRevealed (r_time r) (r_location r) (r_device r) (r_authentic r) (negb (r_image r))
  else r.

(** [!flag ? "false" : "true"]. *)
Definition stale_flag (flag : bool) : string :=
  if negb flag then "false" else "true".

Definition toggleClaimReveal (claimType : string) : M () :=
  λ w,
  let revealedClaims := revealedClaims (details w) in
  let updatedPhoto := updatedPhoto (details w) in
  let newRevealedClaims := toggled claimType revealedClaims in
  (setRevealedClaims newRevealedClaims ;;
   (* Update the updatedPhoto state with new public_inputs *)
   match updatedPhoto with
   | Some updatedPhoto =>
       let newPublicInputs := public_claims (zkCapsule updatedPhoto) in
       let newPublicInputs :=
         if String.eqb claimType "time" then
           <["time_within_month" := stale_flag (r_time revealedClaims)]> newPublicInputs
         else if String.eqb claimType "location" then
           <["location_in_region" := stale_flag (r_location revealedClaims)]>
             newPublicInputs
         else if String.eqb claimType "device" then
           <["device_trusted" := stale_flag (r_device revealedClaims)]> newPublicInputs
         else if String.eqb claimType "authentic" then
           <["photo_authentic" := stale_flag (r_authentic revealedClaims)]>
             newPublicInputs
         else if String.eqb claimType "image" then
           <["image_content_revealed" := stale_flag (r_image revealedClaims)]>
             newPublicInputs
         else newPublicInputs in
       setUpdatedPhoto (with_public_claims newPublicInputs updatedPhoto)
   | None => ret ()
   end) w.

(** The claim text that [updateClaimLevel] writes for the time, if the
    level has a case. *)
Definition time_claim_at (timestamp : Z) (level : string) : option string :=
  if String.eqb level "exact" then Some ("At " +:+ toLocaleString env timestamp)
  else if String.eqb level "day" then Some ("On " +:+ toLocaleDateString env timestamp)
  else if String.eqb level "week" then
    let weekStart := setDate env timestamp (getDate env timestamp - getDay env timestamp) in
    Some ("Week of " +:+ toLocaleDateString env weekStart)
  else if String.eqb level "month" then Some ("In " +:+ toLocaleMonthYear env timestamp)
  else if String.eqb level "year" then
    Some ("In " +:+ JS.toString (getFullYear env timestamp))
  else None.

(** The claim text that [updateClaimLevel] writes for the location, if the
    level has a case. *)
Definition location_claim_at (location : Location) (level : string)
  : result (option string) :=
  if String.eqb level "exact" then
    match toFixed6 env (latitude location) with
    | Throw e => Throw e
    | Ok lat =>
        match toFixed6 env (longitude location) with
        | Throw e => Throw e
        | Ok lon => Ok (Some ("At " +:+ lat +:+ ", " +:+ lon))
        end
    end
  else if String.eqb level "city" then
    Ok (Some (JS.or_else (city location) "In local city"))
  else if String.eqb level "country" then
    Ok (Some (JS.or_else (country location) "In authorized country"))
  else if String.eqb level "continent" then
    Ok (Some (JS.or_else (continent location) "In authorized continent"))
  else Ok None.

(** [updateClaimLevel].  The editor calls it with the claim types [time]
    and [location]; for another claim type the source adds to
    [selectedLevels] a key that nothing reads. *)
Definition updateClaimLevel (photo : SavedPhoto) (claimType level : string) : M () :=
  λ w,
  let updatedPhoto := updatedPhoto (details w) in
  (setSelectedLevels (λ prev,
     if String.eqb claimType "time" then mkLevels level (sl_location prev)
     else if String.eqb claimType "location" then mkLevels (sl_time prev) level
     else prev) ;;
   (* Update the claim text based on the selected level *)
   match updatedPhoto with
   | Some updatedPhoto =>
       let newClaims := public_claims (zkCapsule updatedPhoto) in
       newClaims <-
         (if String.eqb claimType "time" then
            ret (match time_claim_at (sp_timestamp photo) level with
                 | Some text => <["time_claim" := text]> newClaims
                 | None => newClaims
                 end)
          else
            match String.eqb claimType "location", sp_location photo with
            | true, Some location =>
                text <- lift (location_claim_at location level) ;;
                ret (match text with
                     | Some text => <["location_claim" := text]> newClaims
                     | None => newClaims
                     end)
            | _, _ => ret newClaims
            end) ;;
       setUpdatedPhoto (with_public_claims newClaims updatedPhoto)
   | None => ret ()
   end) w.

Definition cancelChanges (photo : SavedPhoto) : M () :=
  (* Reset to original photo state *)
  setUpdatedPhoto photo ;;
  setRevealedClaims (revealed_of (public_claims (zkCapsule photo))) ;;
  setEditMode false.
End Editor.

(** ** A sample host *)

(** A host to run the model on.  [JSON.parse] is given by a finite table of
    texts and the values they denote; [new Date] understands numbers (time
    values) and nothing else; dates are rendered by tagging the time value;
    the network is down; the store accepts every read and write. *)
Module Sample.

(** The JSON text of a value (strings without escapes). *)
Definition dq : string := String (ascii_of_nat 34) "".

Fixpoint stringify (v : value) : string :=
  let fix items (l : list value) : string :=
    match l with
    | [] => ""
    | [x] => stringify x
    | x :: rest => stringify x +:+ "," +:+ items rest
    end in
  let fix members (l : list (string * value)) : string :=
    match l with
    | [] => ""
    | [(k, x)] => dq +:+ k +:+ dq +:+ ":" +:+ stringify x
    | (k, x) :: rest => dq +:+ k +:+ dq +:+ ":" +:+ stringify x +:+ "," +:+ members rest
    end in
  match v with
  | VUndefined => "undefined"
  | VNull => "null"
  | VBool b => bool_toString b
  | VNumber n => JS.toString n
  | VString s => dq +:+ s +:+ dq
  | VArray l => "[" +:+ items l +:+ "]"
  | VObject l => "{" +:+ members l +:+ "}"
  end.

Definition parse_table {A} (table : list (string * A)) (text : string)
  : option A :=
  match list_find (λ entry, entry.1 = text) table with
  | Some (_, (_, v)) => Some v
  | None => None
  end.

Definition a_proof : CircomProof :=
  mkProof (mkG1 "1" "2" "1") (mkG2 ["3"; "4"] ["5"; "6"] ["1"; "0"])
          (mkG1 "7" "8" "1") "groth16" "bn128".

Definition env (table : list (string * value))
    (photos : list (string * list SavedPhoto)) : Env :=
  {| Math_random_at := λ i, Draw ((Z.of_nat i * 7) mod 10) 10;
     Date_now_at := λ i, 1700000000000 + Z.of_nat i;
     setItem_rejects := λ _ _ _, false;
     getItem_rejects := λ _ _, false;
     Platform_OS := "ios";
     toISOString := λ t, "iso:" +:+ JS.toString t;
     toLocaleDateString := λ t, "day:" +:+ JS.toString (t / 86400000);
     toLocaleMonthYear := λ t, "month:" +:+ JS.toString (t / 2592000000);
     getFullYear := λ t, 1970 + t / 31556952000;
     toLocaleString := λ t, "day:" +:+ JS.toString (t / 86400000) +:+ ", ms:"
                            +:+ JS.toString (t mod 86400000);
     getHours := λ t, (t mod 86400000) / 3600000;
     getDate := λ t, t / 86400000;
     getDay := λ t, (t / 86400000 + 4) mod 7;
     setDate := λ t d, d * 86400000 + t mod 86400000;
     Number_toFixed6 := λ f, JS.toString (mantissa f) +:+ "e" +:+ JS.toString (exponent f);
     Number_toString := λ f, JS.toString (mantissa f) +:+ "e" +:+ JS.toString (exponent f);
     JSON_stringify_vault := λ v, "vault:" +:+ pv_capsule_id v;
     JSON_stringify_metadata := λ m, "metadata:" +:+ photoHash m;
     JSON_stringify_photos := λ l, "photos:" +:+ JS.toString (Z.of_nat (length l));
     JSON_parse_photos := parse_table photos;
     JSON_parse := parse_table table;
     new_Date := λ v, match v with VNumber t => ValidDate t | _ => InvalidDate end;
     converts_positive := λ _, false;
     ToString := λ _, "[object Object]";
     fetch := λ _, None;
     uploadToIPFS := λ _, None;
     getIPFSUrl := λ cid, "https://gateway.pinata.cloud/ipfs/" +:+ cid;
     generateCircomProof := λ _ _, Some a_proof |}.

(** The same host with a store that rejects the writes [rejects] tells. *)
Definition env_rejecting (rejects : gmap string string → string → string → bool)
  : Env :=
  let e := env [] [] in
  mkEnv (Math_random_at e) (Date_now_at e) rejects (getItem_rejects e)
    (Platform_OS e) (toISOString e) (toLocaleDateString e) (toLocaleMonthYear e)
    (getFullYear e) (toLocaleString e) (getHours e) (getDate e) (getDay e)
    (setDate e) (Number_toFixed6 e) (Number_toString e)
    (JSON_stringify_vault e) (JSON_stringify_metadata e)
    (JSON_stringify_photos e) (JSON_parse_photos e)
    (JSON_parse e) (new_Date e) (converts_positive e) (ToString e) (fetch e)
    (uploadToIPFS e) (getIPFSUrl e) (generateCircomProof e).

(** A store that rejects every write. *)
Definition env_store_unavailable : Env := env_rejecting (λ _ _ _, true).

(** The initial state of the two screens. *)
Definition verify_screen (proofData : string) : VerifyScreen :=
  mkVerifyScreen proofData None false None false true
    (mkTimeLockState false None VNull None (Some 0))
    (mkWalletLockState false VNull None VNull VNull false) false.

Definition details_modal : DetailsModal :=
  mkDetailsModal (mkRevealed false false false false false) None false
    (mkLevels "month" "country") false [].

Definition world (store : gmap string string) (proofData : string) : World :=
  mkWorld store 0 0 [] [] (mkMakerScreen false None) (verify_screen proofData)
    details_modal.

Definition paris : Location :=
  mkLocation (Some (Float 48856600 0)) (Some (Float 2352200 0))
             (Some "Paris") (Some "France") None.

Definition a_photo : PhotoMetadata :=
  mkPhotoMetadata 1700000000000 (Some paris) "iOS Camera" "abc123"
    (Some "file:///photo.jpg") None.

(** Only the location is disclosed, at the level of the country. *)
Definition only_country : PrivacySettings :=
  mkPrivacySettings (mkTimeProof false T_month) (mkLocationProof true L_country)
    (mkDeviceProof false D_devicetype) (mkIdentityProof false)
    (mkImageReveal false I_none) (mkTimeLock false None "" Lock_content)
    (mkReceiverLock false "" "") (mkStorageOptions Storage_ipfs None).

End Sample.

(** * Specification vocabulary and sample inputs *)

(** ** The salt generator *)

Definition is_salt (s : string) : Prop :=
  JS.all_digits s = true ∧ (6 <= String.length s <= 9)%nat.

(** ** The location claim deriver *)

(** The inputs with missing data, each with the fallback it is given: no
    location at all, at any level; or a location whose city, country or
    continent, the one the level asks for, is absent (or empty). *)
Inductive missing_location_data : option Location → string → string → Prop :=
| missing_location (level : string) :
    missing_location_data None level "Location not available"
| missing_city (loc : Location) :
    JS.truthy (city loc) = false →
    missing_location_data (Some loc) "city" "In local city"
| missing_country (loc : Location) :
    JS.truthy (country loc) = false →
    missing_location_data (Some loc) "country" "In authorized country"
| missing_continent (loc : Location) :
    JS.truthy (continent loc) = false →
    missing_location_data (Some loc) "continent" "In authorized continent".

(** What [storePrivateVault] leaves in the store. *)
Definition store_after (env : Env) (store : gmap string string) (vault : PrivateVault)
  : gmap string string :=
  let key := vault_key (pv_capsule_id vault) in
  let text := JSON_stringify_vault env vault in
  if setItem_rejects env store key text then store else <[key := text]> store.

(** The capsule that [generateZKCapsule] returns when the clock has been
    read [clock] times before. *)
Definition assembled_capsule (env : Env) (metadata : PhotoMetadata)
    (privacySettings : PrivacySettings) (circomProof : CircomProof)
    (verificationKey : string) (ipfsCid ipfsUrl : option string)
    (currentTime : option Z)
    (timeWithinMonth locationInRegion deviceTrusted photoAuthentic
       imageContentRevealed : option bool)
    (claims : option Claims) (clock : nat) : ZKCapsule :=
  mkCapsule
    (generateSimpleHash
       (photoHash metadata +:+ JS.toString (Date_now_at env clock)))
    (add_readable_claims claims
       (add_circuit_results timeWithinMonth locationInRegion deviceTrusted
          photoAuthentic imageContentRevealed
          (generatePublicClaims env metadata privacySettings)))
    circomProof
    (mkCapsuleMetadata "circom 2" "multiplier2_v1" (photoHash metadata)
       verificationKey ipfsCid ipfsUrl
       (so_walrusBlobId (storageOptions privacySettings))
       (Some (so_type (storageOptions privacySettings)))
       (match currentTime with
        | Some t => if Z.eqb t 0 then Date_now_at env (S clock) else t
        | None => Date_now_at env (S clock)
        end)).

(** A host whose store rejects the write of every vault, and the runs of
    [generateZKCapsule] and of [generateZKProof] on it. *)
Definition rejects_vaults (_ : gmap string string) (key _ : string) : bool :=
  String.prefix "@private_vault_" key.

Definition capsule_run_without_vault : result ZKCapsule * World :=
  generateZKCapsule (Sample.env_rejecting rejects_vaults) Sample.a_photo
    Sample.only_country Sample.a_proof "vk" None None None None None None None
    None None None (Sample.world ∅ "").

Definition proof_run_without_vault : result () * World :=
  generateZKProof (Sample.env_rejecting rejects_vaults) (Some Sample.a_photo)
    Sample.only_country (Sample.world ∅ "").

(** ** Absence means privacy *)

(** The keys of [public_claims] that belong to each disclosure toggle. *)
Definition time_fields : list string :=
  ["date_exact"; "date_day"; "date_month"; "date_year"].
Definition location_fields : list string :=
  ["location_exact"; "location_city"; "location_country"; "location_continent"].
Definition device_fields : list string :=
  ["device_type"; "device_platform"; "device_info"].
Definition identity_fields : list string := ["identity_verified"].
Definition image_fields : list string := ["image_description"; "image_cid"].
Definition time_lock_fields : list string := ["time_lock_until"; "time_lock_type"].
Definition receiver_lock_fields : list string := ["allowed_address"].

(** The fields whose toggle is off in the privacy settings. *)
Definition disabled_fields (privacySettings : PrivacySettings) : list string :=
  (if tp_enabled (timeProof privacySettings) then [] else time_fields)
  ++ (if lp_enabled (locationProof privacySettings) then [] else location_fields)
  ++ (if dp_enabled (deviceProof privacySettings) then [] else device_fields)
  ++ (if ip_enabled (identityProof privacySettings) then [] else identity_fields)
  ++ (if ir_enabled (imageReveal privacySettings) then [] else image_fields)
  ++ (if tl_enabled (timeLock privacySettings) then [] else time_lock_fields)
  ++ (if rl_enabled (receiverLock privacySettings) then [] else receiver_lock_fields).

(** The keys of the circuit results and of the human-readable claims. *)
Definition circuit_result_keys : list string :=
  ["time_within_month"; "location_in_region"; "device_trusted";
   "photo_authentic"; "image_content_revealed"].
Definition readable_claim_keys : list string :=
  ["time_claim"; "location_claim"; "device_claim"; "authenticity_claim";
   "image_content_claim"].

(** The run of [generateZKProof] with only the location disclosed. *)
Definition proof_run_only_country : result () * World :=
  generateZKProof (Sample.env [] []) (Some Sample.a_photo) Sample.only_country
    (Sample.world ∅ "").

(** The circuit results and the human-readable claims, with their keys. *)
Definition circuit_results (f1 f2 f3 f4 f5 : option bool)
  : list (string * option bool) :=
  [("time_within_month", f1); ("location_in_region", f2); ("device_trusted", f3);
   ("photo_authentic", f4); ("image_content_revealed", f5)].

Definition readable_claims (claims : option Claims)
  : list (string * option string) :=
  match claims with
  | Some c =>
      [("time_claim", time_claim c); ("location_claim", location_claim c);
       ("device_claim", device_claim c);
       ("authenticity_claim", authenticity_claim c);
       ("image_content_claim", image_content_claim c)]
  | None => []
  end.

(** The toggles that are off, each with the key of its circuit result, the
    key of its human-readable claim and the sentence that [generateZKProof]
    words for it. *)
Definition off_toggles (privacySettings : PrivacySettings)
  : list (string * string * string) :=
  (if tp_enabled (timeProof privacySettings) then []
   else [("time_within_month", "time_claim", "Time not verified")])
  ++ (if lp_enabled (locationProof privacySettings) then []
      else [("location_in_region", "location_claim", "Location not verified")])
  ++ (if dp_enabled (deviceProof privacySettings) then []
      else [("device_trusted", "device_claim", "Device not verified")])
  ++ (if ip_enabled (identityProof privacySettings) then []
      else [("photo_authentic", "authenticity_claim", "Identity not verified")])
  ++ (if ir_enabled (imageReveal privacySettings) then []
      else [("image_content_revealed", "image_content_claim",
             "Image content private")]).

(** ** Claim revision *)

(** The capsule that [generateUpdatedCapsule] returns when the clock has
    been read [clock] times before. *)
Definition updated_capsule (env : Env) (photo : SavedPhoto)
    (revealedClaims : RevealedClaims) (selectedLevels : SelectedLevels)
    (clock : nat) : ZKCapsule :=
  let existingCapsule := zkCapsule photo in
  mkCapsule (capsule_id existingCapsule)
    (<["location_level" := sl_location selectedLevels]>
       (<["time_level" := sl_time selectedLevels]>
          (write_flags revealedClaims (public_claims existingCapsule))))
    (proof existingCapsule)
    (mkCapsuleMetadata
       (proof_scheme (metadata existingCapsule))
       (circuit_version (metadata existingCapsule))
       (image_hash (metadata existingCapsule))
       (verification_key (metadata existingCapsule))
       (md_ipfsCid (metadata existingCapsule))
       (md_ipfsUrl (metadata existingCapsule))
       None None
       (if Z.eqb (created_at (metadata existingCapsule)) 0
        then Date_now_at env clock
        else created_at (metadata existingCapsule))).

(** The key of the human-readable claim of a claim type, and its flag. *)
Definition claim_text_key (claimType : string) : option string :=
  if String.eqb claimType "time" then Some "time_claim"
  else if String.eqb claimType "location" then Some "location_claim"
  else if String.eqb claimType "device" then Some "device_claim"
  else if String.eqb claimType "authentic" then Some "authenticity_claim"
  else if String.eqb claimType "image" then Some "image_content_claim"
  else None.

Definition flag_keys (revealedClaims : RevealedClaims) : list (string * bool) :=
  [("time_within_month", r_time revealedClaims);
   ("location_in_region", r_location revealedClaims);
   ("device_trusted", r_device revealedClaims);
   ("photo_authentic", r_authentic revealedClaims);
   ("image_content_revealed", r_image revealedClaims)].

(** A photo whose time was hidden at creation, in a gallery whose store
    holds no vault at all; the user reveals the time and saves. *)
Definition hidden_time_photo : SavedPhoto :=
  mkSavedPhoto "1" 1700000000000 "file:///photo.jpg" None "iOS Camera" "abc123"
    None
    (mkCapsule "5a30c044"
       {[ "time_within_month" := "false"; "location_country" := "France" ]}
       Sample.a_proof
       (mkCapsuleMetadata "circom 2" "multiplier2_v1" "abc123" "vk"
          None None None None 1700000000000)).

Definition reveal_time_world : World :=
  mkWorld {[ gallery_key := "photos:1" ]} 0 0 [] [] (mkMakerScreen false None)
    (Sample.verify_screen "")
    (mkDetailsModal (mkRevealed true false false false false)
       (Some hidden_time_photo) false (mkLevels "month" "country") true []).

Definition reveal_time_run : result () * World :=
  saveChanges (Sample.env [] [("photos:1", [hidden_time_photo])])
    hidden_time_photo reveal_time_world.

(** ** The verifier *)

(** What [loadPrivateVault] returns for a capsule id on a store. *)
Definition stored_vault (env : Env) (store : gmap string string)
    (capsuleId : value) : value :=
  let key := vault_key (template_value env capsuleId) in
  if getItem_rejects env store key then VNull
  else match store !! key with
       | Some text =>
           if JS.nonempty text then default VNull (JSON_parse env text) else VNull
       | None => VNull
       end.

(** A vault entry is missing, or is an object with its [original_values]. *)
Definition well_formed_vault (vault : value) : Prop :=
  vault = VNull
  ∨ ∃ fields original_values,
      vault = VObject fields
      ∧ JV.assoc "original_values" fields = Some (VObject original_values).

(** The payload stored under [key] in the [original_values] of a vault, if
    there is one (and it is not empty). *)
Definition stored_payload (key : string) (vault : value) : value :=
  match vault with
  | VObject fields =>
      match JV.assoc "original_values" fields with
      | Some (VObject original_values) =>
          match JV.assoc key original_values with
          | Some data => if JV.truthy data then data else VNull
          | None => VNull
          end
      | _ => VNull
      end
  | _ => VNull
  end.

(** A run keeps the store. *)
Inductive keeps_store {A} (m : M A) : Prop :=
| Keeps : (∀ w, storage (m w).2 = storage w) → keeps_store m.

(** The two reasons with which [verifyProof] rejects an incomplete
    capsule. *)
Definition structure_error : string :=
  "Invalid capsule structure - missing required fields".
Definition metadata_error : string := "Invalid metadata structure".

(** One of the four required parts is missing from a parsed capsule. *)
Definition missing_top_level (fields : list (string * value)) : Prop :=
  JV.assoc "capsule_id" fields = None
  ∨ JV.assoc "public_claims" fields = None
  ∨ JV.assoc "proof" fields = None.

Definition missing_verification_key (fields : list (string * value)) : Prop :=
  ∃ metadata, JV.assoc "metadata" fields = Some (VObject metadata)
              ∧ JV.assoc "verification_key" metadata = None.

(** Sample capsules, as the verifier parses them. *)
Definition sample_proof_value : value :=
  VObject [("a", VArray [VString "1"; VString "2"; VString "1"]);
           ("b", VArray [VArray [VString "3"; VString "4"];
                         VArray [VString "5"; VString "6"]]);
           ("c", VArray [VString "7"; VString "8"; VString "1"]);
           ("protocol", VString "groth16"); ("curve", VString "bn128")].

Definition sample_metadata_value : list (string * value) :=
  [("proof_scheme", VString "circom 2");
   ("circuit_version", VString "multiplier2_v1");
   ("image_hash", VString "abc123");
   ("verification_key", VString "vk")].

Definition sample_capsule (claims : list (string * value)) : value :=
  VObject [("capsule_id", VString "5a30c044");
           ("public_claims", VObject claims);
           ("proof", sample_proof_value);
           ("metadata", VObject sample_metadata_value)].

(** The sample capsule without its [proof]. *)
Definition capsule_without_proof : list (string * value) :=
  [("capsule_id", VString "5a30c044");
   ("public_claims", VObject [("location_country", VString "France")]);
   ("metadata", VObject sample_metadata_value)].

(** A complete capsule whose [time_lock_until] is not a date. *)
Definition capsule_locked_until_never : value :=
  sample_capsule [("location_country", VString "France");
                  ("time_lock_until", VString "never");
                  ("time_lock_type", VString "content")].

(** A complete capsule locked until [T], and the vault of its maker. *)
Definition capsule_locked_until (T : Z) : value :=
  sample_capsule [("time_lock_until", VNumber T);
                  ("time_lock_type", VString "content")].

(** The capsule one second before and one second after its unlock time, on
    a host whose clock reads 1700000000000. *)
Definition locked_capsule : value := capsule_locked_until 1700000001000.
Definition unlocked_capsule : value := capsule_locked_until 1699999999000.

Definition sample_vault : value :=
  VObject [("capsule_id", VString "5a30c044");
           ("commitments", VObject [("time_lock_data", VString "1b2c3d")]);
           ("salts", VObject [("time_lock", VString "741852")]);
           ("original_values", VObject [("time_lock_data", VString "secret-X")])].

(** A host that parses the text of [v], and a world where that text has
    been entered on the verify screen. *)
Definition verifier_env (v : value) : Env :=
  Sample.env [(Sample.stringify v, v); (Sample.stringify sample_vault, sample_vault)] [].

Definition verifier_world (v : value) : World :=
  Sample.world {[ vault_key "5a30c044" := Sample.stringify sample_vault ]}
    (" " +:+ Sample.stringify v +:+ " ").

(** The run of [verifyProof] on the capsule locked until "never". *)
Definition verify_run_locked_until_never : result () * World :=
  verifyProof (verifier_env capsule_locked_until_never)
    (verifier_world capsule_locked_until_never).

(** A parsed capsule is structurally complete: a non-empty [capsule_id], a
    [public_claims] object, a proof whose [a], [b] and [c] are truthy, and
    metadata whose [verification_key], [proof_scheme] and [image_hash] are
    truthy. *)
Record complete_capsule (fields claims : list (string * value)) : Prop := {
  cc_capsule_id :
    ∃ capsule_id, JV.assoc "capsule_id" fields = Some (VString capsule_id)
                  ∧ JS.nonempty capsule_id = true;
  cc_public_claims : JV.assoc "public_claims" fields = Some (VObject claims);
  cc_proof :
    ∃ proof a b c,
      JV.assoc "proof" fields = Some (VObject proof)
      ∧ JV.assoc "a" proof = Some a ∧ JV.truthy a = true
      ∧ JV.assoc "b" proof = Some b ∧ JV.truthy b = true
      ∧ JV.assoc "c" proof = Some c ∧ JV.truthy c = true;
  cc_metadata :
    ∃ metadata verification_key proof_scheme image_hash,
      JV.assoc "metadata" fields = Some (VObject metadata)
      ∧ JV.assoc "verification_key" metadata = Some verification_key
      ∧ JV.truthy verification_key = true
      ∧ JV.assoc "proof_scheme" metadata = Some proof_scheme
      ∧ JV.truthy proof_scheme = true
      ∧ JV.assoc "image_hash" metadata = Some image_hash
      ∧ JV.truthy image_hash = true
}.

(** ** Vocabulary of the further properties *)

(** The polynomial hash with multiplier 31, over the integers. *)
Definition polynomial_hash (codes : list Z) : Z :=
  fold_left (λ h c, 31 * h + c) codes 0.

(** The salt under which the value of a vault key is committed. *)
Definition salt_key (key : string) : string :=
  if String.eqb key "time_lock_data" then "time_lock"
  else if String.eqb key "receiver_lock_data" then "receiver_lock"
  else key.

(** The opening of a commitment: the value hashed with the salt of its key. *)
Definition opened (salts : gmap string string) (key value : string) : string :=
  poseidonCommitment value (salt_of salts (salt_key key)).

(** The keys of [public_claims] whose value is not a field of the vault. *)
Definition unvaulted_keys : list string :=
  ["identity_verified"; "image_description"; "time_lock_until";
   "time_lock_type"; "allowed_address"].

(** Every commitment of [c] opens to the value of [o] under the same key,
    and [c] commits to nothing else. *)
Definition opens (salts c o : gmap string string) : Prop :=
  ∀ key, c !! key = opened salts key <$> o !! key.

(** The keys of the two locked payloads in the vault. *)
Definition payload_keys : list string := ["time_lock_data"; "receiver_lock_data"].

(** Every value of [m], apart from those under the unvaulted keys, is the
    value of [o] under the same key. *)
Definition discloses (m o : gmap string string) : Prop :=
  ∀ key value, m !! key = Some value → key ∉ unvaulted_keys →
               o !! key = Some value.

(** A lower-case hexadecimal digit, and the strings made of them. *)
Definition is_hex_digit (c : ascii) : bool :=
  let n := N_of_ascii c in
  ((48 <=? n) && (n <=? 57) || (97 <=? n) && (n <=? 102))%N.

Fixpoint all_hex (s : string) : bool :=
  match s with
  | EmptyString => true
  | String c s' => is_hex_digit c && all_hex s'
  end.

(** The last character of a string. *)
Fixpoint last_char (s : string) : option ascii :=
  match s with
  | EmptyString => None
  | String c EmptyString => Some c
  | String _ s' => last_char s'
  end.

(** The text of [formatTimeRemaining] for whole days, hours, minutes and
    seconds. *)
Definition remaining_text (days hours minutes seconds : Z) : string :=
  if Z.ltb 0 days then
    JS.toString days +:+ "d " +:+ JS.toString hours +:+ "h "
      +:+ JS.toString minutes +:+ "m"
  else if Z.ltb 0 hours then
    JS.toString hours +:+ "h " +:+ JS.toString minutes +:+ "m "
      +:+ JS.toString seconds +:+ "s"
  else if Z.ltb 0 minutes then
    JS.toString minutes +:+ "m " +:+ JS.toString seconds +:+ "s"
  else JS.toString seconds +:+ "s".

(** A text made of white space only. *)
Fixpoint all_spaces (s : string) : bool :=
  match s with
  | EmptyString => true
  | String c s' => JV.is_space c && all_spaces s'
  end.

(** The text parses to a JSON object. *)
Definition parses_to_object (env : Env) (text : string) : bool :=
  match JSON_parse env text with
  | Some (VObject _) => true
  | _ => false
  end.

(** The request to a URL fails, or is answered with an error status. *)
Definition fetch_fails (env : Env) (url : string) : bool :=
  match fetch env url with
  | Some response => negb (ok response)
  | None => true
  end.

(** A capsule locked to a wallet, the vault of its maker, and a host and a
    world in which the verifier finds that vault. *)
Definition wallet_locked_capsule : value :=
  sample_capsule [("allowed_address", VString "0xAbC")].

Definition wallet_vault : value :=
  VObject [("capsule_id", VString "5a30c044");
           ("commitments", VObject [("receiver_lock_data", VString "4e5f6a")]);
           ("salts", VObject [("receiver_lock", VString "963852")]);
           ("original_values", VObject [("receiver_lock_data", VString "secret-Y")])].

Definition wallet_env : Env :=
  Sample.env [(Sample.stringify wallet_vault, wallet_vault)] [].

Definition wallet_world : World :=
  Sample.world {[ vault_key "5a30c044" := Sample.stringify wallet_vault ]} "".

(** The state of the wallet lock after [checkWalletLockStatus] on the
    capsule above, and a world on that state. *)
Definition wallet_locked_state : WalletLockState :=
  mkWalletLockState true (VString "0xAbC") None (VString "secret-Y") VNull false.

Definition wallet_locked_world : World :=
  with_verify (λ s,
    mkVerifyScreen (proofData s) (verificationResult s) (isVerifying s)
      (parsedCapsule s) (showResultsModal s) (showFallingPhrases s)
      (timeLockState s) wallet_locked_state (isLoadingTime s)) wallet_world.

(** A sample of [toLowerCase], on the letters of hexadecimal addresses, and
    of the address of a wrong wallet. *)
Definition lower_ascii (c : ascii) : ascii :=
  let n := N_of_ascii c in
  if ((65 <=? n) && (n <=? 90))%N then ascii_of_N (n + 32) else c.

Fixpoint lower (s : string) : string :=
  match s with
  | EmptyString => EmptyString
  | String c s' => String (lower_ascii c) (lower s')
  end.

Definition sample_address (r : draw) : string := "0x" +:+ JS.toString (numer r).

(** A locked wallet state shows no content. *)
Definition shows_nothing_while_locked (s : WalletLockState) : Prop :=
  wls_isLocked s = true → decryptedContent s = VNull.

(** The five claim types of the editor, and the flag of each. *)
Definition claim_types : list string :=
  ["time"; "location"; "device"; "authentic"; "image"].

Definition flag_of (claimType : string) (r : RevealedClaims) : option (string * bool) :=
  if String.eqb claimType "time" then Some ("time_within_month", r_time r)
  else if String.eqb claimType "location" then Some ("location_in_region", r_location r)
  else if String.eqb claimType "device" then Some ("device_trusted", r_device r)
  else if String.eqb claimType "authentic" then Some ("photo_authentic", r_authentic r)
  else if String.eqb claimType "image" then Some ("image_content_revealed", r_image r)
  else None.

(** The photo that [saveChanges] writes back for the edited photo and the
    switches of the editor. *)
Definition saved_photo (r : RevealedClaims) (edited : SavedPhoto) : SavedPhoto :=
  with_public_claims (write_flags r (public_claims (zkCapsule edited))) edited.

(** The levels that the editor offers. *)
Definition editor_time_levels : list string :=
  ["year"; "month"; "week"; "day"; "exact"].
Definition editor_location_levels : list string :=
  ["continent"; "country"; "city"; "exact"].

(** A photo being edited: the time was hidden, the editor is open on it. *)
Definition editing_world : World :=
  mkWorld {[ gallery_key := "photos:1" ]} 0 0 [] [] (mkMakerScreen false None)
    (Sample.verify_screen "")
    (mkDetailsModal (mkRevealed false false false false false)
       (Some hidden_time_photo) false (mkLevels "month" "country") true []).

Definition editing_env : Env :=
  Sample.env [] [("photos:1", [hidden_time_photo])].

(** A photo taken in Paris, in the gallery. *)
Definition paris_photo : SavedPhoto :=
  mkSavedPhoto "1" 1700000000000 "file:///photo.jpg" (Some Sample.paris)
    "iOS Camera" "abc123" None (zkCapsule hidden_time_photo).

(** The two outcomes of [saveChanges] on an edited photo: the photo is
    written back to the gallery, in place of the first photo with its [id],
    with the switches of the editor as its flags, the parent is notified
    and the editor leaves the edit mode; or nothing is written and the
    editor stays as it was. *)
Definition save_outcome (env : Env) (w w' : World) (edited : SavedPhoto) : Prop :=
  let saved := saved_photo (revealedClaims (details w)) edited in
  (alerts w'
   = ("Success",
      "Photo claims have been updated and new capsule generated successfully")
       :: alerts w
   ∧ (∃ text allPhotos photoIndex found,
        storage w !! gallery_key = Some text
        ∧ JSON_parse_photos env text = Some allPhotos
        ∧ list_find (λ p, id p = id edited) allPhotos = Some (photoIndex, found)
        ∧ storage w'
          = <[gallery_key :=
                JSON_stringify_photos env (<[photoIndex := saved]> allPhotos)]>
              (storage w))
   ∧ details w'
     = mkDetailsModal (revealedClaims (details w)) (Some saved) false
         (selectedLevels (details w)) false (saved :: notified (details w)))
  ∨ (alerts w' = ("Error", "Failed to save changes") :: alerts w
     ∧ storage w' = storage w
     ∧ details w'
       = mkDetailsModal (revealedClaims (details w)) (Some edited) false
           (selectedLevels (details w)) (editMode (details w))
           (notified (details w))).

(** Settings that disclose the time at the level of the hour. *)
Definition hour_settings : PrivacySettings :=
  mkPrivacySettings (mkTimeProof true T_hour) (mkLocationProof false L_country)
    (mkDeviceProof false D_devicetype) (mkIdentityProof false)
    (mkImageReveal false I_none) (mkTimeLock false None "" Lock_content)
    (mkReceiverLock false "" "") (mkStorageOptions Storage_ipfs None).

(** The gallery that [savePhotoToGallery] reads in a store: empty when the
    key is missing or its text is empty, [None] when the text does not
    parse. *)
Definition stored_gallery (env : Env) (store : gmap string string)
  : option (list SavedPhoto) :=
  match store !! gallery_key with
  | Some text => if JS.nonempty text then JSON_parse_photos env text else Some []
  | None => Some []
  end.

(** What [savePhotoToGallery] leaves in the store for a photo. *)
Definition gallery_after (env : Env) (store : gmap string string)
    (photoData : SavedPhoto) : gmap string string :=
  if getItem_rejects env store gallery_key then store
  else match stored_gallery env store with
       | Some existingPhotos =>
           let text := JSON_stringify_photos env (photoData :: existingPhotos) in
           if setItem_rejects env store gallery_key text then store
           else <[gallery_key := text]> store
       | None => store
       end.

(** A host on which proof generation fails. *)
Definition env_without_prover : Env :=
  let e := Sample.env [] [] in
  mkEnv (Math_random_at e) (Date_now_at e) (setItem_rejects e) (getItem_rejects e)
    (Platform_OS e) (toISOString e) (toLocaleDateString e) (toLocaleMonthYear e)
    (getFullYear e) (toLocaleString e) (getHours e) (getDate e) (getDay e)
    (setDate e) (Number_toFixed6 e) (Number_toString e)
    (JSON_stringify_vault e) (JSON_stringify_metadata e)
    (JSON_stringify_photos e) (JSON_parse_photos e)
    (JSON_parse e) (new_Date e) (converts_positive e) (ToString e) (fetch e)
    (uploadToIPFS e) (getIPFSUrl e) (λ _ _, None).

(** A run shows no alert and leaves the screen of the maker. *)
Inductive quiet {A} (m : M A) : Prop :=
| Quiet : (∀ w, alerts (m w).2 = alerts w ∧ maker (m w).2 = maker w) → quiet m.

(** * Properties *)

Example hash_abc : generateSimpleHash "abc" = "17862".
Proof. reflexivity. Qed.

Example trim_example : JV.trim (" " +:+ "{ }" +:+ " ") = "{ }".
Proof. reflexivity. Qed.

Example sample_public_claims :
  generatePublicClaims (Sample.env [] []) Sample.a_photo Sample.only_country
  = {[ "location_country" := "France" ]}.
Proof. vm_compute. reflexivity. Qed.

(** ** The commitment builder *)

Lemma toInt32_idem z : JS.toInt32 (JS.toInt32 z) = JS.toInt32 z.
Proof.
  unfold JS.toInt32.
  replace ((z + 2 ^ 31) mod 2 ^ 32 - 2 ^ 31 + 2 ^ 31) with ((z + 2 ^ 31) mod 2 ^ 32) by lia.
  rewrite Z.mod_mod by lia. reflexivity.
Qed.

Lemma toInt32_range z : - 2 ^ 31 <= JS.toInt32 z < 2 ^ 31.
Proof.
  unfold JS.toInt32.
  pose proof (Z.mod_pos_bound (z + 2 ^ 31) (2 ^ 32)). lia.
Qed.

(** [hash & hash] only wraps the accumulator to 32 bits. *)
Lemma band_diag z : JS.band z z = JS.toInt32 z.
Proof. unfold JS.band. apply Z.land_diag. Qed.

Lemma hash_step_range h c : - 2 ^ 31 <= hash_step h c < 2 ^ 31.
Proof. unfold hash_step. rewrite band_diag. apply toInt32_range. Qed.

Lemma hash_codes_from_range codes h :
  - 2 ^ 31 <= h < 2 ^ 31 → - 2 ^ 31 <= fold_left hash_step codes h < 2 ^ 31.
Proof.
  revert h. induction codes as [|c codes IH]; intros h Hh; simpl; [exact Hh|].
  apply IH, hash_step_range.
Qed.

(** C8. The commitment builder is deterministic: two invocations of
    [poseidonCommitment] on identical (value, salt) inputs yield the
    identical output string.  The embedding takes nothing but its two
    arguments (no random source, clock or store), and its output is the
    hexadecimal rendering of the 32-bit hash of the concatenation. *)
Theorem poseidonCommitment_deterministic :
  ∀ value1 salt1 value2 salt2 : string,
    value1 = value2 → salt1 = salt2 →
    poseidonCommitment value1 salt1 = poseidonCommitment value2 salt2
    ∧ poseidonCommitment value1 salt1
      = JS.toString16 (Z.abs (hash_codes (JS.charCodes (value1 +:+ salt1))))
    ∧ Z.abs (hash_codes (JS.charCodes (value1 +:+ salt1))) <= 2 ^ 31.
Proof.
  intros value1 salt1 value2 salt2 -> ->. split; [reflexivity|]. split; [reflexivity|].
  pose proof (hash_codes_from_range (JS.charCodes (value2 +:+ salt2)) 0) as H.
  unfold hash_codes. lia.
Qed.

Lemma poseidonCommitment_deterministic_witness :
  poseidonCommitment "France" "123456" = poseidonCommitment "France" "123456"
  ∧ poseidonCommitment "France" "123456" = "f06225e".
Proof.
  destruct (poseidonCommitment_deterministic "France" "123456" "France" "123456"
              eq_refl eq_refl) as [H _].
  split; [exact H | vm_compute; reflexivity].
Defined.

(** ** The salt generator *)

Lemma floor_scaled_range r k :
  in_unit r → 0 < k → 0 <= floor_scaled r k < k.
Proof.
  intros [Hlo Hhi] Hk. unfold floor_scaled. split.
  - apply Z.div_pos; nia.
  - apply Z.div_lt_upper_bound; nia.
Qed.

Lemma digit_toString d :
  0 <= d < 10 → ∃ c, JS.toString d = String c "" ∧ JS.is_digit c = true.
Proof.
  intros Hd.
  assert (d = 0 ∨ d = 1 ∨ d = 2 ∨ d = 3 ∨ d = 4 ∨ d = 5 ∨ d = 6 ∨ d = 7
          ∨ d = 8 ∨ d = 9) as Hcases by lia.
  repeat (destruct Hcases as [-> | Hcases]); try subst d;
    eexists; split; reflexivity.
Qed.

Lemma all_digits_snoc s c :
  JS.all_digits s = true → JS.is_digit c = true →
  JS.all_digits (s +:+ String c "") = true.
Proof.
  intros Hs Hc. induction s as [|a s IH]; simpl in *.
  - rewrite Hc. reflexivity.
  - apply andb_prop in Hs as [Ha Hs]. rewrite Ha, IH by assumption. reflexivity.
Qed.

Lemma length_snoc s c : String.length (s +:+ String c "") = S (String.length s).
Proof. induction s as [|a s IH]; simpl; [reflexivity | now rewrite IH]. Qed.

Section SaltProofs.
Context (env : Env).
Hypothesis random_in_unit : ∀ i, in_unit (Math_random_at env i).

Lemma salt_loop_spec n : ∀ salt w,
  JS.all_digits salt = true →
  ∃ s w', salt_loop env n salt w = (Ok s, w')
          ∧ JS.all_digits s = true
          ∧ String.length s = (String.length salt + n)%nat.
Proof.
  induction n as [|n IH]; intros salt w Hsalt; simpl.
  - exists salt, w. unfold ret. rewrite Nat.add_0_r. auto.
  - unfold bind, Math_random. simpl.
    destruct (digit_toString (floor_scaled (Math_random_at env (rng_pos w)) 10))
      as (c & Hc & Hdigit).
    { apply floor_scaled_range; [apply random_in_unit | lia]. }
    rewrite Hc.
    destruct (IH (salt +:+ String c "") (with_rng w)) as (s & w' & Hrun & Hall & Hlen).
    { now apply all_digits_snoc. }
    exists s, w'. rewrite Hrun. split; [reflexivity|]. split; [exact Hall|].
    rewrite Hlen, length_snoc. lia.
Qed.

Lemma generateSalt_spec w :
  ∃ s w', generateSalt env w = (Ok s, w') ∧ is_salt s.
Proof.
  unfold generateSalt, bind, Math_random. simpl.
  pose proof (floor_scaled_range (Math_random_at env (rng_pos w)) 4
                (random_in_unit _) ltac:(lia)) as Hr.
  destruct (salt_loop_spec
              (Z.to_nat (6 + floor_scaled (Math_random_at env (rng_pos w)) 4))
              "" (with_rng w) eq_refl) as (s & w' & Hrun & Hall & Hlen).
  exists s, w'. split; [exact Hrun|]. split; [exact Hall|].
  rewrite Hlen. simpl. lia.
Qed.

Lemma salts_for_spec keys : ∀ acc w,
  (∀ k s, acc !! k = Some s → is_salt s) →
  ∃ salts w', salts_for env keys acc w = (Ok salts, w')
              ∧ (∀ k, k ∈ keys → is_Some (salts !! k))
              ∧ (∀ k, is_Some (acc !! k) → is_Some (salts !! k))
              ∧ (∀ k s, salts !! k = Some s → is_salt s).
Proof.
  induction keys as [|key keys IH]; intros acc w Hacc; simpl.
  - exists acc, w. unfold ret. split; [reflexivity|].
    split; [intros k Hk; inversion Hk|]. split; [auto | exact Hacc].
  - unfold bind.
    destruct (generateSalt_spec w) as (s & w1 & Hgen & Hs). rewrite Hgen.
    destruct (IH (<[key := s]> acc) w1) as (salts & w' & Hrun & Hkeys & Hmono & Hall).
    { intros k s' Hk. destruct (decide (key = k)) as [->|Hne].
      - rewrite lookup_insert_eq in Hk. congruence.
      - rewrite lookup_insert_ne in Hk by exact Hne. eauto. }
    exists salts, w'. split; [exact Hrun|]. split; [|split].
    + intros k Hk. apply elem_of_cons in Hk as [->|Hk]; [|auto].
      apply Hmono. rewrite lookup_insert_eq. eauto.
    + intros k Hk. apply Hmono. destruct (decide (key = k)) as [->|Hne].
      * rewrite lookup_insert_eq. eauto.
      * rewrite lookup_insert_ne by exact Hne. exact Hk.
    + exact Hall.
Qed.
End SaltProofs.

(** C9. Every salt produced by the salt generator of the capsule pipeline
    is a string of decimal digits whose length is 6, 7, 8 or 9: this holds
    of one call of [generateSalt] and of each of the fifteen entries of
    [generateAllSalts], both of which complete normally, provided the random
    source returns values in [0, 1). *)
Theorem salts_are_digit_strings :
  ∀ (env : Env) (w : World),
    (∀ i, in_unit (Math_random_at env i)) →
    (∃ s w', generateSalt env w = (Ok s, w') ∧ is_salt s)
    ∧ (∃ salts w', generateAllSalts env w = (Ok salts, w')
                   ∧ (∀ k, k ∈ salt_fields → is_Some (salts !! k))
                   ∧ (∀ k s, salts !! k = Some s → is_salt s)).
Proof.
  intros env w Hrandom. split.
  - apply generateSalt_spec, Hrandom.
  - destruct (salts_for_spec env Hrandom salt_fields ∅ w)
      as (salts & w' & Hrun & Hkeys & _ & Hall).
    { intros k s Hk. rewrite lookup_empty in Hk. discriminate. }
    exists salts, w'. auto.
Qed.

Lemma salts_are_digit_strings_witness :
  (∃ s w', generateSalt (Sample.env [] []) (Sample.world ∅ "") = (Ok s, w') ∧ is_salt s)
  ∧ (∃ salts w', generateAllSalts (Sample.env [] []) (Sample.world ∅ "") = (Ok salts, w')
                 ∧ (∀ k, k ∈ salt_fields → is_Some (salts !! k))
                 ∧ (∀ k s, salts !! k = Some s → is_salt s)).
Proof.
  apply (salts_are_digit_strings (Sample.env [] []) (Sample.world ∅ "")).
  intros i. unfold in_unit. simpl.
  apply Z.mod_pos_bound. lia.
Defined.

Example sample_salt :
  (generateSalt (Sample.env [] []) (Sample.world ∅ "")).1 = Ok "741852".
Proof. vm_compute. reflexivity. Qed.

(** ** The location claim deriver *)

Lemma or_else_falsy o dflt : JS.truthy o = false → JS.or_else o dflt = dflt.
Proof.
  destruct o as [s|]; simpl; [|reflexivity]. intros ->. reflexivity.
Qed.

(** C10. Location claim derivation does not throw on missing data: at every
    level, when the location is absent, and at the levels city, country and
    continent, when the field the level asks for is absent,
    [generateLocationClaim] returns normally, with a generic fallback
    string. *)
Theorem generateLocationClaim_missing_data :
  ∀ (env : Env) (location : option Location) (level fallback : string),
    missing_location_data location level fallback →
    generateLocationClaim env location level = Ok fallback.
Proof.
  intros env location level fallback H.
  destruct H as [level | loc H | loc H | loc H]; simpl;
    try rewrite (or_else_falsy _ _ H); reflexivity.
Qed.

Lemma generateLocationClaim_missing_data_witness :
  missing_location_data (Some Sample.paris) "continent" "In authorized continent"
  ∧ generateLocationClaim (Sample.env [] []) (Some Sample.paris) "continent"
    = Ok "In authorized continent".
Proof.
  assert (missing_location_data (Some Sample.paris) "continent"
            "In authorized continent") as H
    by (apply missing_continent; reflexivity).
  split; [exact H|].
  exact (generateLocationClaim_missing_data (Sample.env [] []) (Some Sample.paris)
           "continent" "In authorized continent" H).
Defined.

(** ** The capsule assembler *)

Lemma bind_ok {A B} (m : M A) (k : A → M B) w a w1 :
  m w = (Ok a, w1) → bind m k w = k a w1.
Proof. unfold bind. intros ->. reflexivity. Qed.

Lemma bind_throw {A B} (m : M A) (k : A → M B) w e w1 :
  m w = (Throw e, w1) → bind m k w = (Throw e, w1).
Proof. unfold bind. intros ->. reflexivity. Qed.

Section AssemblerProofs.
Context (env : Env).

Lemma salt_loop_total n : ∀ salt w,
  ∃ s w', salt_loop env n salt w = (Ok s, w')
          ∧ storage w' = storage w ∧ clock_pos w' = clock_pos w.
Proof.
  induction n as [|n IH]; intros salt w; simpl.
  - exists salt, w. repeat split.
  - unfold bind, Math_random.
    destruct (IH (salt +:+ JS.toString
                    (floor_scaled (Math_random_at env (rng_pos w)) 10))
                (with_rng w)) as (s & w' & Hrun & Hst).
    exists s, w'. split; [exact Hrun | exact Hst].
Qed.

Lemma generateSalt_total w :
  ∃ s w', generateSalt env w = (Ok s, w')
          ∧ storage w' = storage w ∧ clock_pos w' = clock_pos w.
Proof.
  unfold generateSalt, bind, Math_random.
  destruct (salt_loop_total
              (Z.to_nat (6 + floor_scaled (Math_random_at env (rng_pos w)) 4))
              "" (with_rng w)) as (s & w' & Hrun & Hst).
  exists s, w'. split; [exact Hrun | exact Hst].
Qed.

Lemma salts_for_total keys : ∀ acc w,
  ∃ salts w', salts_for env keys acc w = (Ok salts, w')
              ∧ storage w' = storage w ∧ clock_pos w' = clock_pos w.
Proof.
  induction keys as [|key keys IH]; intros acc w; simpl.
  - exists acc, w. repeat split.
  - destruct (generateSalt_total w) as (s & w1 & Hgen & Hst1 & Hck1).
    rewrite (bind_ok _ _ _ _ _ Hgen).
    destruct (IH (<[key := s]> acc) w1) as (salts & w' & Hrun & Hst & Hck).
    exists salts, w'. split; [exact Hrun | split; congruence].
Qed.

(** [storePrivateVault] completes normally whether the write succeeds or
    not. *)
Lemma storePrivateVault_spec capsuleId commitments salts originalValues w :
  ∃ w', storePrivateVault env capsuleId commitments salts originalValues w
        = (Ok (), w')
        ∧ storage w'
          = store_after env (storage w)
              (mkVault capsuleId commitments salts originalValues)
        ∧ clock_pos w' = clock_pos w.
Proof.
  unfold storePrivateVault, try_catch, bind, AsyncStorage_setItem, store_after.
  simpl.
  destruct (setItem_rejects env (storage w) (vault_key capsuleId)
              (JSON_stringify_vault env
                 (mkVault capsuleId commitments salts originalValues))).
  - eexists. repeat split.
  - eexists. repeat split.
Qed.

(** [generateZKCapsule] always returns the capsule; the store is left as
    [storePrivateVault] leaves it. *)
Lemma generateZKCapsule_spec metadata privacySettings circomProof verificationKey
    ipfsCid ipfsUrl currentTime metadataHash timeWithinMonth locationInRegion
    deviceTrusted photoAuthentic imageContentRevealed claims w :
  ∃ vault w',
    generateZKCapsule env metadata privacySettings circomProof verificationKey
      ipfsCid ipfsUrl currentTime metadataHash timeWithinMonth
      locationInRegion deviceTrusted photoAuthentic imageContentRevealed
      claims w
    = (Ok (assembled_capsule env metadata privacySettings circomProof
             verificationKey ipfsCid ipfsUrl currentTime timeWithinMonth
             locationInRegion deviceTrusted photoAuthentic
             imageContentRevealed claims (clock_pos w)), w')
    ∧ pv_capsule_id vault
      = generateSimpleHash
          (photoHash metadata +:+ JS.toString (Date_now_at env (clock_pos w)))
    ∧ original_values vault = generateOriginalValues env metadata privacySettings
    ∧ storage w' = store_after env (storage w) vault.
Proof.
  unfold generateZKCapsule.
  rewrite (bind_ok _ _ w (Date_now_at env (clock_pos w)) (with_clock w) eq_refl).
  destruct (salts_for_total salt_fields ∅ (with_clock w))
    as (salts & w1 & Hsalts & Hst1 & Hck1).
  fold (generateAllSalts env) in Hsalts.
  rewrite (bind_ok _ _ _ _ _ Hsalts).
  match goal with
  | |- context [storePrivateVault env ?c ?cm ?s ?o] =>
      destruct (storePrivateVault_spec c cm s o w1) as (w2 & Hstore & Hst2 & Hck2)
  end.
  rewrite (bind_ok _ _ _ _ _ Hstore).
  match type of Hst2 with _ = store_after _ _ ?v => exists v end.
  assert (clock_pos w2 = S (clock_pos w)) as Hck by (rewrite Hck2, Hck1; reflexivity).
  unfold assembled_capsule.
  destruct currentTime as [t|]; [destruct (Z.eqb t 0)|];
    unfold bind, Date_now, console_log, update, ret; simpl; rewrite ?Hck;
    (eexists; split; [reflexivity|]; simpl; repeat split;
     rewrite Hst2, Hst1; reflexivity).
Qed.
End AssemblerProofs.

(** C1, as the code has it.  Vault persistence is best effort:
    [generateZKCapsule] returns the capsule (the same capsule, a function of
    its arguments and of the clock only) whether the write of the Private
    Vault succeeds or not.  When the write succeeds the vault of this
    capsule is in the store under its key; when it fails,
    [storePrivateVault] catches and logs the error, the store is unchanged
    and nothing is propagated to the caller. *)
Theorem generateZKCapsule_vault_best_effort :
  ∀ (env : Env) metadata privacySettings circomProof verificationKey
    ipfsCid ipfsUrl currentTime metadataHash timeWithinMonth locationInRegion
    deviceTrusted photoAuthentic imageContentRevealed claims (w : World),
    let capsule :=
      assembled_capsule env metadata privacySettings circomProof
        verificationKey ipfsCid ipfsUrl currentTime timeWithinMonth
        locationInRegion deviceTrusted photoAuthentic imageContentRevealed
        claims (clock_pos w) in
    ∃ vault w',
      generateZKCapsule env metadata privacySettings circomProof verificationKey
        ipfsCid ipfsUrl currentTime metadataHash timeWithinMonth
        locationInRegion deviceTrusted photoAuthentic imageContentRevealed
        claims w = (Ok capsule, w')
      ∧ pv_capsule_id vault = capsule_id capsule
      ∧ storage w'
        = if setItem_rejects env (storage w) (vault_key (capsule_id capsule))
               (JSON_stringify_vault env vault)
          then storage w
          else <[vault_key (capsule_id capsule) := JSON_stringify_vault env vault]>
                 (storage w).
Proof.
  intros env metadata privacySettings circomProof verificationKey ipfsCid ipfsUrl
    currentTime metadataHash timeWithinMonth locationInRegion deviceTrusted
    photoAuthentic imageContentRevealed claims w capsule.
  destruct (generateZKCapsule_spec env metadata privacySettings circomProof
              verificationKey ipfsCid ipfsUrl currentTime metadataHash
              timeWithinMonth locationInRegion deviceTrusted photoAuthentic
              imageContentRevealed claims w) as (vault & w' & Hrun & Hid & _ & Hst).
  exists vault, w'. split; [exact Hrun|]. split; [exact Hid|].
  rewrite Hst. unfold store_after. subst capsule. simpl. rewrite Hid. reflexivity.
Qed.

(** C1 fails as stated.  On a host whose store rejects the write of every
    vault, [generateZKCapsule] still returns a capsule and no vault for it
    is in the store; and the whole of [generateZKProof] completes without an
    error alert, shows the capsule and saves the photo with its capsule to
    the gallery, with no vault in the store. *)
Lemma generateZKCapsule_without_vault :
  (∀ store capsuleId text,
     setItem_rejects (Sample.env_rejecting rejects_vaults) store
       (vault_key capsuleId) text = true)
  ∧ (∃ capsule,
       capsule_run_without_vault.1 = Ok capsule
       ∧ capsule_id capsule = "5a30c046"
       ∧ storage capsule_run_without_vault.2 !! vault_key "5a30c046" = None)
  ∧ (∃ capsule,
       proof_run_without_vault.1 = Ok ()
       ∧ generatedCapsule (maker proof_run_without_vault.2) = Some capsule
       ∧ capsule_id capsule = "5a30c044"
       ∧ storage proof_run_without_vault.2 !! vault_key "5a30c044" = None
       ∧ storage proof_run_without_vault.2 !! gallery_key = Some "photos:1"
       ∧ alerts proof_run_without_vault.2
         = [("IPFS Upload Warning",
             "Your photo could not be uploaded to IPFS. The proof will be generated without permanent storage.")]).
Proof.
  split; [|split].
  - intros store capsuleId text. simpl. unfold rejects_vaults, vault_key.
    destruct capsuleId; reflexivity.
  - eexists. repeat apply conj; vm_compute; reflexivity.
  - eexists. repeat apply conj; vm_compute; reflexivity.
Qed.

(** ** Absence means privacy *)

Ltac not_in_list :=
  let H := fresh in
  intros H;
  repeat (apply elem_of_cons in H as [H|H]; [discriminate H|]);
  inversion H.

Ltac lookup_other :=
  repeat match goal with
  | H : ?k ∉ _ :: _ |- _ => apply not_elem_of_cons in H as [? H]
  end;
  rewrite ?lookup_insert_ne by congruence.

Section Frames.
Context (env : Env).

Lemma set_if_truthy_frame key o (m : gmap string string) k :
  k ≠ key → set_if_truthy key o m !! k = m !! k.
Proof.
  intros Hne. unfold set_if_truthy.
  destruct o as [s|]; [destruct (JS.nonempty s)|]; try reflexivity.
  apply lookup_insert_ne. congruence.
Qed.

Lemma set_flag_frame key flag (m : gmap string string) k :
  k ≠ key → set_flag key flag m !! k = m !! k.
Proof.
  intros Hne. unfold set_flag. destruct flag; [|reflexivity].
  apply lookup_insert_ne. congruence.
Qed.

Lemma time_claims_frame metadata privacySettings m k :
  k ∉ time_fields → time_claims env metadata privacySettings m !! k = m !! k.
Proof.
  unfold time_fields, time_claims. intros Hk.
  destruct (tp_enabled _); [destruct (tp_level _)|]; lookup_other; reflexivity.
Qed.

Lemma location_claims_frame metadata privacySettings m k :
  k ∉ location_fields →
  location_claims env metadata privacySettings m !! k = m !! k.
Proof.
  unfold location_fields, location_claims. intros Hk.
  destruct (lp_enabled _); [|reflexivity].
  destruct (location metadata); [|reflexivity].
  destruct (lp_level _); lookup_other;
    rewrite ?set_if_truthy_frame by congruence; reflexivity.
Qed.

Lemma device_claims_frame metadata privacySettings m k :
  k ∉ device_fields → device_claims env metadata privacySettings m !! k = m !! k.
Proof.
  unfold device_fields, device_claims. intros Hk.
  destruct (dp_enabled _); [destruct (dp_level _)|]; lookup_other; reflexivity.
Qed.

Lemma identity_claims_frame privacySettings m k :
  k ∉ identity_fields → identity_claims privacySettings m !! k = m !! k.
Proof.
  unfold identity_fields, identity_claims. intros Hk.
  destruct (ip_enabled _); lookup_other; reflexivity.
Qed.

Lemma image_claims_frame metadata privacySettings m k :
  k ∉ image_fields → image_claims metadata privacySettings m !! k = m !! k.
Proof.
  unfold image_fields, image_claims. intros Hk.
  destruct (ir_enabled _); [destruct (ir_level _)|]; lookup_other;
    rewrite ?set_if_truthy_frame by congruence; reflexivity.
Qed.

Lemma time_lock_claims_frame privacySettings m k :
  k ∉ time_lock_fields → time_lock_claims env privacySettings m !! k = m !! k.
Proof.
  unfold time_lock_fields, time_lock_claims. intros Hk.
  destruct (tl_enabled _); [destruct (tl_unlockTime _)|]; lookup_other; reflexivity.
Qed.

Lemma receiver_lock_claims_frame privacySettings m k :
  k ∉ receiver_lock_fields → receiver_lock_claims privacySettings m !! k = m !! k.
Proof.
  unfold receiver_lock_fields, receiver_lock_claims. intros Hk.
  destruct (rl_enabled _ && _); lookup_other; reflexivity.
Qed.

Lemma add_circuit_results_frame f1 f2 f3 f4 f5 m k :
  k ∉ circuit_result_keys → add_circuit_results f1 f2 f3 f4 f5 m !! k = m !! k.
Proof.
  unfold circuit_result_keys, add_circuit_results. intros Hk.
  repeat match goal with
  | H : ?k ∉ _ :: _ |- _ => apply not_elem_of_cons in H as [? H]
  end.
  cbv zeta. rewrite !set_flag_frame by assumption. reflexivity.
Qed.

Lemma add_readable_claims_frame claims m k :
  k ∉ readable_claim_keys → add_readable_claims claims m !! k = m !! k.
Proof.
  unfold readable_claim_keys, add_readable_claims. intros Hk.
  repeat match goal with
  | H : ?k ∉ _ :: _ |- _ => apply not_elem_of_cons in H as [? H]
  end.
  destruct claims; [|reflexivity].
  cbv zeta. rewrite !set_if_truthy_frame by assumption. reflexivity.
Qed.

(** Each block writes nothing when its toggle is off. *)
Lemma time_claims_off metadata privacySettings m :
  tp_enabled (timeProof privacySettings) = false →
  time_claims env metadata privacySettings m = m.
Proof. unfold time_claims. intros ->. reflexivity. Qed.

Lemma location_claims_off metadata privacySettings m :
  lp_enabled (locationProof privacySettings) = false →
  location_claims env metadata privacySettings m = m.
Proof. unfold location_claims. intros ->. reflexivity. Qed.

Lemma device_claims_off metadata privacySettings m :
  dp_enabled (deviceProof privacySettings) = false →
  device_claims env metadata privacySettings m = m.
Proof. unfold device_claims. intros ->. reflexivity. Qed.

Lemma identity_claims_off privacySettings m :
  ip_enabled (identityProof privacySettings) = false →
  identity_claims privacySettings m = m.
Proof. unfold identity_claims. intros ->. reflexivity. Qed.

Lemma image_claims_off metadata privacySettings m :
  ir_enabled (imageReveal privacySettings) = false →
  image_claims metadata privacySettings m = m.
Proof. unfold image_claims. intros ->. reflexivity. Qed.

Lemma time_lock_claims_off privacySettings m :
  tl_enabled (timeLock privacySettings) = false →
  time_lock_claims env privacySettings m = m.
Proof. unfold time_lock_claims. intros ->. reflexivity. Qed.

Lemma receiver_lock_claims_off privacySettings m :
  rl_enabled (receiverLock privacySettings) = false →
  receiver_lock_claims privacySettings m = m.
Proof. unfold receiver_lock_claims. intros ->. reflexivity. Qed.

Lemma disabled_field_cases privacySettings field :
  field ∈ disabled_fields privacySettings →
  (tp_enabled (timeProof privacySettings) = false ∧ field ∈ time_fields)
  ∨ (lp_enabled (locationProof privacySettings) = false ∧ field ∈ location_fields)
  ∨ (dp_enabled (deviceProof privacySettings) = false ∧ field ∈ device_fields)
  ∨ (ip_enabled (identityProof privacySettings) = false ∧ field ∈ identity_fields)
  ∨ (ir_enabled (imageReveal privacySettings) = false ∧ field ∈ image_fields)
  ∨ (tl_enabled (timeLock privacySettings) = false ∧ field ∈ time_lock_fields)
  ∨ (rl_enabled (receiverLock privacySettings) = false
     ∧ field ∈ receiver_lock_fields).
Proof.
  unfold disabled_fields. rewrite !elem_of_app.
  destruct (tp_enabled _), (lp_enabled _), (dp_enabled _), (ip_enabled _),
    (ir_enabled _), (tl_enabled _), (rl_enabled _);
    rewrite ?elem_of_nil; tauto.
Qed.

Lemma assembled_claims_disabled metadata privacySettings f1 f2 f3 f4 f5 claims field :
  field ∈ disabled_fields privacySettings →
  add_readable_claims claims
    (add_circuit_results f1 f2 f3 f4 f5
       (generatePublicClaims env metadata privacySettings)) !! field = None.
Proof.
  intros Hfield. apply disabled_field_cases in Hfield.
  unfold generatePublicClaims. cbv zeta.
  destruct Hfield as [[Hoff Hin] | [[Hoff Hin] | [[Hoff Hin] | [[Hoff Hin]
    | [[Hoff Hin] | [[Hoff Hin] | [Hoff Hin]]]]]]];
    repeat (apply elem_of_cons in Hin as [-> | Hin]);
    try (inversion Hin; fail);
    rewrite ?(time_claims_off _ _ _ Hoff), ?(location_claims_off _ _ _ Hoff),
      ?(device_claims_off _ _ _ Hoff), ?(identity_claims_off _ _ Hoff),
      ?(image_claims_off _ _ _ Hoff), ?(time_lock_claims_off _ _ Hoff),
      ?(receiver_lock_claims_off _ _ Hoff);
    rewrite add_readable_claims_frame by not_in_list;
    rewrite add_circuit_results_frame by not_in_list;
    rewrite ?receiver_lock_claims_frame by not_in_list;
    rewrite ?time_lock_claims_frame by not_in_list;
    rewrite ?image_claims_frame by not_in_list;
    rewrite ?identity_claims_frame by not_in_list;
    rewrite ?device_claims_frame by not_in_list;
    rewrite ?location_claims_frame by not_in_list;
    rewrite ?time_claims_frame by not_in_list;
    apply lookup_empty.
Qed.

Lemma set_flag_written key b (m : gmap string string) :
  set_flag key (Some b) m !! key = Some (bool_toString b).
Proof. apply lookup_insert_eq. Qed.

Lemma set_if_truthy_written key text (m : gmap string string) :
  JS.nonempty text = true → set_if_truthy key (Some text) m !! key = Some text.
Proof. unfold set_if_truthy. intros ->. apply lookup_insert_eq. Qed.

Lemma add_circuit_results_written f1 f2 f3 f4 f5 m key b :
  (key, Some b) ∈ circuit_results f1 f2 f3 f4 f5 →
  add_circuit_results f1 f2 f3 f4 f5 m !! key = Some (bool_toString b).
Proof.
  unfold circuit_results, add_circuit_results. intros Hin. cbv zeta.
  repeat (apply elem_of_cons in Hin as [Heq | Hin];
          [injection Heq as -> <-;
           rewrite ?set_flag_frame by discriminate; apply set_flag_written|]).
  inversion Hin.
Qed.

Lemma add_readable_claims_written claims m key text :
  (key, Some text) ∈ readable_claims claims → JS.nonempty text = true →
  add_readable_claims claims m !! key = Some text.
Proof.
  unfold readable_claims, add_readable_claims. intros Hin Htext.
  destruct claims as [c|]; [|inversion Hin]. cbv zeta.
  repeat (apply elem_of_cons in Hin as [Heq | Hin];
          [injection Heq as -> Heq; rewrite <- Heq;
           rewrite ?set_if_truthy_frame by discriminate;
           apply set_if_truthy_written, Htext|]).
  inversion Hin.
Qed.
End Frames.

(** ** Runs that show no alert *)

Lemma quiet_run {A} (m : M A) w :
  quiet m → alerts (m w).2 = alerts w ∧ maker (m w).2 = maker w.
Proof. intros [H]. apply H. Qed.

Lemma quiet_ret {A} (a : A) : quiet (ret a).
Proof. constructor. intros w. split; reflexivity. Qed.

Lemma quiet_throw {A} e : quiet (@throw A e).
Proof. constructor. intros w. split; reflexivity. Qed.

Lemma quiet_bind {A B} (m : M A) (k : A → M B) :
  quiet m → (∀ a, quiet (k a)) → quiet (bind m k).
Proof.
  intros [Hm] Hk. constructor. intros w. unfold bind. specialize (Hm w).
  destruct (m w) as [[a|e] w1]; simpl in *; [|exact Hm].
  destruct (quiet_run _ w1 (Hk a)) as [H1 H2]. destruct Hm as [H3 H4].
  split; congruence.
Qed.

Lemma quiet_try_catch {A} (m : M A) (h : exn → M A) :
  quiet m → (∀ e, quiet (h e)) → quiet (try_catch m h).
Proof.
  intros [Hm] Hh. constructor. intros w. unfold try_catch. specialize (Hm w).
  destruct (m w) as [[a|e] w1]; simpl in *; [exact Hm|].
  destruct (quiet_run _ w1 (Hh e)) as [H1 H2]. destruct Hm as [H3 H4].
  split; congruence.
Qed.

Lemma quiet_update f :
  (∀ w, alerts (f w) = alerts w ∧ maker (f w) = maker w) → quiet (update f).
Proof. intros Hf. constructor. intros w. apply Hf. Qed.

Ltac quiet_parts part :=
  repeat first
    [ part
    | apply quiet_ret | apply quiet_throw
    | apply quiet_update; intros ?; split; reflexivity
    | apply quiet_bind; [|intros ?]
    | apply quiet_try_catch; [|intros ?]
    | match goal with
      | |- quiet (if ?b then _ else _) => destruct b
      | |- quiet (match ?x with _ => _ end) => destruct x
      end ].

Section QuietProofs.
Context (env : Env).

Lemma quiet_Math_random : quiet (Math_random env).
Proof. constructor. intros w. split; reflexivity. Qed.

Lemma quiet_Date_now : quiet (Date_now env).
Proof. constructor. intros w. split; reflexivity. Qed.

Lemma quiet_setItem key value : quiet (AsyncStorage_setItem env key value).
Proof.
  constructor. intros w. unfold AsyncStorage_setItem.
  destruct (setItem_rejects env (storage w) key value); split; reflexivity.
Qed.

Lemma quiet_console_log line : quiet (console_log line).
Proof. unfold console_log. quiet_parts fail. Qed.

Lemma quiet_console_error line e : quiet (console_error line e).
Proof. unfold console_error. quiet_parts fail. Qed.

Ltac quiet_leaf :=
  first [ apply quiet_Math_random | apply quiet_Date_now | apply quiet_setItem
        | apply quiet_console_log | apply quiet_console_error ].

Lemma quiet_salt_loop n : ∀ salt, quiet (salt_loop env n salt).
Proof.
  induction n as [|n IH]; intros salt; simpl; quiet_parts ltac:(first [quiet_leaf | apply IH]).
Qed.

Lemma quiet_generateSalt : quiet (generateSalt env).
Proof.
  unfold generateSalt. quiet_parts ltac:(first [quiet_leaf | apply quiet_salt_loop]).
Qed.

Lemma quiet_salts_for keys : ∀ acc, quiet (salts_for env keys acc).
Proof.
  induction keys as [|key keys IH]; intros acc; simpl;
    quiet_parts ltac:(first [apply quiet_generateSalt | apply IH]).
Qed.

Lemma quiet_storePrivateVault capsuleId commitments salts originalValues :
  quiet (storePrivateVault env capsuleId commitments salts originalValues).
Proof. unfold storePrivateVault. quiet_parts quiet_leaf. Qed.

Lemma quiet_generateZKCapsule metadata privacySettings circomProof verificationKey
    ipfsCid ipfsUrl currentTime metadataHash timeWithinMonth locationInRegion
    deviceTrusted photoAuthentic imageContentRevealed claims :
  quiet (generateZKCapsule env metadata privacySettings circomProof
           verificationKey ipfsCid ipfsUrl currentTime metadataHash
           timeWithinMonth locationInRegion deviceTrusted photoAuthentic
           imageContentRevealed claims).
Proof.
  unfold generateZKCapsule, generateAllSalts.
  quiet_parts ltac:(first [ quiet_leaf | apply quiet_salts_for
                          | apply quiet_storePrivateVault ]).
Qed.
End QuietProofs.

(** ** The maker: what a run shows *)

Section MakerProofs.
Context (env : Env).

Lemma savePhotoToGallery_spec metadata capsule photoUri w :
  ∃ w',
    savePhotoToGallery env metadata capsule photoUri w = (Ok (), w')
    ∧ storage w'
      = gallery_after env (storage w)
          (mkSavedPhoto (JS.toString (Date_now_at env (clock_pos w)))
             (timestamp metadata) photoUri (location metadata)
             (deviceInfo metadata) (photoHash metadata) (ipfsCid metadata)
             capsule)
    ∧ alerts w' = alerts w
    ∧ maker w' = maker w.
Proof.
  unfold savePhotoToGallery, gallery_after, stored_gallery, try_catch, bind,
    Date_now, AsyncStorage_getItem, AsyncStorage_setItem, console_log,
    console_error, update, ret, throw. simpl.
  destruct (getItem_rejects env (storage w) gallery_key);
    [eexists; repeat split|].
  destruct (storage w !! gallery_key) as [text|]; simpl.
  - destruct (JS.nonempty text).
    + destruct (JSON_parse_photos env text) as [existingPhotos|]; simpl;
        [|eexists; repeat split].
      destruct (setItem_rejects env (storage w) gallery_key _);
        eexists; repeat split.
    + simpl. destruct (setItem_rejects env (storage w) gallery_key _);
        eexists; repeat split.
  - destruct (setItem_rejects env (storage w) gallery_key _);
      eexists; repeat split.
Qed.
End MakerProofs.

Section PlaceholderProofs.
Context (env : Env).

Lemma or_else_nonempty o dflt :
  JS.nonempty dflt = true → JS.nonempty (JS.or_else o dflt) = true.
Proof. intros H. destruct o as [[|c s]|]; simpl; auto. Qed.

Lemma generateTimeClaim_nonempty timestamp level :
  JS.nonempty (generateTimeClaim env timestamp level) = true.
Proof.
  unfold generateTimeClaim. cbv zeta.
  repeat (destruct (String.eqb level _); [reflexivity|]). reflexivity.
Qed.

Lemma generateLocationClaim_nonempty location level text :
  generateLocationClaim env location level = Ok text → JS.nonempty text = true.
Proof.
  unfold generateLocationClaim. destruct location as [loc|];
    [|intros Heq; injection Heq as <-; reflexivity].
  destruct (String.eqb level "exact").
  { destruct (toFixed6 env (latitude loc)); [|discriminate].
    destruct (toFixed6 env (longitude loc)); [|discriminate].
    intros Heq. injection Heq as <-. reflexivity. }
  repeat (destruct (String.eqb level _);
          [intros Heq; injection Heq as <-; apply or_else_nonempty; reflexivity|]).
  intros Heq. injection Heq as <-. destruct (JS.truthy (country loc)); reflexivity.
Qed.

Lemma generateDeviceClaim_nonempty deviceInfo level :
  JS.nonempty (generateDeviceClaim deviceInfo level) = true.
Proof.
  unfold generateDeviceClaim.
  repeat (destruct (String.eqb level _); [reflexivity|]). reflexivity.
Qed.

Lemma generateImageContentClaim_nonempty level ipfsCid :
  JS.nonempty (generateImageContentClaim level ipfsCid) = true.
Proof.
  unfold generateImageContentClaim.
  repeat (destruct (String.eqb level _);
          [try reflexivity; destruct (JS.truthy ipfsCid); reflexivity|]).
  reflexivity.
Qed.

(** What the public claims of a capsule of [generateZKProof] hold: the
    claims that [generateZKCapsule] assembles from the circuit results
    [f1] .. [f5] and the claim sentences [claims] that [generateZKProof]
    derives from the toggles. *)
Lemma proof_claims_written metadata privacySettings f1 f2 f3 f4 f5
    time_text location_text device_text identity_text image_text :
  let public_claims :=
    add_readable_claims
      (Some (mkClaims (Some time_text) (Some location_text) (Some device_text)
               (Some identity_text) (Some image_text)))
      (add_circuit_results (Some f1) (Some f2) (Some f3) (Some f4) (Some f5)
         (generatePublicClaims env metadata privacySettings)) in
  JS.nonempty time_text = true → JS.nonempty location_text = true →
  JS.nonempty device_text = true → JS.nonempty identity_text = true →
  JS.nonempty image_text = true →
  (tp_enabled (timeProof privacySettings) = false →
   f1 = false ∧ time_text = "Time not verified") →
  (lp_enabled (locationProof privacySettings) = false →
   f2 = false ∧ location_text = "Location not verified") →
  (dp_enabled (deviceProof privacySettings) = false →
   f3 = false ∧ device_text = "Device not verified") →
  (ip_enabled (identityProof privacySettings) = false →
   f4 = false ∧ identity_text = "Identity not verified") →
  (ir_enabled (imageReveal privacySettings) = false →
   f5 = false ∧ image_text = "Image content private") →
  (∀ field, field ∈ disabled_fields privacySettings →
            public_claims !! field = None)
  ∧ (∀ key, key ∈ circuit_result_keys →
            ∃ b, public_claims !! key = Some (bool_toString b))
  ∧ (∀ key, key ∈ readable_claim_keys →
            ∃ text, JS.nonempty text = true ∧ public_claims !! key = Some text)
  ∧ (∀ flag claim sentence,
       (flag, claim, sentence) ∈ off_toggles privacySettings →
       public_claims !! flag = Some "false"
       ∧ public_claims !! claim = Some sentence).
Proof.
  intros public_claims Htime Hlocation Hdevice Hidentity Himage
    Htp Hlp Hdp Hip Hir. subst public_claims.
  assert (∀ key b,
            (key, Some b) ∈ circuit_results (Some f1) (Some f2) (Some f3)
                              (Some f4) (Some f5) →
            add_readable_claims
              (Some (mkClaims (Some time_text) (Some location_text)
                       (Some device_text) (Some identity_text) (Some image_text)))
              (add_circuit_results (Some f1) (Some f2) (Some f3) (Some f4)
                 (Some f5) (generatePublicClaims env metadata privacySettings))
              !! key = Some (bool_toString b)) as Hflag.
  { intros key b Hin. rewrite add_readable_claims_frame.
    - apply add_circuit_results_written, Hin.
    - unfold circuit_results in Hin.
      repeat (apply elem_of_cons in Hin as [Heq | Hin];
              [injection Heq as -> _; not_in_list|]).
      inversion Hin. }
  assert (∀ key text,
            (key, Some text)
            ∈ readable_claims
                (Some (mkClaims (Some time_text) (Some location_text)
                         (Some device_text) (Some identity_text)
                         (Some image_text))) →
            JS.nonempty text = true →
            add_readable_claims
              (Some (mkClaims (Some time_text) (Some location_text)
                       (Some device_text) (Some identity_text) (Some image_text)))
              (add_circuit_results (Some f1) (Some f2) (Some f3) (Some f4)
                 (Some f5) (generatePublicClaims env metadata privacySettings))
              !! key = Some text) as Hclaim.
  { intros key text Hin Htext. apply add_readable_claims_written; assumption. }
  split; [|split; [|split]].
  - intros field Hfield. apply assembled_claims_disabled, Hfield.
  - unfold circuit_result_keys. intros key Hkey.
    repeat (apply elem_of_cons in Hkey as [-> | Hkey];
            [eexists; apply Hflag; unfold circuit_results;
             first [ apply list_elem_of_here
                   | do 1 apply list_elem_of_further; apply list_elem_of_here
                   | do 2 apply list_elem_of_further; apply list_elem_of_here
                   | do 3 apply list_elem_of_further; apply list_elem_of_here
                   | do 4 apply list_elem_of_further; apply list_elem_of_here ]|]).
    inversion Hkey.
  - unfold readable_claim_keys. intros key Hkey.
    repeat (apply elem_of_cons in Hkey as [-> | Hkey];
            [eexists; split;
             [|apply Hclaim;
               [unfold readable_claims;
                first [ apply list_elem_of_here
                      | do 1 apply list_elem_of_further; apply list_elem_of_here
                      | do 2 apply list_elem_of_further; apply list_elem_of_here
                      | do 3 apply list_elem_of_further; apply list_elem_of_here
                      | do 4 apply list_elem_of_further; apply list_elem_of_here ]
               | assumption]]; assumption|]).
    inversion Hkey.
  - unfold off_toggles. intros flag claim sentence Hin.
    rewrite !elem_of_app in Hin.
    destruct Hin as [Hin | [Hin | [Hin | [Hin | Hin]]]].
    + destruct (tp_enabled (timeProof privacySettings)); [inversion Hin|].
      apply list_elem_of_singleton in Hin. injection Hin as -> -> ->.
      destruct (Htp eq_refl) as [-> ->]. split.
      * apply (Hflag _ false). unfold circuit_results. apply list_elem_of_here.
      * apply Hclaim; [|reflexivity]. unfold readable_claims.
        apply list_elem_of_here.
    + destruct (lp_enabled (locationProof privacySettings)); [inversion Hin|].
      apply list_elem_of_singleton in Hin. injection Hin as -> -> ->.
      destruct (Hlp eq_refl) as [-> ->]. split.
      * apply (Hflag _ false). unfold circuit_results.
        do 1 apply list_elem_of_further. apply list_elem_of_here.
      * apply Hclaim; [|reflexivity]. unfold readable_claims.
        do 1 apply list_elem_of_further. apply list_elem_of_here.
    + destruct (dp_enabled (deviceProof privacySettings)); [inversion Hin|].
      apply list_elem_of_singleton in Hin. injection Hin as -> -> ->.
      destruct (Hdp eq_refl) as [-> ->]. split.
      * apply (Hflag _ false). unfold circuit_results.
        do 2 apply list_elem_of_further. apply list_elem_of_here.
      * apply Hclaim; [|reflexivity]. unfold readable_claims.
        do 2 apply list_elem_of_further. apply list_elem_of_here.
    + destruct (ip_enabled (identityProof privacySettings)); [inversion Hin|].
      apply list_elem_of_singleton in Hin. injection Hin as -> -> ->.
      destruct (Hip eq_refl) as [-> ->]. split.
      * apply (Hflag _ false). unfold circuit_results.
        do 3 apply list_elem_of_further. apply list_elem_of_here.
      * apply Hclaim; [|reflexivity]. unfold readable_claims.
        do 3 apply list_elem_of_further. apply list_elem_of_here.
    + destruct (ir_enabled (imageReveal privacySettings)); [inversion Hin|].
      apply list_elem_of_singleton in Hin. injection Hin as -> -> ->.
      destruct (Hir eq_refl) as [-> ->]. split.
      * apply (Hflag _ false). unfold circuit_results.
        do 4 apply list_elem_of_further. apply list_elem_of_here.
      * apply Hclaim; [|reflexivity]. unfold readable_claims.
        do 4 apply list_elem_of_further. apply list_elem_of_here.
Qed.
End PlaceholderProofs.

Section ProofRunProofs.
Context (env : Env).

(** Every run of [generateZKProof] on a photo either shows no capsule and
    raises the "Error" alert, or shows a capsule whose public claims are
    those that [generateZKCapsule] assembles from the circuit results and
    the claim sentences derived from the toggles. *)
Lemma generateZKProof_claims metadata privacySettings w :
  ∃ w',
    generateZKProof env (Some metadata) privacySettings w = (Ok (), w')
    ∧ ((generatedCapsule (maker w') = generatedCapsule (maker w)
        ∧ ∃ message,
            hd_error (alerts w')
            = Some ("Error", "Failed to generate proof: " +:+ message))
       ∨ ∃ capsule,
           generatedCapsule (maker w') = Some capsule
           ∧ (∀ field, field ∈ disabled_fields privacySettings →
                       public_claims capsule !! field = None)
           ∧ (∀ key, key ∈ circuit_result_keys →
                     ∃ b, public_claims capsule !! key = Some (bool_toString b))
           ∧ (∀ key, key ∈ readable_claim_keys →
                     ∃ text, JS.nonempty text = true
                             ∧ public_claims capsule !! key = Some text)
           ∧ (∀ flag claim sentence,
                (flag, claim, sentence) ∈ off_toggles privacySettings →
                public_claims capsule !! flag = Some "false"
                ∧ public_claims capsule !! claim = Some sentence)).
Proof.
  unfold generateZKProof.
  unfold bind at 1, setIsGeneratingProof at 1, update at 1. cbv beta iota.
  unfold finally, try_catch at 1.
  (* the upload *)
  match goal with
  | |- context [bind ?U _ ?w0] =>
      assert (∃ r w1, U w0 = (Ok r, w1)
                      ∧ maker w1 = mkMakerScreen true (generatedCapsule (maker w)))
        as ([[ipfsCid ipfsUrl] metadata_ipfsCid] & w1 & Hupload & Hmk1)
  end.
  { destruct (truthy_string (md_photoUri metadata)) as [uri|];
      [|eexists _, _; split; reflexivity].
    unfold try_catch, bind, console_error, Alert_alert, update, ret, throw.
    destruct (uploadToIPFS env uri) as [cid|]; [destruct (JS.nonempty cid)|];
      simpl; eexists _, _; split; reflexivity. }
  rewrite (bind_ok _ _ _ _ _ Hupload). cbv beta iota zeta.
  rewrite (bind_ok _ _ w1 (Date_now_at env (clock_pos w1)) (with_clock w1) eq_refl).
  (* the location claim *)
  match goal with
  | |- context [bind ?L _ (with_clock w1)] =>
      assert (∃ r, L (with_clock w1) = (r, with_clock w1)
                   ∧ ∀ text, r = Ok text →
                             JS.nonempty text = true
                             ∧ (lp_enabled (locationProof privacySettings) = false →
                                text = "Location not verified"))
        as (claim & Hclaim & Htext)
  end.
  { destruct (lp_enabled (locationProof privacySettings)).
    - cbn [location]. destruct (location metadata) as [loc|].
      + eexists. split; [reflexivity|]. intros text Heq.
        split; [|discriminate].
        eapply generateLocationClaim_nonempty, Heq.
      + eexists. split; [reflexivity|]. intros text Heq.
        injection Heq as <-. split; [reflexivity | discriminate].
    - eexists. split; [reflexivity|]. intros text Heq.
      injection Heq as <-. split; reflexivity. }
  destruct claim as [location_text|e].
  2: { rewrite (bind_throw _ _ _ _ _ Hclaim).
       unfold bind, console_error, Alert_alert, update, setIsGeneratingProof.
       simpl. eexists. split; [reflexivity|]. left. simpl. rewrite Hmk1.
       split; [reflexivity | eexists; reflexivity]. }
  rewrite (bind_ok _ _ _ _ _ Hclaim). cbv beta iota zeta.
  destruct (Htext location_text eq_refl) as [Hlocation Hnolocation].
  (* the prover *)
  match goal with
  | |- context [generateCircomProof env ?a ?b] =>
      destruct (generateCircomProof env a b) as [circomProof|]
  end.
  2: { cbv iota.
       rewrite (bind_throw (throw _) _ (with_clock w1) _ (with_clock w1) eq_refl).
       unfold bind, console_error, Alert_alert, update, setIsGeneratingProof.
       simpl. eexists. split; [reflexivity|]. left. simpl. rewrite Hmk1.
       split; [reflexivity | eexists; reflexivity]. }
  cbv iota.
  rewrite (bind_ok (ret circomProof) _ (with_clock w1) circomProof (with_clock w1)
             eq_refl).
  rewrite (bind_ok _ _ (with_clock w1)
             (Date_now_at env (clock_pos (with_clock w1)))
             (with_clock (with_clock w1)) eq_refl).
  (* the capsule *)
  match goal with
  | |- context [bind (generateZKCapsule env ?md ?ps ?p ?vk ?c ?u ?t ?h ?f1 ?f2 ?f3
                        ?f4 ?f5 ?cl) _ ?w0] =>
      destruct (generateZKCapsule_spec env md ps p vk c u t h f1 f2 f3 f4 f5 cl w0)
        as (vault & w2 & Hcapsule & _);
      destruct (quiet_run _ w0
                  (quiet_generateZKCapsule env md ps p vk c u t h f1 f2 f3 f4 f5 cl))
        as [_ Hmk2]
  end.
  rewrite Hcapsule in Hmk2. simpl in Hmk2.
  rewrite (bind_ok _ _ _ _ _ Hcapsule).
  unfold bind at 1, setGeneratedCapsule at 1, update at 1. cbv beta iota.
  unfold bind at 1, console_log at 1, update at 1. cbv beta iota.
  cbn [md_photoUri].
  destruct (truthy_string (md_photoUri metadata)) as [uri|];
    [ match goal with
      | |- context [bind (savePhotoToGallery env ?md ?c ?u) _ ?w0] =>
          destruct (savePhotoToGallery_spec env md c u w0)
            as (w3 & Hgallery & _ & _ & Hmk3)
      end;
      rewrite (bind_ok _ _ _ _ _ Hgallery)
    | ];
    unfold console_log, setIsGeneratingProof, update, ret; simpl;
    (eexists; split; [reflexivity|]); right; simpl; rewrite ?Hmk3; simpl;
    (eexists; split; [reflexivity|]);
    unfold assembled_capsule; cbn [public_claims];
    (apply proof_claims_written;
     [ destruct (tp_enabled (timeProof privacySettings));
         [apply generateTimeClaim_nonempty | reflexivity]
     | exact Hlocation
     | destruct (dp_enabled (deviceProof privacySettings));
         [apply generateDeviceClaim_nonempty | reflexivity]
     | destruct (ip_enabled (identityProof privacySettings)); reflexivity
     | destruct (ir_enabled (imageReveal privacySettings));
         [apply generateImageContentClaim_nonempty | reflexivity]
     | intros ->; split; reflexivity
     | intros Hoff; rewrite Hoff; split; [reflexivity | apply Hnolocation, Hoff]
     | intros ->; split; reflexivity
     | intros ->; split; reflexivity
     | intros ->; split; reflexivity ]).
Qed.
End ProofRunProofs.

(** C2, as the code has it.  [generateZKCapsule] returns a capsule in which
    - every raw field of a toggle that is off is absent from
      [public_claims]: the [date_*] keys for time, the [location_*] keys for
      location, [device_type], [device_platform] and [device_info] for the
      device, [identity_verified], [image_description] and [image_cid],
      [time_lock_until] and [time_lock_type], and [allowed_address];
    - the circuit results and the human-readable claims that the caller
      passes are written under their own keys whatever the toggles are.
    And [generateZKProof], its caller, passes all ten of them: every run of
    it on a photo completes normally, and either raises the "Error" alert
    and shows no capsule, or shows a capsule in which the raw fields of the
    toggles that are off are absent, the five circuit results are present
    as "true" or "false", the five human-readable claims are present and
    not empty, and every toggle that is off has the circuit result "false"
    and its placeholder sentence ("Time not verified", "Location not
    verified", "Device not verified", "Identity not verified", "Image
    content private"). *)
Theorem disabled_fields_absent :
  ∀ (env : Env) metadata privacySettings circomProof verificationKey
    ipfsCid ipfsUrl currentTime metadataHash timeWithinMonth locationInRegion
    deviceTrusted photoAuthentic imageContentRevealed claims (w : World),
    (∃ capsule w',
       generateZKCapsule env metadata privacySettings circomProof verificationKey
         ipfsCid ipfsUrl currentTime metadataHash timeWithinMonth
         locationInRegion deviceTrusted photoAuthentic imageContentRevealed
         claims w = (Ok capsule, w')
       ∧ (∀ field, field ∈ disabled_fields privacySettings →
                   public_claims capsule !! field = None)
       ∧ (∀ key b,
            (key, Some b) ∈ circuit_results timeWithinMonth locationInRegion
                              deviceTrusted photoAuthentic imageContentRevealed →
            public_claims capsule !! key = Some (bool_toString b))
       ∧ (∀ key text,
            (key, Some text) ∈ readable_claims claims → JS.nonempty text = true →
            public_claims capsule !! key = Some text))
    ∧ (∃ w',
         generateZKProof env (Some metadata) privacySettings w = (Ok (), w')
         ∧ ((generatedCapsule (maker w') = generatedCapsule (maker w)
             ∧ ∃ message,
                 hd_error (alerts w')
                 = Some ("Error", "Failed to generate proof: " +:+ message))
            ∨ ∃ capsule,
                generatedCapsule (maker w') = Some capsule
                ∧ (∀ field, field ∈ disabled_fields privacySettings →
                            public_claims capsule !! field = None)
                ∧ (∀ key, key ∈ circuit_result_keys →
                          ∃ b, public_claims capsule !! key
                               = Some (bool_toString b))
                ∧ (∀ key, key ∈ readable_claim_keys →
                          ∃ text, JS.nonempty text = true
                                  ∧ public_claims capsule !! key = Some text)
                ∧ (∀ flag claim sentence,
                     (flag, claim, sentence) ∈ off_toggles privacySettings →
                     public_claims capsule !! flag = Some "false"
                     ∧ public_claims capsule !! claim = Some sentence))).
Proof.
  intros env metadata privacySettings circomProof verificationKey ipfsCid ipfsUrl
    currentTime metadataHash timeWithinMonth locationInRegion deviceTrusted
    photoAuthentic imageContentRevealed claims w.
  split; [|apply generateZKProof_claims].
  destruct (generateZKCapsule_spec env metadata privacySettings circomProof
              verificationKey ipfsCid ipfsUrl currentTime metadataHash
              timeWithinMonth locationInRegion deviceTrusted photoAuthentic
              imageContentRevealed claims w) as (vault & w' & Hrun & _).
  eexists _, w'. split; [exact Hrun|]. simpl. split; [|split].
  - intros field Hfield. apply assembled_claims_disabled, Hfield.
  - intros key b Hin.
    rewrite add_readable_claims_frame.
    + apply add_circuit_results_written, Hin.
    + unfold circuit_results in Hin.
      repeat (apply elem_of_cons in Hin as [Heq | Hin];
              [injection Heq as -> _; not_in_list|]).
      inversion Hin.
  - intros key text Hin Htext. apply add_readable_claims_written; assumption.
Qed.

Lemma disabled_fields_absent_witness :
  "date_month" ∈ disabled_fields Sample.only_country
  ∧ ("time_within_month", "time_claim", "Time not verified")
    ∈ off_toggles Sample.only_country
  ∧ (∃ capsule w',
       generateZKCapsule (Sample.env [] []) Sample.a_photo Sample.only_country
         Sample.a_proof "vk" None None (Some 1700000000000) None
         (Some false) (Some true) (Some false) (Some false) (Some false)
         None (Sample.world ∅ "") = (Ok capsule, w')
       ∧ public_claims capsule !! "date_month" = None
       ∧ public_claims capsule !! "time_within_month" = Some "false")
  ∧ (∃ capsule w',
       generateZKProof (Sample.env [] []) (Some Sample.a_photo)
         Sample.only_country (Sample.world ∅ "") = (Ok (), w')
       ∧ generatedCapsule (maker w') = Some capsule
       ∧ public_claims capsule !! "date_month" = None
       ∧ public_claims capsule !! "time_within_month" = Some "false"
       ∧ public_claims capsule !! "time_claim" = Some "Time not verified").
Proof.
  assert ("date_month" ∈ disabled_fields Sample.only_country) as Hin.
  { simpl. apply elem_of_cons. right. apply elem_of_cons. right.
    apply elem_of_cons. left. reflexivity. }
  assert (("time_within_month", "time_claim", "Time not verified")
          ∈ off_toggles Sample.only_country) as Htoggle.
  { simpl. apply elem_of_cons. left. reflexivity. }
  split; [exact Hin|]. split; [exact Htoggle|].
  destruct (disabled_fields_absent (Sample.env [] []) Sample.a_photo
              Sample.only_country Sample.a_proof "vk" None None
              (Some 1700000000000) None (Some false) (Some true)
              (Some false) (Some false) (Some false) None
              (Sample.world ∅ ""))
    as [(capsule & w' & Hrun & Hoff & Hflags & _) (w'' & Hproof & Hcase)].
  split.
  - exists capsule, w'. split; [exact Hrun|]. split.
    + apply Hoff, Hin.
    + apply (Hflags "time_within_month" false). apply elem_of_cons. left.
      reflexivity.
  - destruct Hcase as [[_ (message & Halert)]
                      | (shown & Hshown & Habsent & _ & _ & Hplaceholders)].
    + exfalso.
      assert (w'' = proof_run_only_country.2) as ->
        by (unfold proof_run_only_country; rewrite Hproof; reflexivity).
      vm_compute in Halert. discriminate Halert.
    + exists shown, w''. split; [exact Hproof|]. split; [exact Hshown|].
      split; [apply Habsent, Hin|]. apply Hplaceholders, Htoggle.
Defined.

(** C2 fails as stated.  With only the location disclosed, the capsule that
    [generateZKProof] produces carries, for the time, device, identity and
    image toggles that are off, the flags "false" and the placeholder
    sentences. *)
Lemma placeholders_for_disabled_toggles :
  tp_enabled (timeProof Sample.only_country) = false
  ∧ dp_enabled (deviceProof Sample.only_country) = false
  ∧ ∃ capsule,
      proof_run_only_country.1 = Ok ()
      ∧ generatedCapsule (maker proof_run_only_country.2) = Some capsule
      ∧ public_claims capsule !! "time_claim" = Some "Time not verified"
      ∧ public_claims capsule !! "time_within_month" = Some "false"
      ∧ public_claims capsule !! "device_claim" = Some "Device not verified"
      ∧ public_claims capsule !! "device_trusted" = Some "false"
      ∧ size (public_claims capsule) = 11%nat.
Proof.
  split; [reflexivity|]. split; [reflexivity|].
  eexists. repeat apply conj; vm_compute; reflexivity.
Qed.

(** ** Claim revision *)

Section RevisionProofs.
Context (env : Env).

Lemma generateUpdatedCapsule_spec photo revealedClaims selectedLevels w :
  ∃ w', generateUpdatedCapsule env photo revealedClaims selectedLevels w
        = (Ok (updated_capsule env photo revealedClaims selectedLevels
                 (clock_pos w)), w')
        ∧ storage w' = storage w
        ∧ alerts w' = alerts w
        ∧ console w' = console w.
Proof.
  unfold generateUpdatedCapsule, updated_capsule, bind, try_catch, ret, Date_now.
  simpl. destruct (Z.eqb (created_at (metadata (zkCapsule photo))) 0);
    eexists; repeat split.
Qed.

Lemma write_flags_written revealedClaims claims key b :
  (key, b) ∈ flag_keys revealedClaims →
  write_flags revealedClaims claims !! key = Some (bool_toString b).
Proof.
  unfold flag_keys, write_flags. intros Hin. cbv zeta.
  repeat (apply elem_of_cons in Hin as [Heq | Hin];
          [injection Heq as -> ->;
           rewrite ?lookup_insert_ne by discriminate; apply lookup_insert_eq|]).
  inversion Hin.
Qed.

Lemma write_flags_frame revealedClaims claims key :
  key ∉ circuit_result_keys →
  write_flags revealedClaims claims !! key = claims !! key.
Proof.
  unfold circuit_result_keys, write_flags. intros Hk. cbv zeta.
  repeat match goal with
  | H : ?k ∉ _ :: _ |- _ => apply not_elem_of_cons in H as [? H]
  end.
  rewrite !lookup_insert_ne by congruence. reflexivity.
Qed.

Lemma getClaimDescription_private st photo claimType :
  (∀ key, claim_text_key claimType = Some key →
          JS.truthy (public_claims (zkCapsule (default photo (updatedPhoto st)))
                       !! key) = false) →
  getClaimDescription st photo claimType = "Private".
Proof.
  unfold getClaimDescription, claim_text_key. intros Habsent.
  repeat (destruct (String.eqb claimType _);
          [rewrite (Habsent _ eq_refl), andb_false_r; reflexivity|]).
  reflexivity.
Qed.
End RevisionProofs.

(** C4. Claim revision preserves identity and proof: the capsule that
    [generateUpdatedCapsule] returns, for every saved photo, revealed flags
    and levels, has the [capsule_id] and the [proof] of the original capsule
    (the proof is copied, not regenerated), and the same [proof_scheme],
    [circuit_version], [image_hash] and [verification_key]; so has the photo
    that [saveChanges] writes back, which differs from the edited photo in
    its [public_claims] only. *)
Theorem revision_preserves_identity_and_proof :
  ∀ (env : Env) (photo : SavedPhoto) (revealedClaims : RevealedClaims)
    (selectedLevels : SelectedLevels) (w : World),
    (∃ newCapsule w',
       generateUpdatedCapsule env photo revealedClaims selectedLevels w
       = (Ok newCapsule, w')
       ∧ capsule_id newCapsule = capsule_id (zkCapsule photo)
       ∧ proof newCapsule = proof (zkCapsule photo)
       ∧ proof_scheme (metadata newCapsule) = proof_scheme (metadata (zkCapsule photo))
       ∧ circuit_version (metadata newCapsule)
         = circuit_version (metadata (zkCapsule photo))
       ∧ image_hash (metadata newCapsule) = image_hash (metadata (zkCapsule photo))
       ∧ verification_key (metadata newCapsule)
         = verification_key (metadata (zkCapsule photo)))
    ∧ (∀ claims,
         let saved := zkCapsule (with_public_claims claims photo) in
         capsule_id saved = capsule_id (zkCapsule photo)
         ∧ proof saved = proof (zkCapsule photo)
         ∧ metadata saved = metadata (zkCapsule photo)).
Proof.
  intros env photo revealedClaims selectedLevels w. split.
  - destruct (generateUpdatedCapsule_spec env photo revealedClaims selectedLevels w)
      as (w' & Hrun & _).
    eexists _, w'. split; [exact Hrun|]. repeat split.
  - intros claims. repeat split.
Qed.

(** C3, as the code has it.  Claim revision never consults the Private
    Vault.  For every capsule, whether its vault entry exists or not,
    [generateUpdatedCapsule] returns normally and leaves the store, the
    alerts and the console untouched; the flag of every claim type is set to
    what the user chose ("true" for a field being revealed) and the
    human-readable claim texts stay as they were on the capsule; and a claim
    type whose claim text is absent from the capsule is displayed as
    "Private", revealed or not.  No error is signaled. *)
Theorem revision_ignores_vault :
  ∀ (env : Env) (photo : SavedPhoto) (revealedClaims : RevealedClaims)
    (selectedLevels : SelectedLevels) (w : World),
    (∃ newCapsule w',
       generateUpdatedCapsule env photo revealedClaims selectedLevels w
       = (Ok newCapsule, w')
       ∧ storage w' = storage w ∧ alerts w' = alerts w ∧ console w' = console w
       ∧ (∀ key b, (key, b) ∈ flag_keys revealedClaims →
                   public_claims newCapsule !! key = Some (bool_toString b))
       ∧ (∀ key, key ∈ readable_claim_keys →
                 public_claims newCapsule !! key
                 = public_claims (zkCapsule photo) !! key))
    ∧ (∀ (st : DetailsModal) (claimType : string),
         (∀ key, claim_text_key claimType = Some key →
                 JS.truthy (public_claims (zkCapsule (default photo (updatedPhoto st)))
                              !! key) = false) →
         getClaimDescription st photo claimType = "Private").
Proof.
  intros env photo revealedClaims selectedLevels w. split.
  - destruct (generateUpdatedCapsule_spec env photo revealedClaims selectedLevels w)
      as (w' & Hrun & Hst & Hal & Hco).
    eexists _, w'. split; [exact Hrun|].
    split; [exact Hst|]. split; [exact Hal|]. split; [exact Hco|]. simpl. split.
    + intros key b Hin.
      assert (key ≠ "location_level" ∧ key ≠ "time_level") as [H1 H2].
      { unfold flag_keys in Hin.
        repeat (apply elem_of_cons in Hin as [Heq | Hin];
                [injection Heq as -> _; split; discriminate|]).
        inversion Hin. }
      rewrite !lookup_insert_ne by congruence.
      apply write_flags_written, Hin.
    + intros key Hin.
      assert (key ≠ "location_level" ∧ key ≠ "time_level"
              ∧ key ∉ circuit_result_keys) as (H1 & H2 & H3).
      { unfold readable_claim_keys in Hin.
        repeat (apply elem_of_cons in Hin as [-> | Hin];
                [split; [discriminate | split; [discriminate | not_in_list]]|]).
        inversion Hin. }
      rewrite !lookup_insert_ne by congruence.
      apply write_flags_frame, H3.
  - intros st claimType. apply getClaimDescription_private.
Qed.

Lemma revision_ignores_vault_witness :
  public_claims (zkCapsule hidden_time_photo) !! "time_claim" = None
  ∧ getClaimDescription (details reveal_time_world) hidden_time_photo "time"
    = "Private".
Proof.
  split; [reflexivity|].
  apply (proj2 (revision_ignores_vault (Sample.env [] []) hidden_time_photo
                  (mkRevealed true false false false false)
                  (mkLevels "month" "country") (Sample.world ∅ ""))
           (details reveal_time_world) "time").
  intros key Hkey. injection Hkey as <-. reflexivity.
Defined.

(** C3 fails as stated.  The vault of the capsule is missing, the user
    reveals the time, which was hidden: the revision succeeds with the
    "Success" alert, nothing is logged, the photo handed back carries the
    flag "true" and no claim text, and the time is displayed as "Private". *)
Lemma reveal_without_vault_succeeds :
  storage reveal_time_world
    !! vault_key (capsule_id (zkCapsule hidden_time_photo)) = None
  ∧ r_time (revealedClaims (details reveal_time_world)) = true
  ∧ public_claims (zkCapsule hidden_time_photo) !! "time_within_month" = Some "false"
  ∧ reveal_time_run.1 = Ok ()
  ∧ alerts reveal_time_run.2
    = [("Success",
        "Photo claims have been updated and new capsule generated successfully")]
  ∧ console reveal_time_run.2 = []
  ∧ (∃ saved, notified (details reveal_time_run.2) = [saved]
              ∧ public_claims (zkCapsule saved) !! "time_within_month" = Some "true"
              ∧ public_claims (zkCapsule saved) !! "time_claim" = None)
  ∧ getClaimDescription (details reveal_time_run.2) hidden_time_photo "time"
    = "Private".
Proof.
  repeat apply conj; try (vm_compute; reflexivity).
  eexists. repeat apply conj; vm_compute; reflexivity.
Qed.

(** ** The verifier: the time lock *)

Lemma kept {A} (m : M A) w : keeps_store m → storage (m w).2 = storage w.
Proof. intros [H]. apply H. Qed.

Lemma keeps_ret {A} (a : A) : keeps_store (ret a).
Proof. constructor. intros w. reflexivity. Qed.

Lemma keeps_throw {A} e : keeps_store (@throw A e).
Proof. constructor. intros w. reflexivity. Qed.

Lemma keeps_lift {A} (r : result A) : keeps_store (lift r).
Proof. constructor. intros w. reflexivity. Qed.

Lemma keeps_bind {A B} (m : M A) (k : A → M B) :
  keeps_store m → (∀ a, keeps_store (k a)) → keeps_store (bind m k).
Proof.
  intros [Hm] Hk. constructor. intros w. unfold bind. specialize (Hm w).
  destruct (m w) as [[a|e] w1]; simpl in *; [|exact Hm].
  rewrite (kept _ _ (Hk a)). exact Hm.
Qed.

Lemma keeps_try_catch {A} (m : M A) (h : exn → M A) :
  keeps_store m → (∀ e, keeps_store (h e)) → keeps_store (try_catch m h).
Proof.
  intros [Hm] Hh. constructor. intros w. unfold try_catch. specialize (Hm w).
  destruct (m w) as [[a|e] w1]; simpl in *; [exact Hm|].
  rewrite (kept _ _ (Hh e)). exact Hm.
Qed.

Lemma keeps_finally {A} (m : M A) (fin : M ()) :
  keeps_store m → keeps_store fin → keeps_store (finally m fin).
Proof.
  intros [Hm] [Hf]. constructor. intros w. unfold finally. specialize (Hm w).
  destruct (m w) as [r w1]; simpl in *. rewrite Hf. exact Hm.
Qed.

Lemma keeps_update f :
  (∀ w, storage (f w) = storage w) → keeps_store (update f).
Proof. intros Hf. constructor. intros w. apply Hf. Qed.

Ltac keeps_store :=
  repeat first
    [ apply keeps_ret | apply keeps_throw | apply keeps_lift
    | apply keeps_update; intros ?; reflexivity
    | apply keeps_bind; [|intros ?]
    | apply keeps_try_catch; [|intros ?]
    | apply keeps_finally
    | match goal with
      | |- keeps_store (if ?b then _ else _) => destruct b
      | |- keeps_store (match ?x with _ => _ end) => destruct x
      end ].

Section VerifierProofs.
Context (env : Env).

Lemma keeps_console_log line : keeps_store (console_log line).
Proof. unfold console_log. keeps_store. Qed.

Lemma keeps_console_error line e : keeps_store (console_error line e).
Proof. unfold console_error. keeps_store. Qed.

Lemma keeps_Alert title msg : keeps_store (Alert_alert title msg).
Proof. unfold Alert_alert. keeps_store. Qed.

Lemma keeps_Date_now : keeps_store (Date_now env).
Proof. constructor. intros w. reflexivity. Qed.

Lemma keeps_setIsLoadingTime b : keeps_store (setIsLoadingTime b).
Proof. unfold setIsLoadingTime. keeps_store. Qed.

Lemma keeps_try_time_api api : keeps_store (try_time_api env api).
Proof.
  unfold try_time_api, get.
  keeps_store; first [apply keeps_console_log | apply keeps_console_error].
Qed.

Lemma keeps_time_api_loop apis : keeps_store (time_api_loop env apis).
Proof.
  induction apis as [|api apis IH]; simpl; keeps_store;
    first [exact IH | apply keeps_try_time_api].
Qed.

Lemma keeps_fetchGlobalTime : keeps_store (fetchGlobalTime env).
Proof.
  unfold fetchGlobalTime, device_time.
  keeps_store;
    first [ apply keeps_console_log | apply keeps_console_error
          | apply keeps_Alert | apply keeps_Date_now
          | apply keeps_setIsLoadingTime | apply keeps_time_api_loop ].
Qed.

(** An iteration of the loop of [fetchGlobalTime] completes normally, and
    a date it returns is valid: an invalid one throws in the log line and
    the loop goes on. *)
Lemma try_time_api_valid api w :
  ∃ r w', try_time_api env api w = (Ok r, w')
          ∧ (r = None ∨ ∃ t, r = Some (ValidDate t)).
Proof.
  unfold try_time_api, try_catch, bind, get, lift, ret, throw, console_error,
    console_log, update, date_toISOString.
  repeat first
    [ match goal with
      | |- context [match ?x with _ => _ end] =>
          lazymatch x with
          | context [match _ with _ => _ end] => fail
          | _ => destruct x eqn:?
          end
      end
    | progress simpl ];
    eexists _, _; (split; [reflexivity|]); eauto.
Qed.

Lemma time_api_loop_valid apis : ∀ w,
  ∃ r w', time_api_loop env apis w = (Ok r, w')
          ∧ (r = None ∨ ∃ t, r = Some (ValidDate t)).
Proof.
  induction apis as [|api apis IH]; intros w; simpl.
  - eexists _, _. split; [reflexivity|]. left. reflexivity.
  - destruct (try_time_api_valid api w) as (r & w1 & Hrun & Hr).
    rewrite (bind_ok _ _ _ _ _ Hrun).
    destruct Hr as [-> | [t ->]].
    + apply IH.
    + eexists _, _. split; [reflexivity|]. right. eauto.
Qed.

(** [fetchGlobalTime] always returns a valid date, and keeps the store. *)
Lemma fetchGlobalTime_spec w :
  ∃ now w', fetchGlobalTime env w = (Ok (ValidDate now), w')
            ∧ storage w' = storage w.
Proof.
  pose proof (kept _ w keeps_fetchGlobalTime) as Hkeep.
  unfold fetchGlobalTime, finally, try_catch in *.
  rewrite (bind_ok _ _ w () (with_verify _ w) eq_refl) in *.
  destruct (time_api_loop_valid timeAPIs
              (with_verify
                 (λ s, mkVerifyScreen (proofData s) (verificationResult s)
                         (isVerifying s) (parsedCapsule s) (showResultsModal s)
                         (showFallingPhrases s) (timeLockState s)
                         (walletLockState s) true) w))
    as (r & w1 & Hrun & Hr).
  unfold setIsLoadingTime, update in *. simpl in *.
  rewrite (bind_ok _ _ _ _ _ Hrun) in *.
  destruct Hr as [-> | [t ->]]; simpl in *.
  - eexists _, _. split; [reflexivity | exact Hkeep].
  - eexists _, _. split; [reflexivity | exact Hkeep].
Qed.
End VerifierProofs.

Section TimeLockProofs.
Context (env : Env).

Lemma get_ok v key x w : JV.getProp v key = Ok x → get v key w = (Ok x, w).
Proof. unfold get, lift. intros ->. reflexivity. Qed.

(** [loadPrivateVault] completes normally with the stored vault, and
    changes nothing but the console. *)
Lemma loadPrivateVault_spec capsuleId w :
  ∃ w', loadPrivateVault env capsuleId w
        = (Ok (stored_vault env (storage w) capsuleId), w')
        ∧ verify w' = verify w ∧ storage w' = storage w.
Proof.
  unfold loadPrivateVault, stored_vault, try_catch, bind, AsyncStorage_getItem,
    console_error, update, ret, throw.
  destruct (getItem_rejects env (storage w)
              (vault_key (template_value env capsuleId))); simpl.
  - eexists. repeat split.
  - destruct (storage w !! vault_key (template_value env capsuleId)) as [text|];
      simpl; [|eexists; repeat split].
    destruct (JS.nonempty text); [|eexists; repeat split].
    destruct (JSON_parse env text); simpl; eexists; repeat split.
Qed.

(** What [checkTimeLockStatus] reads in a vault. *)
Lemma time_lock_data_read vault w :
  well_formed_vault vault →
  ∃ data,
    and_then vault
      (original_values <- get vault "original_values" ;;
       get original_values "time_lock_data") w = (Ok data, w)
    ∧ (if JV.truthy data then data else VNull)
      = stored_payload "time_lock_data" vault.
Proof.
  intros [-> | (fields & ov & -> & Hov)].
  - exists VNull. split; reflexivity.
  - unfold and_then, bind, get, lift, stored_payload. simpl. rewrite Hov. simpl.
    destruct (JV.assoc "time_lock_data" ov) as [data|]; simpl.
    + exists data. split; reflexivity.
    + exists VUndefined. split; reflexivity.
Qed.
End TimeLockProofs.

(** C7. The time-lock state machine.  For a parsed capsule that carries a
    [time_lock_until] claim denoting the time [T], [checkTimeLockStatus]
    completes normally and sets the display state from the current time
    [now] that [fetchGlobalTime] returns: the state is locked exactly when
    [now < T], with [timeRemaining = T - now], which is positive, and no
    locked payload; when [now >= T] the state is unlocked, [timeRemaining]
    is 0, the vault entry of the [capsule_id] is loaded and its
    [original_values.time_lock_data] is the visible payload if there is one,
    and otherwise the payload is [null] ("No data available" on screen).
    The vault entry is assumed missing or well formed. *)
Theorem time_lock_state_machine :
  ∀ (env : Env) (w : World) (capsule public_claims time_lock_until capsule_id : value)
    (T : Z),
    JV.getProp capsule "public_claims" = Ok public_claims →
    JV.getProp public_claims "time_lock_until" = Ok time_lock_until →
    JV.truthy time_lock_until = true →
    new_Date env time_lock_until = ValidDate T →
    JV.getProp capsule "capsule_id" = Ok capsule_id →
    well_formed_vault (stored_vault env (storage w) capsule_id) →
    ∃ now w1 w',
      fetchGlobalTime env w = (Ok (ValidDate now), w1)
      ∧ checkTimeLockStatus env capsule w = (Ok (), w')
      ∧ timeLockState (verify w')
        = mkTimeLockState (Z.ltb now T) (Some (ValidDate T))
            (if Z.ltb now T then VNull
             else stored_payload "time_lock_data"
                    (stored_vault env (storage w) capsule_id))
            (Some (ValidDate now))
            (Some (if Z.ltb now T then T - now else 0))
      ∧ (Z.ltb now T = true ↔ now < T)
      ∧ (now < T → 0 < T - now).
Proof.
  intros env w capsule public_claims time_lock_until capsule_id T
    Hclaims Huntil Htruthy Hdate Hid Hvault.
  destruct (fetchGlobalTime_spec env w) as (now & w1 & Htime & Hstore).
  exists now, w1.
  unfold checkTimeLockStatus.
  rewrite (bind_ok _ _ _ _ _ (get_ok _ _ _ w Hclaims)).
  rewrite (bind_ok _ _ _ _ _ (get_ok _ _ _ w Huntil)).
  rewrite Htruthy, Hdate.
  rewrite (bind_ok _ _ _ _ _ Htime).
  simpl JV.date_lt. simpl JV.getTime.
  destruct (Z.ltb now T) eqn:Hlt.
  - eexists. split; [exact Htime|]. split; [reflexivity|]. simpl.
    split; [reflexivity|]. split; [|lia]. rewrite Z.ltb_lt in Hlt. tauto.
  - simpl negb. cbv iota.
    destruct (loadPrivateVault_spec env capsule_id w1) as (w2 & Hload & Hverify & _).
    rewrite Hstore in Hload.
    destruct (time_lock_data_read (stored_vault env (storage w) capsule_id) w2 Hvault)
      as (data & Hread & Hpayload).
    rewrite <- Hpayload.
    unfold bind in Hread |- *.
    rewrite (get_ok _ _ _ w1 Hid). cbv beta iota.
    rewrite Hload. cbv beta iota. rewrite Hread. cbv beta iota.
    assert (¬ now < T) as Hge by (apply Z.ltb_ge in Hlt; lia).
    destruct (JV.truthy data); unfold console_log, setTimeLockState, update,
      ret, lift; simpl;
      (eexists; split; [exact Htime|]; split; [reflexivity|]; simpl;
       split; [reflexivity|]; split; [|lia]; split; [discriminate | tauto]).
Qed.

(** ** The verifier: the validity gate *)

Section GateProofs.
Context (env : Env).

Lemma verifyParsed_rejects fields w :
  missing_top_level fields ∨ missing_verification_key fields →
  ∃ reason,
    verifyParsed env (VObject fields) w = (Throw (Error reason), w)
    ∧ (reason = structure_error ∨ reason = metadata_error)
    ∧ (missing_top_level fields → reason = structure_error).
Proof.
  unfold verifyParsed, get, lift, bind, throw, ret. simpl.
  intros [[H | [H | H]] | (metadata & Hmd & Hkey)].
  - rewrite H. simpl. exists structure_error. auto.
  - rewrite H. simpl.
    destruct (JV.truthy (default VUndefined (JV.assoc "capsule_id" fields)));
      simpl; exists structure_error; auto.
  - rewrite H. simpl.
    destruct (JV.truthy (default VUndefined (JV.assoc "capsule_id" fields))),
      (JV.truthy (default VUndefined (JV.assoc "public_claims" fields)));
      simpl; exists structure_error; auto.
  - rewrite Hmd. simpl. rewrite Hkey. simpl.
    destruct (JV.truthy (default VUndefined (JV.assoc "capsule_id" fields))) eqn:H1,
      (JV.truthy (default VUndefined (JV.assoc "public_claims" fields))) eqn:H2,
      (JV.truthy (default VUndefined (JV.assoc "proof" fields))) eqn:H3;
      simpl; try (exists structure_error; split; [reflexivity | auto]).
    exists metadata_error. split; [reflexivity|]. split; [auto|].
    intros [H | [H | H]]; rewrite H in *; discriminate.
Qed.

(** [verifyProof] never throws to its caller. *)
Lemma verifyProof_never_throws w : (verifyProof env w).1 = Ok ().
Proof.
  unfold verifyProof.
  destruct (negb (JS.nonempty (JV.trim (proofData (verify w))))); [reflexivity|].
  unfold bind at 1 2 3 4 5. simpl.
  unfold finally, try_catch.
  match goal with
  | |- context [bind ?m ?k ?w0] => destruct (bind m k w0) as [[[]|e] w1]
  end; reflexivity.
Qed.
End GateProofs.

(** C5. The capsule validity gate.  For every input text that is a capsule
    (a JSON object) from which [capsule_id], [public_claims], [proof] or
    [metadata.verification_key] is missing, [verifyProof] completes
    normally (nothing is thrown to the caller) and rejects the capsule: the
    verification result is [invalid], no parsed capsule is kept, the
    "Verification Failed" alert is shown and the error is logged with its
    reason, the structure reason when one of the first three is missing,
    the structure or the metadata reason when the verification key is. *)
Theorem capsule_validity_gate :
  ∀ (env : Env) (w : World) (fields : list (string * value)),
    JS.nonempty (JV.trim (proofData (verify w))) = true →
    isIpfsUrl (JV.trim (proofData (verify w))) = false →
    JSON_parse env (JV.trim (proofData (verify w))) = Some (VObject fields) →
    missing_top_level fields ∨ missing_verification_key fields →
    ∃ w' reason,
      verifyProof env w = (Ok (), w')
      ∧ verificationResult (verify w') = Some invalid
      ∧ parsedCapsule (verify w') = None
      ∧ isVerifying (verify w') = false
      ∧ alerts w'
        = ("Verification Failed", "Invalid capsule format or corrupted data")
            :: alerts w
      ∧ console w'
        = ("Verification error: Error: " +:+ reason)
            :: "Setting falling phrases to visible" :: console w
      ∧ (reason = structure_error ∨ reason = metadata_error)
      ∧ (missing_top_level fields → reason = structure_error).
Proof.
  intros env w fields Hinput Hurl Hparse Hmissing.
  unfold verifyProof. rewrite Hinput. simpl negb. cbv iota.
  unfold bind at 1 2 3 4 5. simpl.
  unfold finally, try_catch, bind at 1, resolveCapsuleData.
  rewrite Hurl. unfold ret at 1. cbv beta iota. rewrite Hparse.
  unfold bind at 1, ret at 1. cbv beta iota.
  match goal with
  | |- context [verifyParsed env (VObject fields) ?w0] =>
      destruct (verifyParsed_rejects env fields w0 Hmissing)
        as (reason & Hrun & Hreason & Htop)
  end.
  rewrite Hrun. simpl.
  eexists _, reason. split; [reflexivity|]. simpl. auto 10.
Qed.

Example sample_capsule_text :
  Sample.stringify (VObject [("capsule_id", VString "c1"); ("n", VArray [VNumber 1; VNull])])
  = "{" +:+ Sample.dq +:+ "capsule_id" +:+ Sample.dq +:+ ":" +:+ Sample.dq +:+ "c1"
    +:+ Sample.dq +:+ "," +:+ Sample.dq +:+ "n" +:+ Sample.dq +:+ ":[1,null]}".
Proof. reflexivity. Qed.

Lemma capsule_validity_gate_witness :
  missing_top_level capsule_without_proof
  ∧ ∃ w' reason,
      verifyProof (verifier_env (VObject capsule_without_proof))
        (verifier_world (VObject capsule_without_proof)) = (Ok (), w')
      ∧ verificationResult (verify w') = Some invalid
      ∧ reason = structure_error.
Proof.
  assert (missing_top_level capsule_without_proof) as Hmissing.
  { right. right. reflexivity. }
  split; [exact Hmissing|].
  destruct (capsule_validity_gate (verifier_env (VObject capsule_without_proof))
              (verifier_world (VObject capsule_without_proof))
              capsule_without_proof)
    as (w' & reason & Hrun & Hresult & _ & _ & _ & _ & _ & Hreason).
  - vm_compute. reflexivity.
  - vm_compute. reflexivity.
  - vm_compute. reflexivity.
  - left. exact Hmissing.
  - exists w', reason. split; [exact Hrun|]. split; [exact Hresult|].
    apply Hreason, Hmissing.
Defined.

(** C6 fails on the code.  The capsule is structurally complete: a non-empty
    [capsule_id], a [public_claims] object, a proof with [a], [b] and [c],
    and metadata with [verification_key], [proof_scheme] and [image_hash].
    Its [time_lock_until] is not a date, so the log line at the end of
    [checkTimeLockStatus] throws a RangeError, which the handler of
    [verifyProof] turns into the verdict [invalid], after [valid] had been
    set. *)
Theorem complete_capsule_reported_invalid :
  JSON_parse (verifier_env capsule_locked_until_never)
    (JV.trim (proofData (verify (verifier_world capsule_locked_until_never))))
  = Some capsule_locked_until_never
  ∧ new_Date (verifier_env capsule_locked_until_never) (VString "never") = InvalidDate
  ∧ verify_run_locked_until_never.1 = Ok ()
  ∧ verificationResult (verify verify_run_locked_until_never.2) = Some invalid
  ∧ parsedCapsule (verify verify_run_locked_until_never.2)
    = Some capsule_locked_until_never
  ∧ showResultsModal (verify verify_run_locked_until_never.2) = false
  ∧ hd_error (console verify_run_locked_until_never.2)
    = Some "Verification error: RangeError: Invalid time value"
  ∧ hd_error (alerts verify_run_locked_until_never.2)
    = Some ("Verification Failed", "Invalid capsule format or corrupted data").
Proof. repeat apply conj; vm_compute; reflexivity. Qed.

Lemma time_lock_state_machine_witness :
  JV.truthy (VNumber 1699999999000) = true
  ∧ ∃ w',
      checkTimeLockStatus (verifier_env unlocked_capsule) unlocked_capsule
        (verifier_world unlocked_capsule)
      = (Ok (), w')
      ∧ tls_isLocked (timeLockState (verify w')) = false
      ∧ lockedData (timeLockState (verify w')) = VString "secret-X"
      ∧ timeRemaining (timeLockState (verify w')) = Some 0.
Proof.
  split; [reflexivity|].
  destruct (time_lock_state_machine (verifier_env unlocked_capsule)
              (verifier_world unlocked_capsule) unlocked_capsule
              (VObject [("time_lock_until", VNumber 1699999999000);
                        ("time_lock_type", VString "content")])
              (VNumber 1699999999000) (VString "5a30c044") 1699999999000)
    as (now & w1 & w' & Htime & Hrun & Hstate & _).
  - reflexivity.
  - reflexivity.
  - reflexivity.
  - reflexivity.
  - reflexivity.
  - right. eexists _, _. split; vm_compute; reflexivity.
  - exists w'. split; [exact Hrun|].
    assert (now = 1700000000000) as ->.
    { vm_compute in Htime. injection Htime as <- _. reflexivity. }
    rewrite Hstate. repeat apply conj; vm_compute; reflexivity.
Defined.

Example locked_one_second_before :
  timeLockState
    (verify (checkTimeLockStatus (verifier_env locked_capsule) locked_capsule
               (verifier_world locked_capsule)).2)
  = mkTimeLockState true (Some (ValidDate 1700000001000)) VNull
      (Some (ValidDate 1700000000000)) (Some 1000).
Proof. vm_compute. reflexivity. Qed.

Example unlocked_one_second_after :
  timeLockState
    (verify (checkTimeLockStatus (verifier_env unlocked_capsule) unlocked_capsule
               (verifier_world unlocked_capsule)).2)
  = mkTimeLockState false (Some (ValidDate 1699999999000)) (VString "secret-X")
      (Some (ValidDate 1700000000000)) (Some 0).
Proof. vm_compute. reflexivity. Qed.

Lemma nonempty_length s :
  JS.nonempty s = true → Z.ltb 0 (Z.of_nat (String.length s)) = true.
Proof. destruct s; [discriminate|]. intros _. simpl. reflexivity. Qed.

(** A structurally complete capsule that carries no lock claim is reported
    valid: the verdict depends on the structure only. *)
Lemma complete_capsule_without_locks_valid :
  ∀ (env : Env) (w : World) (fields claims : list (string * value)),
    JS.nonempty (JV.trim (proofData (verify w))) = true →
    isIpfsUrl (JV.trim (proofData (verify w))) = false →
    JSON_parse env (JV.trim (proofData (verify w))) = Some (VObject fields) →
    complete_capsule fields claims →
    JV.assoc "time_lock_until" claims = None →
    JV.assoc "allowed_address" claims = None →
    ∃ w', verifyProof env w = (Ok (), w')
          ∧ verificationResult (verify w') = Some valid
          ∧ parsedCapsule (verify w') = Some (VObject fields)
          ∧ showResultsModal (verify w') = true
          ∧ alerts w' = alerts w.
Proof.
  intros env w fields claims Hinput Hurl Hparse
    [(capsule_id & Hid & Hnonempty) Hclaims
     (proof & a & b & c & Hproof & Ha & Hta & Hb & Htb & Hc & Htc)
     (metadata & vk & scheme & hash & Hmd & Hvk & Htvk & Hscheme & Htscheme
      & Hhash & Hthash)] Hlock Haddress.
  unfold verifyProof. rewrite Hinput. simpl negb. cbv iota.
  unfold bind at 1 2 3 4 5. simpl.
  unfold finally, try_catch, bind at 1, resolveCapsuleData.
  rewrite Hurl. unfold ret at 1. cbv beta iota. rewrite Hparse.
  unfold bind at 1, ret at 1. cbv beta iota.
  unfold verifyParsed, checkTimeLockStatus, checkWalletLockStatus, and_then, get,
    lift, bind, ret, throw, gt0. simpl.
  rewrite Hid, Hclaims, Hproof, Hmd. simpl.
  rewrite Hnonempty. simpl.
  rewrite Hvk, Hscheme. simpl. rewrite Htvk, Htscheme. simpl.
  rewrite Ha. simpl. rewrite Hta, Hb. simpl. rewrite Htb, Hc. simpl.
  rewrite Hhash. simpl. rewrite Hthash, (nonempty_length _ Hnonempty), Htc. simpl.
  rewrite Hlock, Haddress. simpl.
  eexists. split; [reflexivity|]. simpl. auto.
Qed.

(** * Further properties *)

(** ** The hash *)

Lemma toInt32_mod z : JS.toInt32 z mod 2 ^ 32 = z mod 2 ^ 32.
Proof.
  unfold JS.toInt32.
  rewrite Zminus_mod, Z.mod_mod by lia.
  rewrite <- Zminus_mod. f_equal. lia.
Qed.

Lemma toInt32_congr a b : a mod 2 ^ 32 = b mod 2 ^ 32 → JS.toInt32 a = JS.toInt32 b.
Proof.
  intros H. unfold JS.toInt32.
  rewrite (Z.add_mod a), (Z.add_mod b), H by lia. reflexivity.
Qed.

Lemma hash_step_polynomial h c : hash_step h c = JS.toInt32 (31 * h + c).
Proof.
  unfold hash_step. rewrite band_diag. apply toInt32_congr.
  unfold JS.shl. change (5 mod 32) with 5. rewrite Z.shiftl_mul_pow2 by lia.
  rewrite Zplus_mod, Zminus_mod, toInt32_mod.
  rewrite Zmult_mod, toInt32_mod, <- Zmult_mod.
  rewrite <- Zminus_mod, <- Zplus_mod. f_equal. lia.
Qed.

Lemma hash_codes_from_polynomial codes : ∀ h x,
  h = JS.toInt32 x →
  fold_left hash_step codes h
  = JS.toInt32 (fold_left (λ h c, 31 * h + c) codes x).
Proof.
  induction codes as [|c codes IH]; intros h x Hh; simpl; [exact Hh|].
  apply IH. rewrite hash_step_polynomial. apply toInt32_congr.
  rewrite Hh. rewrite Zplus_mod, Zmult_mod, toInt32_mod, <- Zmult_mod, <- Zplus_mod.
  reflexivity.
Qed.

(** X1. [generateSimpleHash] is the polynomial hash with multiplier 31 of
    the character codes, wrapped to a signed 32-bit integer once at the end,
    then printed in base 16 without its sign. *)
Theorem generateSimpleHash_polynomial :
  ∀ input : string,
    generateSimpleHash input
    = JS.toString16 (Z.abs (JS.toInt32 (polynomial_hash (JS.charCodes input)))).
Proof.
  intros input. unfold generateSimpleHash, hash_codes, polynomial_hash.
  rewrite (hash_codes_from_polynomial _ 0 0); reflexivity.
Qed.

Lemma append_assoc (a b c : string) : (a +:+ b) +:+ c = a +:+ (b +:+ c).
Proof.
  induction a as [|x a IH]; [reflexivity|].
  change (String x ((a +:+ b) +:+ c) = String x (a +:+ b +:+ c)).
  now rewrite IH.
Qed.

(** X2. A commitment does not record where the value ends and the salt
    begins: moving characters from the end of the value to the front of the
    salt leaves the commitment unchanged. *)
Theorem poseidonCommitment_boundary :
  ∀ value moved salt : string,
    poseidonCommitment (value +:+ moved) salt
    = poseidonCommitment value (moved +:+ salt).
Proof.
  intros value moved salt. unfold poseidonCommitment.
  rewrite append_assoc. reflexivity.
Qed.

(** ** The vault and the capsule *)

Section VaultProofs.
Context (env : Env).

Lemma opens_empty salts : opens salts ∅ ∅.
Proof. intros key. rewrite !lookup_empty. reflexivity. Qed.

Lemma opens_insert salts key key' v c o :
  salt_key key = key' → opens salts c o →
  opens salts (<[key := poseidonCommitment v (salt_of salts key')]> c) (<[key := v]> o).
Proof.
  intros <- H k. destruct (decide (key = k)) as [<-|Hne].
  - rewrite !lookup_insert_eq. reflexivity.
  - rewrite !lookup_insert_ne by exact Hne. apply H.
Qed.

Lemma opens_set_if_truthy salts key key' x c o :
  salt_key key = key' → opens salts c o →
  opens salts
    (if JS.truthy x
     then <[key := poseidonCommitment (default "" x) (salt_of salts key')]> c
     else c)
    (set_if_truthy key x o).
Proof.
  intros Hkey H. destruct x as [[|a s]|]; simpl; try exact H.
  apply opens_insert; assumption.
Qed.

Lemma vault_opens metadata privacySettings salts :
  opens salts
    (add_lock_commitments privacySettings salts
       (generateCommitments env metadata salts))
    (generateOriginalValues env metadata privacySettings).
Proof.
  unfold add_lock_commitments, generateCommitments, generateOriginalValues.
  cbv zeta beta.
  repeat first
    [ apply opens_empty
    | apply opens_insert; [reflexivity|]
    | apply opens_set_if_truthy; [reflexivity|]
    | match goal with
      | |- opens _ (if ?b then _ else _) _ => destruct b
      | |- opens _ _ (match ?l with Some _ => _ | None => _ end) => destruct l
      end ].
Qed.

(** The vault that [generateZKCapsule] hands to [storePrivateVault]. *)
Lemma generateZKCapsule_vault metadata privacySettings circomProof verificationKey
    ipfsCid ipfsUrl currentTime metadataHash timeWithinMonth locationInRegion
    deviceTrusted photoAuthentic imageContentRevealed claims w :
  ∃ salts w',
    generateZKCapsule env metadata privacySettings circomProof verificationKey
      ipfsCid ipfsUrl currentTime metadataHash timeWithinMonth
      locationInRegion deviceTrusted photoAuthentic imageContentRevealed
      claims w
    = (Ok (assembled_capsule env metadata privacySettings circomProof
             verificationKey ipfsCid ipfsUrl currentTime timeWithinMonth
             locationInRegion deviceTrusted photoAuthentic
             imageContentRevealed claims (clock_pos w)), w')
    ∧ storage w'
      = store_after env (storage w)
          (mkVault
             (generateSimpleHash
                (photoHash metadata +:+ JS.toString (Date_now_at env (clock_pos w))))
             (add_lock_commitments privacySettings salts
                (generateCommitments env metadata salts))
             salts
             (generateOriginalValues env metadata privacySettings)).
Proof.
  unfold generateZKCapsule.
  rewrite (bind_ok _ _ w (Date_now_at env (clock_pos w)) (with_clock w) eq_refl).
  destruct (salts_for_total env salt_fields ∅ (with_clock w))
    as (salts & w1 & Hsalts & Hst1 & Hck1).
  fold (generateAllSalts env) in Hsalts.
  rewrite (bind_ok _ _ _ _ _ Hsalts).
  match goal with
  | |- context [storePrivateVault env ?c ?cm ?s ?o] =>
      destruct (storePrivateVault_spec env c cm s o w1) as (w2 & Hstore & Hst2 & Hck2)
  end.
  rewrite (bind_ok _ _ _ _ _ Hstore).
  exists salts.
  assert (clock_pos w2 = S (clock_pos w)) as Hck by (rewrite Hck2, Hck1; reflexivity).
  unfold assembled_capsule.
  destruct currentTime as [t|]; [destruct (Z.eqb t 0)|];
    unfold bind, Date_now, console_log, update, ret; simpl; rewrite ?Hck;
    (eexists; split; [reflexivity|]; simpl;
     rewrite Hst2, Hst1; reflexivity).
Qed.
End VaultProofs.

(** X3. The vault that [generateZKCapsule] writes is consistent: under the
    capsule's key the store receives (unless the write is rejected) a vault
    whose commitments are exactly the openings of its original values, each
    original value hashed with the salt of its key, the two locked payloads
    with the salts [time_lock] and [receiver_lock]; no commitment is without
    its original value and no original value without its commitment. *)
Theorem stored_vault_commitments_open :
  ∀ (env : Env) metadata privacySettings circomProof verificationKey
    ipfsCid ipfsUrl currentTime metadataHash timeWithinMonth locationInRegion
    deviceTrusted photoAuthentic imageContentRevealed claims (w : World),
    ∃ capsule vault w',
      generateZKCapsule env metadata privacySettings circomProof verificationKey
        ipfsCid ipfsUrl currentTime metadataHash timeWithinMonth
        locationInRegion deviceTrusted photoAuthentic imageContentRevealed
        claims w = (Ok capsule, w')
      ∧ pv_capsule_id vault = capsule_id capsule
      ∧ storage w' = store_after env (storage w) vault
      ∧ ∀ key, commitments vault !! key
               = (λ value, poseidonCommitment value
                             (salt_of (salts vault) (salt_key key)))
                 <$> original_values vault !! key.
Proof.
  intros env metadata privacySettings circomProof verificationKey ipfsCid ipfsUrl
    currentTime metadataHash timeWithinMonth locationInRegion deviceTrusted
    photoAuthentic imageContentRevealed claims w.
  destruct (generateZKCapsule_vault env metadata privacySettings circomProof
              verificationKey ipfsCid ipfsUrl currentTime metadataHash
              timeWithinMonth locationInRegion deviceTrusted photoAuthentic
              imageContentRevealed claims w) as (salts & w' & Hrun & Hst).
  eexists _, _, w'. split; [exact Hrun|]. split; [|split; [exact Hst|]].
  - reflexivity.
  - intros key. simpl. apply (vault_opens env metadata privacySettings salts key).
Qed.

(** Membership in a list of literals. *)
Ltac in_list :=
  first [ apply list_elem_of_here
        | apply list_elem_of_further; in_list ].

Section DisclosureProofs.
Context (env : Env).

Lemma discloses_empty o : discloses ∅ o.
Proof. intros key value H. rewrite lookup_empty in H. discriminate. Qed.

Lemma discloses_insert k v m o :
  o !! k = Some v → discloses m o → discloses (<[k := v]> m) o.
Proof.
  intros Ho H key value Hkey Hin. destruct (decide (k = key)) as [<-|Hne].
  - rewrite lookup_insert_eq in Hkey. congruence.
  - rewrite lookup_insert_ne in Hkey by exact Hne. apply H; assumption.
Qed.

Lemma discloses_unvaulted k v m o :
  k ∈ unvaulted_keys → discloses m o → discloses (<[k := v]> m) o.
Proof.
  intros Hk H key value Hkey Hin. destruct (decide (k = key)) as [<-|Hne].
  - contradiction.
  - rewrite lookup_insert_ne in Hkey by exact Hne. apply H; assumption.
Qed.

Lemma discloses_set_if_truthy k x m o :
  (JS.truthy x = true → o !! k = x) → discloses m o →
  discloses (set_if_truthy k x m) o.
Proof.
  intros Ho H. destruct x as [[|a s]|]; simpl; try exact H.
  apply discloses_insert; [apply Ho; reflexivity | exact H].
Qed.

Lemma set_if_truthy_kept key x (m : gmap string string) :
  JS.truthy x = true → set_if_truthy key x m !! key = x.
Proof.
  destruct x as [[|a s]|]; simpl; try discriminate.
  intros _. apply lookup_insert_eq.
Qed.

Lemma insert_if_frame (b : bool) k v (m : gmap string string) key :
  key ≠ k → (if b then <[k := v]> m else m) !! key = m !! key.
Proof. intros Hne. destruct b; [|reflexivity]. apply lookup_insert_ne. congruence. Qed.

(** A lookup in the object that [generateOriginalValues] builds. *)
Ltac original_value :=
  intros; unfold generateOriginalValues; cbv zeta;
  repeat match goal with H : location _ = _ |- _ => rewrite H end;
  repeat match goal with
         | |- context [match location ?m with _ => _ end] => destruct (location m)
         end;
  repeat lazymatch goal with
         | |- (<[?k := _]> _) !! ?k = _ => apply lookup_insert_eq
         | |- (<[_ := _]> _) !! _ = _ =>
             etrans; [apply lookup_insert_ne; discriminate|]
         | |- set_if_truthy ?k _ _ !! ?k = _ =>
             apply set_if_truthy_kept; assumption
         | |- set_if_truthy _ _ _ !! _ = _ =>
             etrans; [apply set_if_truthy_frame; discriminate|]
         | |- (if _ then _ else _) !! _ = _ =>
             etrans; [apply insert_if_frame; discriminate|]
         end.

Ltac discloses_block :=
  intros; cbv zeta;
  repeat lazymatch goal with
         | H : discloses ?m ?o |- discloses ?m ?o => exact H
         | |- discloses (if ?b then _ else _) _ => destruct b
         | |- discloses (match location ?m with _ => _ end) _ =>
             destruct (location m) eqn:?
         | |- discloses (match ?l with _ => _ end) _ => destruct l
         | |- discloses (<[_ := _]> _) _ =>
             first [ apply discloses_unvaulted; [in_list|]
                   | apply discloses_insert; [original_value; fail|] ]
         | |- discloses (set_if_truthy _ _ _) _ =>
             apply discloses_set_if_truthy; [original_value; fail|]
         end.

Lemma time_claims_disclose metadata privacySettings m :
  discloses m (generateOriginalValues env metadata privacySettings) →
  discloses (time_claims env metadata privacySettings m)
            (generateOriginalValues env metadata privacySettings).
Proof. unfold time_claims. discloses_block. Qed.

Lemma location_claims_disclose metadata privacySettings m :
  discloses m (generateOriginalValues env metadata privacySettings) →
  discloses (location_claims env metadata privacySettings m)
            (generateOriginalValues env metadata privacySettings).
Proof. unfold location_claims. discloses_block. Qed.

Lemma device_claims_disclose metadata privacySettings m :
  discloses m (generateOriginalValues env metadata privacySettings) →
  discloses (device_claims env metadata privacySettings m)
            (generateOriginalValues env metadata privacySettings).
Proof. unfold device_claims. discloses_block. Qed.

Lemma identity_claims_disclose privacySettings m o :
  discloses m o → discloses (identity_claims privacySettings m) o.
Proof. unfold identity_claims. discloses_block. Qed.

Lemma image_claims_disclose metadata privacySettings m :
  discloses m (generateOriginalValues env metadata privacySettings) →
  discloses (image_claims metadata privacySettings m)
            (generateOriginalValues env metadata privacySettings).
Proof. unfold image_claims. discloses_block. Qed.

Lemma time_lock_claims_disclose privacySettings m o :
  discloses m o → discloses (time_lock_claims env privacySettings m) o.
Proof. unfold time_lock_claims. discloses_block. Qed.

Lemma receiver_lock_claims_disclose privacySettings m o :
  discloses m o → discloses (receiver_lock_claims privacySettings m) o.
Proof. unfold receiver_lock_claims. discloses_block. Qed.

Lemma public_claims_disclose metadata privacySettings :
  discloses (generatePublicClaims env metadata privacySettings)
            (generateOriginalValues env metadata privacySettings).
Proof.
  unfold generatePublicClaims. cbv zeta.
  apply receiver_lock_claims_disclose, time_lock_claims_disclose,
    image_claims_disclose, identity_claims_disclose, device_claims_disclose,
    location_claims_disclose, time_claims_disclose, discloses_empty.
Qed.

Lemma payload_keys_not_public metadata privacySettings key :
  key ∈ payload_keys →
  generatePublicClaims env metadata privacySettings !! key = None.
Proof.
  unfold payload_keys. intros Hkey.
  unfold generatePublicClaims. cbv zeta.
  repeat (apply elem_of_cons in Hkey as [-> | Hkey]);
    try (inversion Hkey; fail);
    rewrite receiver_lock_claims_frame, time_lock_claims_frame,
      image_claims_frame, identity_claims_frame, device_claims_frame,
      location_claims_frame, time_claims_frame by not_in_list;
    apply lookup_empty.
Qed.
End DisclosureProofs.

(** X4. What a capsule discloses of the photo is what its vault holds:
    every entry of the [public_claims] of the capsule that
    [generateZKCapsule] returns, apart from the circuit results, the
    human-readable claims and the five keys that are no field of the vault
    ([identity_verified], [image_description], [time_lock_until],
    [time_lock_type], [allowed_address]), is an original value of the vault
    under the same key, and the vault holds the commitment that this value
    opens with the salt of the key. *)
Theorem disclosed_values_open_commitments :
  ∀ (env : Env) metadata privacySettings circomProof verificationKey
    ipfsCid ipfsUrl currentTime metadataHash timeWithinMonth locationInRegion
    deviceTrusted photoAuthentic imageContentRevealed claims (w : World),
    ∃ capsule vault w',
      generateZKCapsule env metadata privacySettings circomProof verificationKey
        ipfsCid ipfsUrl currentTime metadataHash timeWithinMonth
        locationInRegion deviceTrusted photoAuthentic imageContentRevealed
        claims w = (Ok capsule, w')
      ∧ storage w' = store_after env (storage w) vault
      ∧ ∀ key value,
          public_claims capsule !! key = Some value →
          key ∉ circuit_result_keys → key ∉ readable_claim_keys →
          key ∉ unvaulted_keys →
          original_values vault !! key = Some value
          ∧ commitments vault !! key
            = Some (poseidonCommitment value (salt_of (salts vault) key)).
Proof.
  intros env metadata privacySettings circomProof verificationKey ipfsCid ipfsUrl
    currentTime metadataHash timeWithinMonth locationInRegion deviceTrusted
    photoAuthentic imageContentRevealed claims w.
  destruct (generateZKCapsule_vault env metadata privacySettings circomProof
              verificationKey ipfsCid ipfsUrl currentTime metadataHash
              timeWithinMonth locationInRegion deviceTrusted photoAuthentic
              imageContentRevealed claims w) as (salts & w' & Hrun & Hst).
  eexists _, _, w'. split; [exact Hrun|]. split; [exact Hst|].
  intros key value Hkey Hcircuit Hreadable Hunvaulted. simpl in *.
  rewrite add_readable_claims_frame in Hkey by exact Hreadable.
  rewrite add_circuit_results_frame in Hkey by exact Hcircuit.
  pose proof (public_claims_disclose env metadata privacySettings key value
                Hkey Hunvaulted) as Horiginal.
  split; [exact Horiginal|].
  rewrite (vault_opens env metadata privacySettings salts key), Horiginal.
  simpl. unfold opened, salt_key.
  destruct (String.eqb key "time_lock_data") eqn:Htime.
  { apply String.eqb_eq in Htime. subst key.
    rewrite payload_keys_not_public in Hkey by in_list.
    discriminate. }
  destruct (String.eqb key "receiver_lock_data") eqn:Hreceiver; [|reflexivity].
  apply String.eqb_eq in Hreceiver. subst key.
  rewrite payload_keys_not_public in Hkey by in_list.
  discriminate.
Qed.

Lemma disclosed_values_open_commitments_witness :
  ∃ capsule vault w',
    generateZKCapsule (Sample.env [] []) Sample.a_photo Sample.only_country
      Sample.a_proof "vk" None None (Some 1700000000000) None
      (Some false) (Some true) (Some false) (Some false) (Some false)
      None (Sample.world ∅ "") = (Ok capsule, w')
    ∧ public_claims capsule !! "location_country" = Some "France"
    ∧ original_values vault !! "location_country" = Some "France"
    ∧ commitments vault !! "location_country"
      = Some (poseidonCommitment "France"
                (salt_of (salts vault) "location_country")).
Proof.
  destruct (disclosed_values_open_commitments (Sample.env [] []) Sample.a_photo
              Sample.only_country Sample.a_proof "vk" None None
              (Some 1700000000000) None (Some false) (Some true)
              (Some false) (Some false) (Some false) None
              (Sample.world ∅ "")) as (capsule & vault & w' & Hrun & _ & Hopen).
  assert (public_claims capsule !! "location_country" = Some "France") as Hclaim.
  { pose proof (f_equal fst Hrun) as Hcapsule. vm_compute in Hcapsule.
    injection Hcapsule as <-. vm_compute. reflexivity. }
  exists capsule, vault, w'. split; [exact Hrun|]. split; [exact Hclaim|].
  apply (Hopen "location_country" "France" Hclaim); not_in_list.
Defined.

Section PayloadProofs.
Context (env : Env).

(** The fields of the photo in the object that [generateOriginalValues]
    builds are none of the locked payloads. *)
Ltac no_payload :=
  repeat match goal with
         | |- context [match location ?m with _ => _ end] => destruct (location m)
         end;
  repeat first
    [ apply lookup_empty
    | etrans; [apply lookup_insert_ne; discriminate|]
    | etrans; [apply set_if_truthy_frame; discriminate|] ].

Lemma original_time_lock_data metadata privacySettings :
  generateOriginalValues env metadata privacySettings !! "time_lock_data"
  = if tl_enabled (timeLock privacySettings)
       && JS.nonempty (tl_lockedData (timeLock privacySettings))
    then Some (tl_lockedData (timeLock privacySettings)) else None.
Proof.
  unfold generateOriginalValues. cbv zeta.
  etrans; [apply insert_if_frame; discriminate|].
  destruct (tl_enabled (timeLock privacySettings)
            && JS.nonempty (tl_lockedData (timeLock privacySettings))).
  - apply lookup_insert_eq.
  - no_payload.
Qed.

Lemma original_receiver_lock_data metadata privacySettings :
  generateOriginalValues env metadata privacySettings !! "receiver_lock_data"
  = if rl_enabled (receiverLock privacySettings)
       && JS.nonempty (rl_encryptedContent (receiverLock privacySettings))
    then Some (rl_encryptedContent (receiverLock privacySettings)) else None.
Proof.
  unfold generateOriginalValues. cbv zeta.
  destruct (rl_enabled (receiverLock privacySettings)
            && JS.nonempty (rl_encryptedContent (receiverLock privacySettings))).
  - apply lookup_insert_eq.
  - etrans; [apply insert_if_frame; discriminate|]. no_payload.
Qed.
End PayloadProofs.

(** X5. The locked payloads stay in the vault.  Whatever the settings,
    the capsule that [generateZKCapsule] returns carries neither
    [time_lock_data] nor [receiver_lock_data] in its [public_claims]; the
    vault written for it holds the payload of the time lock, and that of
    the receiver lock, as an original value exactly when the lock is
    enabled and its payload is not empty, in clear, with the commitment
    that the payload opens under the salt [time_lock], respectively
    [receiver_lock]. *)
Theorem locked_payloads_stay_in_vault :
  ∀ (env : Env) metadata privacySettings circomProof verificationKey
    ipfsCid ipfsUrl currentTime metadataHash timeWithinMonth locationInRegion
    deviceTrusted photoAuthentic imageContentRevealed claims (w : World),
    let time_payload :=
      if tl_enabled (timeLock privacySettings)
         && JS.nonempty (tl_lockedData (timeLock privacySettings))
      then Some (tl_lockedData (timeLock privacySettings)) else None in
    let receiver_payload :=
      if rl_enabled (receiverLock privacySettings)
         && JS.nonempty (rl_encryptedContent (receiverLock privacySettings))
      then Some (rl_encryptedContent (receiverLock privacySettings)) else None in
    ∃ capsule vault w',
      generateZKCapsule env metadata privacySettings circomProof verificationKey
        ipfsCid ipfsUrl currentTime metadataHash timeWithinMonth
        locationInRegion deviceTrusted photoAuthentic imageContentRevealed
        claims w = (Ok capsule, w')
      ∧ storage w' = store_after env (storage w) vault
      ∧ public_claims capsule !! "time_lock_data" = None
      ∧ public_claims capsule !! "receiver_lock_data" = None
      ∧ original_values vault !! "time_lock_data" = time_payload
      ∧ original_values vault !! "receiver_lock_data" = receiver_payload
      ∧ commitments vault !! "time_lock_data"
        = (λ payload, poseidonCommitment payload (salt_of (salts vault) "time_lock"))
          <$> time_payload
      ∧ commitments vault !! "receiver_lock_data"
        = (λ payload,
             poseidonCommitment payload (salt_of (salts vault) "receiver_lock"))
          <$> receiver_payload.
Proof.
  intros env metadata privacySettings circomProof verificationKey ipfsCid ipfsUrl
    currentTime metadataHash timeWithinMonth locationInRegion deviceTrusted
    photoAuthentic imageContentRevealed claims w time_payload receiver_payload.
  destruct (generateZKCapsule_vault env metadata privacySettings circomProof
              verificationKey ipfsCid ipfsUrl currentTime metadataHash
              timeWithinMonth locationInRegion deviceTrusted photoAuthentic
              imageContentRevealed claims w) as (salts & w' & Hrun & Hst).
  eexists _, _, w'. split; [exact Hrun|]. split; [exact Hst|]. simpl.
  assert (∀ key, key ∈ payload_keys →
            add_readable_claims claims
              (add_circuit_results timeWithinMonth locationInRegion deviceTrusted
                 photoAuthentic imageContentRevealed
                 (generatePublicClaims env metadata privacySettings)) !! key
            = None) as Hprivate.
  { intros key Hkey.
    assert ((key ∉ readable_claim_keys) ∧ (key ∉ circuit_result_keys)) as [H1 H2].
    { unfold payload_keys in Hkey.
      repeat (apply elem_of_cons in Hkey as [-> | Hkey];
              [split; not_in_list|]).
      inversion Hkey. }
    rewrite add_readable_claims_frame by exact H1.
    rewrite add_circuit_results_frame by exact H2.
    apply payload_keys_not_public, Hkey. }
  split; [apply Hprivate; unfold payload_keys; in_list|].
  split; [apply Hprivate; unfold payload_keys; in_list|].
  split; [apply original_time_lock_data|].
  split; [apply original_receiver_lock_data|].
  rewrite !(vault_opens env metadata privacySettings salts).
  rewrite original_time_lock_data, original_receiver_lock_data.
  split; reflexivity.
Qed.

(** X6. The levels [hour] and [week] disclose no date.  With the time
    proof enabled at the level of the hour or of the week,
    [generatePublicClaims] writes none of [date_exact], [date_day],
    [date_month] and [date_year]: for the raw time these two levels are as
    a time proof that is off. *)
Theorem coarse_time_levels_disclose_no_date :
  ∀ (env : Env) (metadata : PhotoMetadata) (privacySettings : PrivacySettings)
    (field : string),
    tp_level (timeProof privacySettings) = T_hour
    ∨ tp_level (timeProof privacySettings) = T_week →
    field ∈ time_fields →
    generatePublicClaims env metadata privacySettings !! field = None.
Proof.
  intros env metadata privacySettings field Hlevel Hfield.
  assert ((field ∉ location_fields) ∧ (field ∉ device_fields)
          ∧ (field ∉ identity_fields) ∧ (field ∉ image_fields)
          ∧ (field ∉ time_lock_fields) ∧ (field ∉ receiver_lock_fields))
    as (H1 & H2 & H3 & H4 & H5 & H6).
  { unfold time_fields in Hfield.
    repeat (apply elem_of_cons in Hfield as [-> | Hfield];
            [repeat split; not_in_list|]).
    inversion Hfield. }
  unfold generatePublicClaims. cbv zeta.
  rewrite receiver_lock_claims_frame, time_lock_claims_frame,
    image_claims_frame, identity_claims_frame, device_claims_frame,
    location_claims_frame by assumption.
  unfold time_claims.
  destruct (tp_enabled (timeProof privacySettings)); [|apply lookup_empty].
  destruct Hlevel as [-> | ->]; apply lookup_empty.
Qed.

Lemma coarse_time_levels_disclose_no_date_witness :
  generatePublicClaims (Sample.env [] []) Sample.a_photo hour_settings
    !! "date_day" = None
  ∧ generateTimeClaim (Sample.env [] []) (timestamp Sample.a_photo) "hour"
    = "Within hour of day:19675 22:00".
Proof.
  split.
  - apply (coarse_time_levels_disclose_no_date (Sample.env [] []) Sample.a_photo
             hour_settings "date_day").
    + left. reflexivity.
    + unfold time_fields. in_list.
  - vm_compute. reflexivity.
Defined.

(** ** The utilities of the salt screen *)

Lemma char_at_hex i :
  0 <= i < 16 → ∃ c, Flow.char_at i = String c "" ∧ is_hex_digit c = true.
Proof.
  intros Hi.
  assert (i = 0 ∨ i = 1 ∨ i = 2 ∨ i = 3 ∨ i = 4 ∨ i = 5 ∨ i = 6 ∨ i = 7
          ∨ i = 8 ∨ i = 9 ∨ i = 10 ∨ i = 11 ∨ i = 12 ∨ i = 13 ∨ i = 14
          ∨ i = 15) as Hcases by lia.
  repeat (destruct Hcases as [-> | Hcases]); try subst i;
    eexists; split; reflexivity.
Qed.

Lemma all_hex_snoc s c :
  all_hex s = true → is_hex_digit c = true → all_hex (s +:+ String c "") = true.
Proof.
  intros Hs Hc. induction s as [|a s IH].
  - simpl. rewrite Hc. reflexivity.
  - change (is_hex_digit a && all_hex (s +:+ String c "") = true).
    simpl in Hs. apply andb_prop in Hs as [Ha Hs].
    rewrite Ha, IH by assumption. reflexivity.
Qed.

Section FlowProofs.
Context (env : Env).
Hypothesis random_in_unit : ∀ i, in_unit (Math_random_at env i).

Lemma chars_loop_spec n : ∀ prefix acc w,
  all_hex acc = true →
  ∃ digits,
    Flow.chars_loop env n (prefix +:+ acc) w
    = (Ok (prefix +:+ digits),
       mkWorld (storage w) (rng_pos w + n) (clock_pos w) (console w) (alerts w)
         (maker w) (verify w) (details w))
    ∧ all_hex digits = true
    ∧ String.length digits = (String.length acc + n)%nat.
Proof.
  induction n as [|n IH]; intros prefix acc w Hacc.
  - exists acc. simpl. unfold ret. rewrite !Nat.add_0_r. destruct w. auto.
  - cbn [Flow.chars_loop]. unfold bind, Math_random.
    destruct (char_at_hex (floor_scaled (Math_random_at env (rng_pos w))
                             (Z.of_nat (String.length Flow.chars))))
      as (c & Hc & Hhex).
    { apply floor_scaled_range; [apply random_in_unit | reflexivity]. }
    rewrite Hc, append_assoc.
    destruct (IH prefix (acc +:+ String c "") (with_rng w)) as (digits & Hrun & Hall & Hlen).
    { now apply all_hex_snoc. }
    exists digits. rewrite Hrun. simpl.
    split; [do 2 f_equal; f_equal; lia|]. split; [exact Hall|].
    rewrite Hlen, length_snoc. lia.
Qed.
End FlowProofs.

(** X7. [generateTransactionHash] returns [0x] followed by sixty-four
    lower-case hexadecimal digits, for sixty-four values of the random
    source and no other effect, provided the random source returns values
    in [0, 1). *)
Theorem generateTransactionHash_format :
  ∀ (env : Env) (w : World),
    (∀ i, in_unit (Math_random_at env i)) →
    ∃ digits,
      Flow.generateTransactionHash env w
      = (Ok ("0x" +:+ digits),
         mkWorld (storage w) (rng_pos w + 64) (clock_pos w) (console w)
           (alerts w) (maker w) (verify w) (details w))
      ∧ all_hex digits = true ∧ String.length digits = 64%nat.
Proof.
  intros env w Hrandom.
  destruct (chars_loop_spec env Hrandom 64 "0x" "" w eq_refl)
    as (digits & Hrun & Hall & Hlen).
  exists digits. split; [exact Hrun | split; [exact Hall | exact Hlen]].
Qed.

Lemma generateTransactionHash_format_witness :
  ∃ digits,
    (Flow.generateTransactionHash (Sample.env [] []) (Sample.world ∅ "")).1
    = Ok ("0x" +:+ digits)
    ∧ all_hex digits = true ∧ String.length digits = 64%nat.
Proof.
  destruct (generateTransactionHash_format (Sample.env [] []) (Sample.world ∅ ""))
    as (digits & Hrun & Hall & Hlen).
  { intros i. unfold in_unit. simpl. apply Z.mod_pos_bound. lia. }
  exists digits. rewrite Hrun. split; [reflexivity | split; [exact Hall | exact Hlen]].
Defined.

(** X8. The [generateSalt] of the salt screen returns thirty-two lower-case
    hexadecimal digits, for thirty-two values of the random source and no
    other effect, provided the random source returns values in [0, 1); so
    it never returns a salt of the capsule pipeline, which has at most nine
    characters. *)
Theorem hex_salt_format :
  ∀ (env : Env) (w : World),
    (∀ i, in_unit (Math_random_at env i)) →
    ∃ salt,
      Flow.generateSalt env w
      = (Ok salt,
         mkWorld (storage w) (rng_pos w + 32) (clock_pos w) (console w)
           (alerts w) (maker w) (verify w) (details w))
      ∧ all_hex salt = true ∧ String.length salt = 32%nat ∧ ¬ is_salt salt.
Proof.
  intros env w Hrandom.
  destruct (chars_loop_spec env Hrandom 32 "" "" w eq_refl)
    as (digits & Hrun & Hall & Hlen).
  exists digits. split; [exact Hrun | split; [exact Hall | split; [exact Hlen|]]].
  intros [_ Hsalt]. simpl in Hlen. lia.
Qed.

Lemma hex_salt_format_witness :
  ∃ salt,
    (Flow.generateSalt (Sample.env [] []) (Sample.world ∅ "")).1 = Ok salt
    ∧ all_hex salt = true ∧ String.length salt = 32%nat.
Proof.
  destruct (hex_salt_format (Sample.env [] []) (Sample.world ∅ ""))
    as (salt & Hrun & Hall & Hlen & _).
  { intros i. unfold in_unit. simpl. apply Z.mod_pos_bound. lia. }
  exists salt. rewrite Hrun. split; [reflexivity | split; [exact Hall | exact Hlen]].
Defined.

(** ** The countdown of the verify screen *)

Lemma last_char_app a t c : last_char t = Some c → last_char (a +:+ t) = Some c.
Proof.
  intros Ht. induction a as [|x a IH]; [exact Ht|].
  change (last_char (String x (a +:+ t)) = Some c).
  simpl. destruct (a +:+ t); [discriminate IH | exact IH].
Qed.

(** X9. While time remains, [formatTimeRemaining] shows the whole days, the
    hour of the day, the minute of the hour and the second of the minute of
    the remaining time, the leading units that are zero being left out, as
    are the seconds once a day or more remains. *)
Theorem formatTimeRemaining_units :
  ∀ milliseconds : Z,
    0 < milliseconds →
    formatTimeRemaining (Some milliseconds)
    = remaining_text (milliseconds / 86400000)
        ((milliseconds / 3600000) mod 24) ((milliseconds / 60000) mod 60)
        ((milliseconds / 1000) mod 60)
    ∧ 0 <= (milliseconds / 3600000) mod 24 < 24
    ∧ 0 <= (milliseconds / 60000) mod 60 < 60
    ∧ 0 <= (milliseconds / 1000) mod 60 < 60
    ∧ 0 <= milliseconds
           - (milliseconds / 86400000 * 86400000
              + (milliseconds / 3600000) mod 24 * 3600000
              + (milliseconds / 60000) mod 60 * 60000
              + (milliseconds / 1000) mod 60 * 1000) < 1000.
Proof.
  intros ms Hms. split.
  - unfold formatTimeRemaining, remaining_text.
    destruct (Z.leb_spec ms 0) as [Hle|_]; [lia|].
    cbv zeta.
    replace (ms / (1000 * 60 * 60 * 24)) with (ms / 86400000) by reflexivity.
    replace (ms mod (1000 * 60 * 60 * 24) / (1000 * 60 * 60))
      with ((ms / 3600000) mod 24)
      by (change (1000 * 60 * 60 * 24) with 86400000;
          change (1000 * 60 * 60) with 3600000;
          Z.to_euclidean_division_equations; lia).
    replace (ms mod (1000 * 60 * 60) / (1000 * 60)) with ((ms / 60000) mod 60)
      by (change (1000 * 60 * 60) with 3600000; change (1000 * 60) with 60000;
          Z.to_euclidean_division_equations; lia).
    replace (ms mod (1000 * 60) / 1000) with ((ms / 1000) mod 60)
      by (change (1000 * 60) with 60000; Z.to_euclidean_division_equations; lia).
    reflexivity.
  - Z.to_euclidean_division_equations. lia.
Qed.

Lemma formatTimeRemaining_units_witness :
  formatTimeRemaining (Some 93784000) = "1d 2h 3m"
  ∧ formatTimeRemaining (Some 7384000) = "2h 3m 4s"
  ∧ formatTimeRemaining (Some 999) = "0s".
Proof.
  split; [|split].
  - rewrite (proj1 (formatTimeRemaining_units 93784000 eq_refl)). reflexivity.
  - rewrite (proj1 (formatTimeRemaining_units 7384000 eq_refl)). reflexivity.
  - rewrite (proj1 (formatTimeRemaining_units 999 eq_refl)). reflexivity.
Defined.

(** X10. [formatTimeRemaining] answers "Unlocked" exactly when no time
    remains: a positive number of milliseconds is never shown as
    "Unlocked", not even the last second, which is shown as "0s". *)
Theorem formatTimeRemaining_unlocked :
  ∀ milliseconds : Z,
    formatTimeRemaining (Some milliseconds) = "Unlocked" ↔ milliseconds <= 0.
Proof.
  intros ms. unfold formatTimeRemaining.
  destruct (Z.leb_spec ms 0) as [Hle|Hgt]; [tauto|].
  split; [|lia]. intros H. apply (f_equal last_char) in H. exfalso.
  cbv zeta in H.
  repeat match type of H with
         | context [if ?b then _ else _] => destruct b
         end;
    match type of H with
    | last_char ?s = _ =>
        first [ assert (last_char s = Some "m"%char) as H'
                  by (repeat apply last_char_app; reflexivity)
              | assert (last_char s = Some "s"%char) as H'
                  by (repeat apply last_char_app; reflexivity) ]
    end; rewrite H' in H; discriminate H.
Qed.

(** ** The verifier reads and never writes *)

(** [keeps_store], the named parts of a computation being tried first. *)
Ltac keeps_parts part :=
  repeat first
    [ part
    | apply keeps_ret | apply keeps_throw | apply keeps_lift
    | apply keeps_update; intros ?; reflexivity
    | apply keeps_bind; [|intros ?]
    | apply keeps_try_catch; [|intros ?]
    | apply keeps_finally
    | match goal with
      | |- keeps_store (if ?b then _ else _) => destruct b
      | |- keeps_store (match ?x with _ => _ end) => destruct x
      end ].

Section ReadOnlyProofs.
Context (env : Env).

Lemma keeps_getItem key : keeps_store (AsyncStorage_getItem env key).
Proof.
  constructor. intros w. unfold AsyncStorage_getItem.
  destruct (getItem_rejects env (storage w) key); reflexivity.
Qed.

Ltac keeps_leaf :=
  first [ apply keeps_console_log | apply keeps_console_error
        | apply keeps_Alert | apply keeps_getItem
        | apply keeps_fetchGlobalTime ].

Lemma keeps_loadPrivateVault capsuleId :
  keeps_store (loadPrivateVault env capsuleId).
Proof. unfold loadPrivateVault. keeps_parts keeps_leaf. Qed.

Lemma keeps_and_then a b : keeps_store b → keeps_store (and_then a b).
Proof. intros Hb. unfold and_then. destruct (JV.truthy a); [exact Hb | apply keeps_ret]. Qed.

Lemma keeps_get v key : keeps_store (get v key).
Proof. apply keeps_lift. Qed.

Lemma keeps_checkTimeLockStatus capsule :
  keeps_store (checkTimeLockStatus env capsule).
Proof.
  unfold checkTimeLockStatus, setTimeLockState.
  keeps_parts ltac:(first [ keeps_leaf | apply keeps_loadPrivateVault
                          | apply keeps_and_then | apply keeps_get ]).
Qed.

Lemma keeps_checkWalletLockStatus capsule :
  keeps_store (checkWalletLockStatus env capsule).
Proof.
  unfold checkWalletLockStatus, setWalletLockState.
  keeps_parts ltac:(first [ keeps_leaf | apply keeps_loadPrivateVault
                          | apply keeps_and_then | apply keeps_get ]).
Qed.

Lemma keeps_verification_failed : keeps_store verification_failed.
Proof.
  unfold verification_failed, setVerificationResult. keeps_parts keeps_leaf.
Qed.

Lemma keeps_verifyParsed parsed : keeps_store (verifyParsed env parsed).
Proof.
  unfold verifyParsed, setParsedCapsule, setVerificationResult,
    setShowResultsModal.
  keeps_parts ltac:(first [ keeps_leaf | apply keeps_checkTimeLockStatus
                          | apply keeps_checkWalletLockStatus
                          | apply keeps_verification_failed
                          | apply keeps_and_then | apply keeps_get ]).
Qed.

Lemma keeps_resolveCapsuleData capsuleData :
  keeps_store (resolveCapsuleData env capsuleData).
Proof. unfold resolveCapsuleData, setIsVerifying. keeps_parts keeps_leaf. Qed.

Lemma keeps_verifyProof : keeps_store (verifyProof env).
Proof.
  constructor. intros w. unfold verifyProof.
  destruct (negb (JS.nonempty (JV.trim (proofData (verify w))))).
  - reflexivity.
  - apply kept.
    unfold setIsVerifying, setVerificationResult, setParsedCapsule,
      setShowFallingPhrases.
    keeps_parts ltac:(first [ keeps_leaf | apply keeps_resolveCapsuleData
                            | apply keeps_verifyParsed
                            | apply keeps_verification_failed ]).
Qed.
End ReadOnlyProofs.

(** X11. Verification reads and never writes.  Whatever the input, the host
    and the store are, [verifyProof] completes without throwing to its
    caller and leaves the store as it was: no vault and no gallery entry is
    created, changed or removed by verifying a capsule. *)
Theorem verifyProof_reads_only :
  ∀ (env : Env) (w : World),
    (verifyProof env w).1 = Ok ()
    ∧ storage (verifyProof env w).2 = storage w.
Proof.
  intros env w. split.
  - unfold verifyProof.
    destruct (negb (JS.nonempty (JV.trim (proofData (verify w))))); [reflexivity|].
    unfold bind at 1 2 3 4 5. simpl.
    unfold finally, try_catch.
    match goal with
    | |- context [bind ?m ?k ?w0] => destruct (bind m k w0) as [[[]|e] w1]
    end; reflexivity.
  - apply kept, keeps_verifyProof.
Qed.

(** ** The verifier: inputs that are no capsule *)

Lemma trimStart_spaces s : all_spaces s = true → JV.trimStart s = "".
Proof.
  induction s as [|c s IH]; [reflexivity|]. simpl.
  intros H. apply andb_prop in H as [Hc Hs]. rewrite Hc. apply IH, Hs.
Qed.

(** X12. An input made of white space only (the empty input among them) is
    not verified at all: [verifyProof] shows the "Error" alert asking for
    capsule data and changes nothing else, neither the verdict nor the
    console nor the state of the locks.  This is what happens right after
    [clearResults], which empties the input. *)
Theorem verifyProof_blank_input :
  ∀ (env : Env) (w : World),
    (all_spaces (proofData (verify w)) = true →
     verifyProof env w
     = (Ok (), with_alert "Error" "Please enter capsule data to verify" w))
    ∧ ∃ w1,
        clearResults w = (Ok (), w1)
        ∧ verificationResult (verify w1) = None
        ∧ verifyProof env w1
          = (Ok (), with_alert "Error" "Please enter capsule data to verify" w1).
Proof.
  intros env w. split.
  - intros Hblank. unfold verifyProof, JV.trim.
    rewrite (trimStart_spaces _ Hblank). reflexivity.
  - eexists. split; [reflexivity|]. split; reflexivity.
Qed.

Lemma verifyProof_blank_input_witness :
  verifyProof (Sample.env [] []) (Sample.world ∅ "  ")
  = (Ok (), with_alert "Error" "Please enter capsule data to verify"
              (Sample.world ∅ "  ")).
Proof.
  apply (proj1 (verifyProof_blank_input (Sample.env [] []) (Sample.world ∅ "  "))).
  reflexivity.
Defined.

Section RejectionProofs.
Context (env : Env).

(** A parsed value that is no object is rejected by [verifyParsed]. *)
Lemma verifyParsed_no_object parsed w :
  (∀ fields, parsed ≠ VObject fields) →
  ∃ e, verifyParsed env parsed w = (Throw e, w).
Proof.
  intros Hparsed. unfold verifyParsed, get, lift, bind, throw, ret.
  destruct parsed; simpl; try (eexists; reflexivity).
  exfalso. eapply Hparsed. reflexivity.
Qed.
End RejectionProofs.

(** X13. A text that is not the JSON text of an object is reported invalid:
    when the input (which is not an IPFS URL) does not parse, or parses to
    [null], a boolean, a number, a string or an array, [verifyProof]
    completes normally with the verdict [invalid], the "Verification
    Failed" alert, one logged error, no parsed capsule, and the results
    modal and the lock states as they were. *)
Theorem verifyProof_rejects_non_objects :
  ∀ (env : Env) (w : World),
    JS.nonempty (JV.trim (proofData (verify w))) = true →
    isIpfsUrl (JV.trim (proofData (verify w))) = false →
    parses_to_object env (JV.trim (proofData (verify w))) = false →
    ∃ w' line,
      verifyProof env w = (Ok (), w')
      ∧ verificationResult (verify w') = Some invalid
      ∧ parsedCapsule (verify w') = None
      ∧ isVerifying (verify w') = false
      ∧ showResultsModal (verify w') = showResultsModal (verify w)
      ∧ timeLockState (verify w') = timeLockState (verify w)
      ∧ walletLockState (verify w') = walletLockState (verify w)
      ∧ alerts w'
        = ("Verification Failed", "Invalid capsule format or corrupted data")
            :: alerts w
      ∧ console w' = line :: "Setting falling phrases to visible" :: console w.
Proof.
  intros env w Hinput Hurl Hparse.
  unfold verifyProof. rewrite Hinput. simpl negb. cbv iota.
  unfold bind at 1 2 3 4 5. simpl.
  unfold finally, try_catch, bind at 1, resolveCapsuleData.
  rewrite Hurl. unfold ret at 1. cbv beta iota.
  unfold parses_to_object in Hparse.
  destruct (JSON_parse env (JV.trim (proofData (verify w)))) as [parsed|].
  - unfold bind at 1, ret at 1. cbv beta iota.
    match goal with
    | |- context [verifyParsed env parsed ?w0] =>
        destruct (verifyParsed_no_object env parsed w0) as (e & Hrun)
    end.
    { intros fields ->. discriminate Hparse. }
    rewrite Hrun. simpl. eexists _, _. split; [reflexivity|]. simpl.
    repeat split.
  - simpl. eexists _, _. split; [reflexivity|]. simpl. repeat split.
Qed.

Lemma verifyProof_rejects_non_objects_witness :
  ∃ w' line,
    verifyProof (Sample.env [("null", VNull)] []) (Sample.world ∅ " null ")
    = (Ok (), w')
    ∧ verificationResult (verify w') = Some invalid
    ∧ console w' = line :: "Setting falling phrases to visible" :: [].
Proof.
  destruct (verifyProof_rejects_non_objects (Sample.env [("null", VNull)] [])
              (Sample.world ∅ " null "))
    as (w' & line & Hrun & Hresult & _ & _ & _ & _ & _ & _ & Hconsole);
    [reflexivity | reflexivity | reflexivity |].
  exists w', line. split; [exact Hrun|]. split; [exact Hresult | exact Hconsole].
Defined.

(** X14. A capsule that cannot be fetched gets no verdict.  When the input
    is an IPFS URL and the request fails or is answered with an error
    status, [verifyProof] completes normally, shows the "IPFS Error" alert
    and leaves the verdict empty, neither [valid] nor [invalid]; the
    spinner is stopped and the lock states are as they were. *)
Theorem verifyProof_unreachable_capsule :
  ∀ (env : Env) (w : World),
    JS.nonempty (JV.trim (proofData (verify w))) = true →
    isIpfsUrl (JV.trim (proofData (verify w))) = true →
    fetch_fails env (JV.trim (proofData (verify w))) = true →
    ∃ w',
      verifyProof env w = (Ok (), w')
      ∧ verificationResult (verify w') = None
      ∧ parsedCapsule (verify w') = None
      ∧ isVerifying (verify w') = false
      ∧ showResultsModal (verify w') = showResultsModal (verify w)
      ∧ timeLockState (verify w') = timeLockState (verify w)
      ∧ walletLockState (verify w') = walletLockState (verify w)
      ∧ alerts w'
        = ("IPFS Error",
           "Failed to fetch capsule data from IPFS URL. Please check the URL and try again.")
            :: alerts w.
Proof.
  intros env w Hinput Hurl Hfetch.
  unfold verifyProof. rewrite Hinput. simpl negb. cbv iota.
  unfold bind at 1 2 3 4 5. simpl.
  unfold finally, try_catch, bind at 1, resolveCapsuleData.
  rewrite Hurl. unfold fetch_fails in Hfetch.
  destruct (fetch env (JV.trim (proofData (verify w)))) as [response|].
  - apply negb_true_iff in Hfetch. rewrite Hfetch. simpl.
    eexists. split; [reflexivity|]. simpl. repeat split.
  - simpl. eexists. split; [reflexivity|]. simpl. repeat split.
Qed.

Lemma verifyProof_unreachable_capsule_witness :
  ∃ w',
    verifyProof (Sample.env [] []) (Sample.world ∅ "https://ipfs.io/ipfs/Qm1")
    = (Ok (), w')
    ∧ verificationResult (verify w') = None
    ∧ hd_error (alerts w')
      = Some ("IPFS Error",
              "Failed to fetch capsule data from IPFS URL. Please check the URL and try again.").
Proof.
  destruct (verifyProof_unreachable_capsule (Sample.env [] [])
              (Sample.world ∅ "https://ipfs.io/ipfs/Qm1"))
    as (w' & Hrun & Hresult & _ & _ & _ & _ & _ & Halerts);
    [reflexivity | reflexivity | reflexivity |].
  exists w'. split; [exact Hrun|]. split; [exact Hresult|].
  rewrite Halerts. reflexivity.
Defined.

(** ** The verifier: the clock *)

Section ClockProofs.
Context (env : Env).

Lemma try_time_api_fails api w :
  fetch_fails env api = true →
  ∃ w', try_time_api env api w = (Ok None, w')
        ∧ alerts w' = alerts w ∧ clock_pos w' = clock_pos w
        ∧ storage w' = storage w.
Proof.
  unfold fetch_fails, try_time_api, try_catch. intros Hfail.
  destruct (fetch env api) as [response|].
  - apply negb_true_iff in Hfail. rewrite Hfail. eexists. repeat split.
  - simpl. eexists. repeat split.
Qed.

Lemma time_api_loop_fails apis :
  (∀ api, api ∈ apis → fetch_fails env api = true) →
  ∀ w, ∃ w', time_api_loop env apis w = (Ok None, w')
             ∧ alerts w' = alerts w ∧ clock_pos w' = clock_pos w
             ∧ storage w' = storage w.
Proof.
  induction apis as [|api apis IH]; intros Hfail w; simpl.
  - eexists. repeat split.
  - destruct (try_time_api_fails api w) as (w1 & Hrun & Ha1 & Hc1 & Hs1).
    { apply Hfail. apply list_elem_of_here. }
    rewrite (bind_ok _ _ _ _ _ Hrun).
    destruct (IH (λ a Ha, Hfail a (list_elem_of_further _ _ _ Ha)) w1)
      as (w' & Hloop & Ha & Hc & Hs).
    exists w'. split; [exact Hloop|]. repeat split; congruence.
Qed.
End ClockProofs.

(** X15. With no time server answering, the time lock is decided by the
    clock of the device: when every request of [fetchGlobalTime] fails or
    is answered with an error status, it returns the device time, after the
    "Time Sync Warning" alert, with the loading flag down and the store
    untouched. *)
Theorem fetchGlobalTime_device_fallback :
  ∀ (env : Env) (w : World),
    (∀ api, api ∈ timeAPIs → fetch_fails env api = true) →
    ∃ w',
      fetchGlobalTime env w = (Ok (ValidDate (Date_now_at env (clock_pos w))), w')
      ∧ alerts w'
        = ("Time Sync Warning",
           "Could not verify with global time servers. Using device time as fallback.")
            :: alerts w
      ∧ isLoadingTime (verify w') = false
      ∧ clock_pos w' = S (clock_pos w)
      ∧ storage w' = storage w.
Proof.
  intros env w Hfail.
  destruct (time_api_loop_fails env timeAPIs Hfail
              (with_verify
                 (λ s, mkVerifyScreen (proofData s) (verificationResult s)
                         (isVerifying s) (parsedCapsule s) (showResultsModal s)
                         (showFallingPhrases s) (timeLockState s)
                         (walletLockState s) true) w))
    as (w1 & Hloop & Halerts & Hclock & Hstore).
  unfold fetchGlobalTime, finally, try_catch.
  unfold bind at 1. unfold setIsLoadingTime at 1, update at 1. cbv beta iota.
  rewrite (bind_ok _ _ _ _ _ Hloop).
  unfold bind, console_log, Alert_alert, device_time, Date_now, setIsLoadingTime,
    update, ret. simpl.
  eexists. split; [rewrite Hclock; reflexivity|]. simpl.
  rewrite Halerts, Hclock, Hstore. repeat split.
Qed.

Lemma fetchGlobalTime_device_fallback_witness :
  ∃ w',
    fetchGlobalTime (Sample.env [] []) (Sample.world ∅ "")
    = (Ok (ValidDate 1700000000000), w')
    ∧ clock_pos w' = 1%nat.
Proof.
  destruct (fetchGlobalTime_device_fallback (Sample.env [] []) (Sample.world ∅ ""))
    as (w' & Hrun & _ & _ & Hclock & _).
  { intros api _. reflexivity. }
  exists w'. split; [exact Hrun | exact Hclock].
Defined.

(** ** The verifier: the wallet lock *)

Section WalletLockProofs.
Context (env : Env).

(** What [checkWalletLockStatus] reads in a vault. *)
Lemma receiver_lock_data_read vault w :
  well_formed_vault vault →
  ∃ data,
    and_then vault
      (original_values <- get vault "original_values" ;;
       get original_values "receiver_lock_data") w = (Ok data, w)
    ∧ (if JV.truthy data then data else VNull)
      = stored_payload "receiver_lock_data" vault.
Proof.
  intros [-> | (fields & ov & -> & Hov)].
  - exists VNull. split; reflexivity.
  - unfold and_then, bind, get, lift, stored_payload. simpl. rewrite Hov. simpl.
    destruct (JV.assoc "receiver_lock_data" ov) as [data|]; simpl.
    + exists data. split; reflexivity.
    + exists VUndefined. split; reflexivity.
Qed.
End WalletLockProofs.

(** X16. Verifying a capsule never unlocks a wallet lock, and loads the
    locked content all the same.  For a parsed capsule with its
    [public_claims] and [capsule_id], whose vault entry is missing or well
    formed, [checkWalletLockStatus] completes normally; when the capsule
    carries an [allowed_address] the state is locked to that address, with
    no connected wallet and nothing decrypted, and the content held as
    encrypted is the [original_values.receiver_lock_data] of the vault as
    it is stored; without an [allowed_address] the state is the empty,
    unlocked one.  The store is untouched. *)
Theorem wallet_lock_state :
  ∀ (env : Env) (w : World) (capsule public_claims allowed_address capsule_id : value),
    JV.getProp capsule "public_claims" = Ok public_claims →
    JV.getProp public_claims "allowed_address" = Ok allowed_address →
    JV.getProp capsule "capsule_id" = Ok capsule_id →
    well_formed_vault (stored_vault env (storage w) capsule_id) →
    ∃ w',
      checkWalletLockStatus env capsule w = (Ok (), w')
      ∧ walletLockState (verify w')
        = (if JV.truthy allowed_address
           then mkWalletLockState true allowed_address None
                  (stored_payload "receiver_lock_data"
                     (stored_vault env (storage w) capsule_id))
                  VNull false
           else mkWalletLockState false VNull None VNull VNull false)
      ∧ storage w' = storage w.
Proof.
  intros env w capsule public_claims allowed_address capsule_id
    Hclaims Haddress Hid Hvault.
  unfold checkWalletLockStatus.
  rewrite (bind_ok _ _ _ _ _ (get_ok _ _ _ w Hclaims)).
  rewrite (bind_ok _ _ _ _ _ (get_ok _ _ _ w Haddress)).
  destruct (JV.truthy allowed_address).
  - rewrite (bind_ok _ _ _ _ _ (get_ok _ _ _ w Hid)).
    destruct (loadPrivateVault_spec env capsule_id w) as (w2 & Hload & Hverify & Hstore).
    destruct (receiver_lock_data_read
                (stored_vault env (storage w) capsule_id) w2 Hvault)
      as (data & Hread & Hpayload).
    rewrite <- Hpayload.
    rewrite (bind_ok _ _ _ _ _ Hload).
    rewrite (bind_ok _ _ _ _ _ Hread).
    destruct (JV.truthy data); unfold bind, console_log, setWalletLockState,
      update, ret; simpl;
      (eexists; split; [reflexivity|]; simpl; split; [reflexivity | exact Hstore]).
  - unfold setWalletLockState, update. eexists. split; [reflexivity|].
    simpl. split; reflexivity.
Qed.

Lemma wallet_lock_state_witness :
  ∃ w',
    checkWalletLockStatus wallet_env wallet_locked_capsule wallet_world = (Ok (), w')
    ∧ walletLockState (verify w') = wallet_locked_state.
Proof.
  destruct (wallet_lock_state wallet_env wallet_world wallet_locked_capsule
              (VObject [("allowed_address", VString "0xAbC")])
              (VString "0xAbC") (VString "5a30c044"))
    as (w' & Hrun & Hstate & _).
  - reflexivity.
  - reflexivity.
  - reflexivity.
  - right. eexists _, _. split; vm_compute; reflexivity.
  - exists w'. split; [exact Hrun|]. rewrite Hstate. vm_compute. reflexivity.
Defined.

(** ** The verifier: connecting a wallet *)

Ltac wallet_run :=
  unfold connectWallet, try_catch, bind, lift, ret, Alert_alert,
    setIsConnecting, updateWalletLockState, update, Math_random,
    console_error, value_toLowerCase, string_of.

(** X17. Connecting a wallet never throws, never writes to the store and
    never changes the address the capsule is locked to nor the content held
    as encrypted, whatever the user chooses and whatever the state is; and
    it keeps the lock sound: if a locked state showed no content before, a
    locked state shows no content after. *)
Theorem connectWallet_keeps_lock_sound :
  ∀ (env : Env) (toLowerCase : string → string) (random_address : draw → string)
    (userChoice : WalletChoice) (w : World),
    ∃ w',
      connectWallet env toLowerCase random_address userChoice w = (Ok (), w')
      ∧ storage w' = storage w
      ∧ allowedAddress (walletLockState (verify w'))
        = allowedAddress (walletLockState (verify w))
      ∧ encryptedContent (walletLockState (verify w'))
        = encryptedContent (walletLockState (verify w))
      ∧ (shows_nothing_while_locked (walletLockState (verify w)) →
         shows_nothing_while_locked (walletLockState (verify w'))).
Proof.
  intros env toLowerCase random_address userChoice w.
  unfold shows_nothing_while_locked. wallet_run.
  destruct (JV.truthy (allowedAddress (walletLockState (verify w)))); simpl.
  2: { eexists. split; [reflexivity|]. auto. }
  destruct userChoice; simpl.
  - destruct (allowedAddress (walletLockState (verify w))) eqn:Haddr;
      simpl; try (eexists; split; [reflexivity|]; simpl; auto; fail).
    rewrite String.eqb_refl. simpl.
    destruct (JV.truthy (encryptedContent (walletLockState (verify w))));
      simpl; eexists; (split; [reflexivity|]); simpl; rewrite ?Haddr;
      repeat split; discriminate.
  - destruct (allowedAddress (walletLockState (verify w))) eqn:Haddr;
      simpl; try (eexists; split; [reflexivity|]; simpl; auto; fail).
    destruct (String.eqb _ _); simpl;
      [destruct (JV.truthy (encryptedContent (walletLockState (verify w))))|];
      simpl; eexists; (split; [reflexivity|]); simpl; rewrite ?Haddr;
      repeat split; try discriminate.
  - eexists. split; [reflexivity|]. simpl. auto.
Qed.

Lemma connectWallet_keeps_lock_sound_witness :
  ∃ w',
    connectWallet wallet_env lower sample_address choose_wrong wallet_locked_world
    = (Ok (), w')
    ∧ shows_nothing_while_locked (walletLockState (verify w')).
Proof.
  destruct (connectWallet_keeps_lock_sound wallet_env lower sample_address
              choose_wrong wallet_locked_world)
    as (w' & Hrun & _ & _ & _ & Hsound).
  exists w'. split; [exact Hrun|]. apply Hsound. intros _. reflexivity.
Defined.

(** X18. The wallet the capsule is locked to opens the lock, and
    decryption is the identity: when the state is locked to the address
    [a] and the user presents that wallet, [connectWallet] unlocks the
    state, records [a] as the connected wallet and shows as decrypted
    content the very value held as encrypted content (nothing when there is
    none), after a "Success!" alert if there is content. *)
Theorem connectWallet_correct_wallet :
  ∀ (env : Env) (toLowerCase : string → string) (random_address : draw → string)
    (w : World) (a : string),
    allowedAddress (walletLockState (verify w)) = VString a →
    JS.nonempty a = true →
    let content := encryptedContent (walletLockState (verify w)) in
    ∃ w',
      connectWallet env toLowerCase random_address choose_correct w = (Ok (), w')
      ∧ walletLockState (verify w')
        = mkWalletLockState false (VString a) (Some a) content
            (if JV.truthy content then content else VNull) false
      ∧ alerts w'
        = ((if JV.truthy content
            then [("Success!", "Wallet connected and content decrypted!")]
            else [])
           ++ ("Wallet Connection Simulation", "Choose a scenario for testing:")
              :: alerts w)%list.
Proof.
  intros env toLowerCase random_address w a Haddr Ha content. subst content.
  wallet_run. rewrite Haddr. simpl. rewrite Ha. simpl.
  rewrite String.eqb_refl. simpl.
  destruct (JV.truthy (encryptedContent (walletLockState (verify w))));
    simpl; eexists; (split; [reflexivity|]); simpl; rewrite ?Haddr; split; reflexivity.
Qed.

Lemma connectWallet_correct_wallet_witness :
  ∃ w',
    connectWallet wallet_env lower sample_address choose_correct wallet_locked_world
    = (Ok (), w')
    ∧ wls_isLocked (walletLockState (verify w')) = false
    ∧ decryptedContent (walletLockState (verify w')) = VString "secret-Y".
Proof.
  destruct (connectWallet_correct_wallet wallet_env lower sample_address
              wallet_locked_world "0xAbC" eq_refl eq_refl)
    as (w' & Hrun & Hstate & _).
  exists w'. split; [exact Hrun|]. rewrite Hstate. split; reflexivity.
Defined.

(** X19. Another wallet does not open the lock: when the state is locked to
    the address [a] and the user presents a wallet whose address differs
    from [a] even when both are put in lower case, [connectWallet] records
    that wallet, keeps the state locked, shows no content and raises the
    "Access Denied" alert. *)
Theorem connectWallet_wrong_wallet :
  ∀ (env : Env) (toLowerCase : string → string) (random_address : draw → string)
    (w : World) (a : string),
    allowedAddress (walletLockState (verify w)) = VString a →
    JS.nonempty a = true →
    let presented := random_address (Math_random_at env (rng_pos w)) in
    toLowerCase presented ≠ toLowerCase a →
    ∃ w',
      connectWallet env toLowerCase random_address choose_wrong w = (Ok (), w')
      ∧ walletLockState (verify w')
        = mkWalletLockState true (VString a) (Some presented)
            (encryptedContent (walletLockState (verify w))) VNull false
      ∧ alerts w'
        = ("Access Denied", "This wallet is not authorized to view this content.")
            :: ("Wallet Connection Simulation", "Choose a scenario for testing:")
            :: alerts w.
Proof.
  intros env toLowerCase random_address w a Haddr Ha presented Hdiffer.
  subst presented.
  wallet_run. rewrite Haddr. simpl. rewrite Ha. simpl.
  apply String.eqb_neq in Hdiffer. rewrite Hdiffer. simpl.
  eexists. split; [reflexivity|]. simpl. rewrite ?Haddr. split; reflexivity.
Qed.

Lemma connectWallet_wrong_wallet_witness :
  ∃ w',
    connectWallet wallet_env lower sample_address choose_wrong wallet_locked_world
    = (Ok (), w')
    ∧ wls_isLocked (walletLockState (verify w')) = true
    ∧ connectedWallet (walletLockState (verify w')) = Some "0x0"
    ∧ decryptedContent (walletLockState (verify w')) = VNull.
Proof.
  destruct (connectWallet_wrong_wallet wallet_env lower sample_address
              wallet_locked_world "0xAbC" eq_refl eq_refl)
    as (w' & Hrun & Hstate & _).
  { vm_compute. discriminate. }
  exists w'. split; [exact Hrun|]. rewrite Hstate. repeat split.
Defined.

(** ** The editor of the gallery *)

Lemma revealed_of_write_flags r claims : revealed_of (write_flags r claims) = r.
Proof.
  unfold revealed_of, is_true.
  rewrite (write_flags_written r claims "time_within_month" (r_time r)),
    (write_flags_written r claims "location_in_region" (r_location r)),
    (write_flags_written r claims "device_trusted" (r_device r)),
    (write_flags_written r claims "photo_authentic" (r_authentic r)),
    (write_flags_written r claims "image_content_revealed" (r_image r))
    by (unfold flag_keys; in_list).
  destruct r as [[] [] [] [] []]; reflexivity.
Qed.

Lemma write_flags_over_flag r claims key v :
  key ∈ circuit_result_keys →
  write_flags r (<[key := v]> claims) = write_flags r claims.
Proof.
  intros Hkey. apply map_eq. intros k.
  destruct (decide (k ∈ circuit_result_keys)) as [Hk|Hk].
  - unfold circuit_result_keys in Hk.
    repeat (apply elem_of_cons in Hk as [-> | Hk];
            [etrans; [|symmetry];
             eapply write_flags_written; unfold flag_keys; in_list|]).
    inversion Hk.
  - rewrite !write_flags_frame by exact Hk.
    apply lookup_insert_ne. intros ->. contradiction.
Qed.

Section EditorProofs.
Context (env : Env).

Lemma generateUpdatedCapsule_frame photo revealedClaims selectedLevels w :
  ∃ c w', generateUpdatedCapsule env photo revealedClaims selectedLevels w
          = (Ok c, w')
          ∧ storage w' = storage w ∧ alerts w' = alerts w
          ∧ details w' = details w.
Proof.
  unfold generateUpdatedCapsule, bind, try_catch, ret, Date_now.
  simpl. destruct (Z.eqb (created_at (metadata (zkCapsule photo))) 0);
    eexists _, _; repeat split.
Qed.

End EditorProofs.

(** X20. [saveChanges] is all or nothing, and never throws.  With no photo
    being edited it does nothing.  Otherwise it completes normally in one
    of two ways: either the gallery in the store is rewritten with, in
    place of the first photo that has the [id] of the edited photo, the
    edited photo carrying the switches of the editor as its five flags,
    the parent is notified of that photo, the "Success" alert is shown and
    the edit mode is left; or the "Error" alert is shown, the store is
    untouched and the editor keeps its photo and its mode.  In both cases
    the saving flag is down at the end. *)
Theorem saveChanges_all_or_nothing :
  ∀ (env : Env) (photo : SavedPhoto) (w : World),
    ∃ w',
      saveChanges env photo w = (Ok (), w')
      ∧ match updatedPhoto (details w) with
        | None => w' = w
        | Some edited => save_outcome env w w' edited
        end.
Proof.
  intros env photo w. unfold saveChanges, save_outcome.
  destruct (updatedPhoto (details w)) as [edited|] eqn:Hedited;
    [|exists w; split; reflexivity].
  unfold bind at 1, setIsSaving at 1, update at 1. cbv beta iota.
  unfold finally, try_catch.
  match goal with
  | |- context [bind (generateUpdatedCapsule env photo ?r ?l) _ ?w0] =>
      destruct (generateUpdatedCapsule_frame env photo r l w0)
        as (c & w1 & Hcapsule & Hst1 & Hal1 & Hde1)
  end.
  rewrite (bind_ok _ _ _ _ _ Hcapsule).
  unfold bind at 1, AsyncStorage_getItem.
  destruct (getItem_rejects env (storage w1) gallery_key) eqn:Hrejects.
  { unfold bind, console_error, Alert_alert, setIsSaving, update. simpl.
    eexists. split; [reflexivity|]. right. simpl.
    rewrite Hst1, Hal1, Hde1. simpl. rewrite Hedited. repeat split. }
  destruct (storage w1 !! gallery_key) as [text|] eqn:Htext.
  2: { unfold bind, throw, console_error, Alert_alert, setIsSaving, update. simpl.
       eexists. split; [reflexivity|]. right. simpl.
       rewrite Hst1, Hal1, Hde1. simpl. rewrite Hedited. repeat split. }
  simpl JS.truthy. simpl default.
  destruct (JS.nonempty text).
  2: { unfold bind, throw, console_error, Alert_alert, setIsSaving, update. simpl.
       eexists. split; [reflexivity|]. right. simpl.
       rewrite Hst1, Hal1, Hde1. simpl. rewrite Hedited. repeat split. }
  unfold bind at 1, ret at 1. cbv beta iota.
  destruct (JSON_parse_photos env text) as [allPhotos|] eqn:Hparse.
  2: { unfold bind, throw, console_error, Alert_alert, setIsSaving, update. simpl.
       eexists. split; [reflexivity|]. right. simpl.
       rewrite Hst1, Hal1, Hde1. simpl. rewrite Hedited. repeat split. }
  unfold bind at 1, ret at 1. cbv beta iota.
  destruct (list_find (λ p, id p = id edited) allPhotos)
    as [[photoIndex found]|] eqn:Hfind.
  2: { unfold bind, throw, console_error, Alert_alert, setIsSaving, update. simpl.
       eexists. split; [reflexivity|]. right. simpl.
       rewrite Hst1, Hal1, Hde1. simpl. rewrite Hedited. repeat split. }
  unfold bind at 1, AsyncStorage_setItem.
  match goal with
  | |- context [setItem_rejects env ?s ?k ?v] =>
      destruct (setItem_rejects env s k v)
  end.
  { unfold bind, console_error, Alert_alert, setIsSaving, update. simpl.
    eexists. split; [reflexivity|]. right. simpl.
    rewrite Hst1, Hal1, Hde1. simpl. rewrite Hedited. repeat split. }
  unfold bind, setUpdatedPhoto, onUpdatePhoto, Alert_alert, setEditMode,
    setIsSaving, update. simpl.
  eexists. split; [reflexivity|]. left. simpl.
  rewrite Hst1, Hal1, Hde1. simpl. split; [reflexivity|]. split; [|reflexivity].
  rewrite Hst1 in Htext. simpl in Htext.
  exists text, allPhotos, photoIndex, found. repeat split; assumption.
Qed.

(** X21. What [saveChanges] persists.  When the gallery in the store can be
    read, parses, holds a photo with the [id] of the edited photo and can
    be written, [saveChanges] replaces the first such photo with the edited
    photo whose five flags are the switches of the editor, and shows the
    "Success" alert.  The photo written back differs from the edited photo
    in those five flags only: every other claim, the claim texts and the
    [time_level] and [location_level] among them, is as the editor had it,
    so the levels selected in the editor reach the store through the claim
    texts only. *)
Theorem saveChanges_persists_switches :
  ∀ (env : Env) (photo edited found : SavedPhoto) (w : World) (text : string)
    (allPhotos : list SavedPhoto) (photoIndex : nat),
    updatedPhoto (details w) = Some edited →
    getItem_rejects env (storage w) gallery_key = false →
    storage w !! gallery_key = Some text →
    JS.nonempty text = true →
    JSON_parse_photos env text = Some allPhotos →
    list_find (λ p, id p = id edited) allPhotos = Some (photoIndex, found) →
    let saved := saved_photo (revealedClaims (details w)) edited in
    let gallery := JSON_stringify_photos env (<[photoIndex := saved]> allPhotos) in
    setItem_rejects env (storage w) gallery_key gallery = false →
    ∃ w',
      saveChanges env photo w = (Ok (), w')
      ∧ storage w' = <[gallery_key := gallery]> (storage w)
      ∧ alerts w'
        = ("Success",
           "Photo claims have been updated and new capsule generated successfully")
            :: alerts w
      ∧ updatedPhoto (details w') = Some saved
      ∧ editMode (details w') = false
      ∧ (∀ key b, (key, b) ∈ flag_keys (revealedClaims (details w)) →
                  public_claims (zkCapsule saved) !! key = Some (bool_toString b))
      ∧ (∀ key, key ∉ circuit_result_keys →
                public_claims (zkCapsule saved) !! key
                = public_claims (zkCapsule edited) !! key).
Proof.
  intros env photo edited found w text allPhotos photoIndex
    Hedited Hreadable Htext Hnonempty Hparse Hfind saved gallery Hwritable.
  unfold saveChanges. rewrite Hedited.
  unfold bind at 1, setIsSaving at 1, update at 1. cbv beta iota.
  unfold finally, try_catch.
  match goal with
  | |- context [bind (generateUpdatedCapsule env photo ?r ?l) _ ?w0] =>
      destruct (generateUpdatedCapsule_frame env photo r l w0)
        as (c & w1 & Hcapsule & Hst1 & Hal1 & Hde1)
  end.
  simpl in Hst1, Hal1, Hde1.
  rewrite (bind_ok _ _ _ _ _ Hcapsule).
  unfold bind at 1, AsyncStorage_getItem.
  rewrite Hst1, Hreadable, Htext. simpl JS.truthy. rewrite Hnonempty.
  unfold bind at 1, ret at 1. cbv beta iota. simpl default. rewrite Hparse.
  unfold bind at 1, ret at 1. cbv beta iota. rewrite Hfind.
  unfold bind at 1, AsyncStorage_setItem. rewrite Hst1.
  fold (saved_photo (revealedClaims (details w)) edited). fold saved. fold gallery.
  rewrite Hwritable.
  unfold bind, setUpdatedPhoto, onUpdatePhoto, Alert_alert, setEditMode,
    setIsSaving, update. simpl.
  eexists. split; [reflexivity|]. simpl. rewrite Hst1, Hal1.
  repeat split.
  - intros key b Hin. apply write_flags_written, Hin.
  - intros key Hkey. apply write_flags_frame, Hkey.
Qed.

Lemma saveChanges_persists_switches_witness :
  ∃ w',
    saveChanges editing_env hidden_time_photo reveal_time_world = (Ok (), w')
    ∧ storage w' !! gallery_key = Some "photos:1"
    ∧ updatedPhoto (details w')
      = Some (saved_photo (mkRevealed true false false false false)
                hidden_time_photo).
Proof.
  destruct (saveChanges_persists_switches editing_env hidden_time_photo
              hidden_time_photo hidden_time_photo reveal_time_world "photos:1"
              [hidden_time_photo] 0)
    as (w' & Hrun & Hstore & _ & Hphoto & _);
    [reflexivity | reflexivity | reflexivity | reflexivity | reflexivity
    | reflexivity | reflexivity |].
  exists w'. split; [exact Hrun|]. split; [|exact Hphoto].
  rewrite Hstore. apply lookup_insert_eq.
Defined.

(** X22. The switches survive a save, the selected levels do not.  When a
    photo written back by [saveChanges] is opened again, the effect on
    [photo] sets the switches to what they were at the time of the save;
    the selected levels are read from the [time_level] and
    [location_level] of the claims the editor had, which [saveChanges]
    never writes, and default to [month] and [country] without them. *)
Theorem reopened_photo_keeps_switches :
  ∀ (r : RevealedClaims) (edited : SavedPhoto) (w : World),
    ∃ w',
      onPhotoChange (Some (saved_photo r edited)) w = (Ok (), w')
      ∧ revealedClaims (details w') = r
      ∧ updatedPhoto (details w') = Some (saved_photo r edited)
      ∧ selectedLevels (details w')
        = mkLevels
            (JS.or_else (public_claims (zkCapsule edited) !! "time_level") "month")
            (JS.or_else (public_claims (zkCapsule edited) !! "location_level")
               "country")
      ∧ storage w' = storage w.
Proof.
  intros r edited w. unfold onPhotoChange, bind, setRevealedClaims,
    setUpdatedPhoto, setSelectedLevels, update. simpl.
  eexists. split; [reflexivity|]. simpl.
  rewrite revealed_of_write_flags. unfold levels_of.
  rewrite !write_flags_frame by not_in_list. repeat split.
Qed.

(** X23. A switch of the editor writes the flag it leaves behind, and
    [saveChanges] repairs it.  For each of the five claim types,
    [toggleClaimReveal] inverts the switch of that type and no other, and
    writes into the edited photo, as the flag of that type, the value the
    switch had before: the flag of the edited photo is the opposite of the
    switch.  The photo that [saveChanges] would then write back is the one
    it would write from the new switches and the photo as it was before the
    switch, so the stale flag never reaches the store.  Switching twice
    restores the switches. *)
Theorem toggleClaimReveal_stale_flag :
  ∀ (claimType : string) (edited : SavedPhoto) (w : World) (key : string)
    (before after : bool),
    updatedPhoto (details w) = Some edited →
    flag_of claimType (revealedClaims (details w)) = Some (key, before) →
    flag_of claimType (toggled claimType (revealedClaims (details w)))
    = Some (key, after) →
    ∃ w' switched,
      toggleClaimReveal claimType w = (Ok (), w')
      ∧ revealedClaims (details w') = toggled claimType (revealedClaims (details w))
      ∧ after = negb before
      ∧ updatedPhoto (details w') = Some switched
      ∧ public_claims (zkCapsule switched) !! key = Some (bool_toString before)
      ∧ saved_photo (revealedClaims (details w')) switched
        = saved_photo (toggled claimType (revealedClaims (details w))) edited
      ∧ toggled claimType (revealedClaims (details w')) = revealedClaims (details w)
      ∧ storage w' = storage w.
Proof.
  intros claimType edited w key before after Hedited Hbefore Hafter.
  assert (claimType ∈ claim_types) as Htype.
  { unfold flag_of in Hbefore. unfold claim_types.
    repeat (destruct (String.eqb claimType _) eqn:Heq in Hbefore;
            [apply String.eqb_eq in Heq; subst claimType; in_list | clear Heq]).
    discriminate. }
  unfold claim_types in Htype.
  destruct (revealedClaims (details w)) as [t l d a i] eqn:Hswitches.
  repeat (apply elem_of_cons in Htype as [-> | Htype];
          [injection Hbefore as <- <-; injection Hafter as <-;
           unfold toggleClaimReveal; rewrite Hedited, Hswitches;
           unfold bind, setRevealedClaims, setUpdatedPhoto, update;
           eexists _, _; (split; [reflexivity|]);
           (split; [reflexivity|]); (split; [reflexivity|]);
           (split; [reflexivity|]);
           (split; [cbn; rewrite lookup_insert_eq;
                    match goal with |- context [stale_flag ?b] => destruct b end;
                    reflexivity|]);
           (split; [|split; [cbn; rewrite negb_involutive; reflexivity
                            | reflexivity]]);
           cbn;
           unfold saved_photo, with_public_claims; cbn;
           f_equal; f_equal;
           apply write_flags_over_flag; unfold circuit_result_keys; in_list|]).
  inversion Htype.
Qed.

Lemma toggleClaimReveal_stale_flag_witness :
  ∃ w' switched,
    toggleClaimReveal "time" editing_world = (Ok (), w')
    ∧ r_time (revealedClaims (details w')) = true
    ∧ updatedPhoto (details w') = Some switched
    ∧ public_claims (zkCapsule switched) !! "time_within_month" = Some "false".
Proof.
  destruct (toggleClaimReveal_stale_flag "time" hidden_time_photo editing_world
              "time_within_month" false true eq_refl eq_refl eq_refl)
    as (w' & switched & Hrun & Hswitches & _ & Hphoto & Hflag & _).
  exists w', switched. split; [exact Hrun|]. split; [|split; [exact Hphoto|exact Hflag]].
  rewrite Hswitches. reflexivity.
Defined.

Section LevelProofs.
Context (env : Env).

Lemma time_claim_at_editor_level timestamp level :
  level ∈ editor_time_levels →
  time_claim_at env timestamp level = Some (generateTimeClaim env timestamp level).
Proof.
  unfold editor_time_levels. intros Hlevel.
  repeat (apply elem_of_cons in Hlevel as [-> | Hlevel]; [reflexivity|]).
  inversion Hlevel.
Qed.

Lemma location_claim_at_editor_level location level :
  level ∈ editor_location_levels →
  location_claim_at env location level
  = match generateLocationClaim env (Some location) level with
    | Ok text => Ok (Some text)
    | Throw e => Throw e
    end.
Proof.
  unfold editor_location_levels. intros Hlevel.
  repeat (apply elem_of_cons in Hlevel as [-> | Hlevel];
          [unfold location_claim_at, generateLocationClaim; simpl;
           repeat match goal with
                  | |- context [match ?x with _ => _ end] => destruct x
                  end; reflexivity|]).
  inversion Hlevel.
Qed.
End LevelProofs.

(** X24. The editor words the time as the maker does.  For each of the
    five levels the editor offers ([year], [month], [week], [day],
    [exact]), [updateClaimLevel] sets the [time_claim] of the edited photo
    to the sentence that [generateTimeClaim] derives from the timestamp of
    the photo at that level, records the level as the selected one, and
    changes no other claim, no flag and nothing in the store. *)
Theorem updateClaimLevel_time_matches_maker :
  ∀ (env : Env) (photo edited : SavedPhoto) (level : string) (w : World),
    updatedPhoto (details w) = Some edited →
    level ∈ editor_time_levels →
    ∃ w',
      updateClaimLevel env photo "time" level w = (Ok (), w')
      ∧ updatedPhoto (details w')
        = Some (with_public_claims
                  (<["time_claim" := generateTimeClaim env (sp_timestamp photo) level]>
                     (public_claims (zkCapsule edited))) edited)
      ∧ selectedLevels (details w')
        = mkLevels level (sl_location (selectedLevels (details w)))
      ∧ revealedClaims (details w') = revealedClaims (details w)
      ∧ storage w' = storage w.
Proof.
  intros env photo edited level w Hedited Hlevel.
  unfold updateClaimLevel. rewrite Hedited.
  unfold bind, setSelectedLevels, setUpdatedPhoto, update, ret. simpl.
  rewrite (time_claim_at_editor_level env _ _ Hlevel).
  eexists. split; [reflexivity|]. simpl. repeat split.
Qed.

Lemma updateClaimLevel_time_matches_maker_witness :
  ∃ w' switched,
    updateClaimLevel editing_env hidden_time_photo "time" "year" editing_world
    = (Ok (), w')
    ∧ updatedPhoto (details w') = Some switched
    ∧ public_claims (zkCapsule switched) !! "time_claim" = Some "In 2023".
Proof.
  destruct (updateClaimLevel_time_matches_maker editing_env hidden_time_photo
              hidden_time_photo "year" editing_world eq_refl)
    as (w' & Hrun & Hphoto & _).
  { unfold editor_time_levels. in_list. }
  eexists w', _. split; [exact Hrun|]. split; [exact Hphoto|].
  vm_compute. reflexivity.
Defined.

(** X25. The editor words the location as the maker does, and fails where
    the maker fails.  For a photo with a location and each of the four
    levels the editor offers ([continent], [country], [city], [exact]),
    [updateClaimLevel] sets the [location_claim] of the edited photo to the
    sentence that [generateLocationClaim] derives from the location at that
    level; when [generateLocationClaim] throws (the exact level of a
    location without coordinates), [updateClaimLevel] throws the same
    error to its caller, the level being recorded as selected and the photo
    left as it was. *)
Theorem updateClaimLevel_location_matches_maker :
  ∀ (env : Env) (photo edited : SavedPhoto) (location : Location)
    (level : string) (w : World),
    updatedPhoto (details w) = Some edited →
    sp_location photo = Some location →
    level ∈ editor_location_levels →
    ∃ w',
      selectedLevels (details w')
      = mkLevels (sl_time (selectedLevels (details w))) level
      ∧ storage w' = storage w
      ∧ match generateLocationClaim env (Some location) level with
        | Ok text =>
            updateClaimLevel env photo "location" level w = (Ok (), w')
            ∧ updatedPhoto (details w')
              = Some (with_public_claims
                        (<["location_claim" := text]>
                           (public_claims (zkCapsule edited))) edited)
        | Throw e =>
            updateClaimLevel env photo "location" level w = (Throw e, w')
            ∧ updatedPhoto (details w') = Some edited
        end.
Proof.
  intros env photo edited location level w Hedited Hlocation Hlevel.
  exists (updateClaimLevel env photo "location" level w).2.
  unfold updateClaimLevel. rewrite Hedited, Hlocation.
  rewrite (location_claim_at_editor_level env _ _ Hlevel).
  destruct (generateLocationClaim env (Some location) level) as [text|e];
    unfold bind, setSelectedLevels, setUpdatedPhoto, update, ret, lift; simpl;
    rewrite ?Hedited; repeat split.
Qed.

Lemma updateClaimLevel_location_matches_maker_witness :
  ∃ w' switched,
    updateClaimLevel editing_env paris_photo "location" "continent" editing_world
    = (Ok (), w')
    ∧ updatedPhoto (details w') = Some switched
    ∧ public_claims (zkCapsule switched) !! "location_claim"
      = Some "In authorized continent".
Proof.
  destruct (updateClaimLevel_location_matches_maker editing_env paris_photo
              hidden_time_photo Sample.paris "continent" editing_world
              eq_refl eq_refl)
    as (w' & _ & _ & Hrun & Hphoto).
  { unfold editor_location_levels. in_list. }
  eexists w', _. split; [exact Hrun|]. split; [exact Hphoto|].
  vm_compute. reflexivity.
Defined.

(** X26. Editing changes nothing in the store until it is saved: opening a
    photo, entering or leaving the edit mode, switching a claim, choosing a
    level and cancelling all leave the store as it was, whatever they
    return. *)
Theorem edits_keep_store :
  ∀ (env : Env) (photo : SavedPhoto) (claimType level : string) (w : World),
    storage (onPhotoChange (Some photo) w).2 = storage w
    ∧ storage (toggleEditMode photo w).2 = storage w
    ∧ storage (toggleClaimReveal claimType w).2 = storage w
    ∧ storage (updateClaimLevel env photo claimType level w).2 = storage w
    ∧ storage (cancelChanges photo w).2 = storage w.
Proof.
  intros env photo claimType level w.
  split; [|split; [|split; [|split]]].
  - reflexivity.
  - unfold toggleEditMode, bind, setEditMode, setUpdatedPhoto, update, ret.
    simpl. destruct (editMode (details w)); reflexivity.
  - unfold toggleClaimReveal, bind, setRevealedClaims, setUpdatedPhoto, update, ret.
    simpl. destruct (updatedPhoto (details w)); reflexivity.
  - unfold updateClaimLevel, bind, setSelectedLevels, setUpdatedPhoto, update,
      ret, lift. simpl.
    destruct (updatedPhoto (details w)); [|reflexivity].
    destruct (String.eqb claimType "time"); [reflexivity|].
    destruct (String.eqb claimType "location"); [|reflexivity].
    destruct (sp_location photo) as [location|]; [|reflexivity].
    destruct (location_claim_at env location level); reflexivity.
  - reflexivity.
Qed.

(** ** The maker *)

(** X27. [savePhotoToGallery] fails silently.  It never throws and never
    alerts.  When the gallery can be read, parses (a missing or empty
    gallery counting as the empty one) and can be written, the store
    receives the gallery with the new photo in front, the photo carrying
    the capsule, the fields of the metadata and the clock reading as its
    [id]; in every other case the store is left as it was and the photo is
    not saved. *)
Theorem savePhotoToGallery_outcome :
  ∀ (env : Env) (metadata : PhotoMetadata) (capsule : ZKCapsule)
    (photoUri : string) (w : World),
    let photoData :=
      mkSavedPhoto (JS.toString (Date_now_at env (clock_pos w)))
        (timestamp metadata) photoUri (location metadata) (deviceInfo metadata)
        (photoHash metadata) (ipfsCid metadata) capsule in
    ∃ w',
      savePhotoToGallery env metadata capsule photoUri w = (Ok (), w')
      ∧ storage w' = gallery_after env (storage w) photoData
      ∧ alerts w' = alerts w
      ∧ maker w' = maker w.
Proof.
  intros env metadata capsule photoUri w photoData. subst photoData.
  unfold savePhotoToGallery, gallery_after, stored_gallery, try_catch, bind,
    Date_now, AsyncStorage_getItem, AsyncStorage_setItem, console_log,
    console_error, update, ret, throw. simpl.
  destruct (getItem_rejects env (storage w) gallery_key);
    [eexists; repeat split|].
  destruct (storage w !! gallery_key) as [text|]; simpl.
  - destruct (JS.nonempty text).
    + destruct (JSON_parse_photos env text) as [existingPhotos|]; simpl;
        [|eexists; repeat split].
      destruct (setItem_rejects env (storage w) gallery_key _);
        eexists; repeat split.
    + simpl. destruct (setItem_rejects env (storage w) gallery_key _);
        eexists; repeat split.
  - destruct (setItem_rejects env (storage w) gallery_key _);
      eexists; repeat split.
Qed.

(** X28. [generateZKProof] never throws to its caller, and with a photo it
    always ends with the generation flag down; without metadata it only
    shows the "Error" alert. *)
Theorem generateZKProof_never_throws :
  ∀ (env : Env) (metadata : option PhotoMetadata)
    (privacySettings : PrivacySettings) (w : World),
    match metadata with
    | Some _ =>
        (generateZKProof env metadata privacySettings w).1 = Ok ()
        ∧ isGeneratingProof (maker (generateZKProof env metadata privacySettings w).2)
          = false
    | None =>
        generateZKProof env metadata privacySettings w
        = (Ok (), with_alert "Error" "No photo metadata available" w)
    end.
Proof.
  intros env [metadata|] privacySettings w; [|reflexivity].
  assert (∃ w', generateZKProof env (Some metadata) privacySettings w = (Ok (), w')
                ∧ isGeneratingProof (maker w') = false) as (w' & -> & Hflag).
  { unfold generateZKProof.
    unfold bind at 1, setIsGeneratingProof at 1, update at 1. cbv beta iota.
    unfold finally, try_catch.
    match goal with
    | |- context [bind ?m ?k ?w0] => destruct (bind m k w0) as [[[]|e] w1]
    end; eexists; split; reflexivity. }
  split; [reflexivity | exact Hflag].
Qed.

(** X29. When proof generation fails, nothing is produced.  On a host
    whose prover fails, [generateZKProof] on a photo completes normally
    with the "Error" alert "Failed to generate proof: ..." on top; no
    capsule is shown, no vault and no gallery entry is written (the store
    is left as it was), and the generation flag is down. *)
Theorem generateZKProof_without_proof :
  ∀ (env : Env) (metadata : PhotoMetadata) (privacySettings : PrivacySettings)
    (w : World),
    (∀ a b, generateCircomProof env a b = None) →
    ∃ w' message,
      generateZKProof env (Some metadata) privacySettings w = (Ok (), w')
      ∧ hd_error (alerts w') = Some ("Error", "Failed to generate proof: " +:+ message)
      ∧ generatedCapsule (maker w') = generatedCapsule (maker w)
      ∧ isGeneratingProof (maker w') = false
      ∧ storage w' = storage w.
Proof.
  intros env metadata privacySettings w Hfail.
  unfold generateZKProof, finally, try_catch, bind, setIsGeneratingProof,
    Date_now, console_error, Alert_alert, update, ret, throw, lift.
  simpl.
  repeat first
    [ rewrite Hfail
    | match goal with
      | |- context [match ?x with _ => _ end] =>
          lazymatch x with
          | context [match _ with _ => _ end] => fail
          | _ => destruct x eqn:?
          end
      end
    | progress simpl ];
    eexists _, _; (split; [reflexivity|]); simpl; repeat split.
Qed.

Lemma generateZKProof_without_proof_witness :
  ∃ w',
    generateZKProof env_without_prover (Some Sample.a_photo) Sample.only_country
      (Sample.world ∅ "") = (Ok (), w')
    ∧ hd_error (alerts w')
      = Some ("Error", "Failed to generate proof: Proof generation failed")
    ∧ storage w' = ∅.
Proof.
  destruct (generateZKProof_without_proof env_without_prover Sample.a_photo
              Sample.only_country (Sample.world ∅ ""))
    as (w' & message & Hrun & _ & _ & _ & Hstore).
  { reflexivity. }
  exists w'. split; [exact Hrun|]. split; [|exact Hstore].
  pose proof (f_equal snd Hrun) as Hworld. vm_compute in Hworld.
  rewrite <- Hworld. reflexivity.
Defined.

(** X30. The happy path of the maker links the capsule, its vault and the
    gallery.  On a host whose prover succeeds, for a photo with a URI whose
    location claim can be worded, [generateZKProof] completes normally and
    shows a capsule that carries the proof of the prover; the store is
    what [storePrivateVault] leaves of it for a vault with the id of that
    capsule, then what [savePhotoToGallery] leaves of it for a photo that
    carries that very capsule and the URI of the photo; the generation
    flag is down and no "Error" alert is raised. *)
Theorem generateZKProof_links_capsule_vault_gallery :
  ∀ (env : Env) (metadata : PhotoMetadata) (privacySettings : PrivacySettings)
    (w : World) (uri : string) (circomProof : CircomProof),
    md_photoUri metadata = Some uri →
    JS.nonempty uri = true →
    (∀ a b, generateCircomProof env a b = Some circomProof) →
    (∀ loc, location metadata = Some loc →
            ∃ text,
              generateLocationClaim env (Some loc)
                (level_location_str (lp_level (locationProof privacySettings)))
              = Ok text) →
    ∃ w' capsule vault photo,
      generateZKProof env (Some metadata) privacySettings w = (Ok (), w')
      ∧ generatedCapsule (maker w') = Some capsule
      ∧ isGeneratingProof (maker w') = false
      ∧ proof capsule = circomProof
      ∧ pv_capsule_id vault = capsule_id capsule
      ∧ zkCapsule photo = capsule
      ∧ photoUri photo = uri
      ∧ storage w' = gallery_after env (store_after env (storage w) vault) photo
      ∧ (∀ message, ("Error", message) ∉ alerts w →
                    ("Error", message) ∉ alerts w').
Proof.
  intros env metadata privacySettings w uri circomProof Huri Hnonempty Hprover
    Hlocation.
  unfold generateZKProof.
  assert (truthy_string (Some uri) = Some uri) as Htruthy
    by (simpl; rewrite Hnonempty; reflexivity).
  rewrite Huri, Htruthy.
  unfold bind at 1, setIsGeneratingProof at 1, update at 1. cbv beta iota.
  unfold finally, try_catch at 1.
  (* the upload *)
  match goal with
  | |- context [bind ?U _ ?w0] =>
      assert (∃ r w1, U w0 = (Ok r, w1)
                      ∧ storage w1 = storage w ∧ clock_pos w1 = clock_pos w
                      ∧ maker w1 = mkMakerScreen true (generatedCapsule (maker w))
                      ∧ (∀ message, ("Error", message) ∉ alerts w →
                                    ("Error", message) ∉ alerts w1))
        as ([[ipfsCid ipfsUrl] metadata_ipfsCid] & w1 & Hupload & Hst1 & Hck1
            & Hmk1 & Hal1)
  end.
  { unfold try_catch, bind, console_error, Alert_alert, update, ret, throw.
    destruct (uploadToIPFS env uri) as [cid|]; [destruct (JS.nonempty cid)|];
      simpl; eexists _, _; (split; [reflexivity|]); simpl; repeat split; auto.
    intros message Hw Hin. apply elem_of_cons in Hin as [Heq | Hin];
      [discriminate Heq | exact (Hw Hin)]. }
  rewrite (bind_ok _ _ _ _ _ Hupload). cbv beta iota zeta.
  rewrite (bind_ok _ _ w1 (Date_now_at env (clock_pos w1)) (with_clock w1) eq_refl).
  (* the location claim *)
  match goal with
  | |- context [bind ?L _ (with_clock w1)] =>
      assert (∃ text, L (with_clock w1) = (Ok text, with_clock w1)) as (text & Hclaim)
  end.
  { destruct (lp_enabled (locationProof privacySettings));
      [|eexists; reflexivity].
    cbn [location]. destruct (location metadata) as [loc|] eqn:Hloc;
      [|eexists; reflexivity].
    destruct (Hlocation loc eq_refl) as (text & ->). eexists. reflexivity. }
  rewrite (bind_ok _ _ _ _ _ Hclaim). cbv beta iota zeta.
  rewrite Hprover.
  rewrite (bind_ok _ _ (with_clock w1) circomProof (with_clock w1) eq_refl).
  rewrite (bind_ok _ _ (with_clock w1)
             (Date_now_at env (clock_pos (with_clock w1)))
             (with_clock (with_clock w1)) eq_refl).
  (* the capsule and its vault *)
  match goal with
  | |- context [bind (generateZKCapsule env ?md ?ps ?p ?vk ?c ?u ?t ?h ?f1 ?f2 ?f3
                        ?f4 ?f5 ?cl) _ ?w0] =>
      destruct (generateZKCapsule_spec env md ps p vk c u t h f1 f2 f3 f4 f5 cl w0)
        as (vault & w2 & Hcapsule & Hid & _ & Hst2);
      destruct (quiet_run _ w0
                  (quiet_generateZKCapsule env md ps p vk c u t h f1 f2 f3 f4 f5 cl))
        as [Hal2 Hmk2]
  end.
  rewrite Hcapsule in Hal2, Hmk2. simpl in Hal2, Hmk2.
  rewrite (bind_ok _ _ _ _ _ Hcapsule).
  unfold bind at 1, setGeneratedCapsule at 1, update at 1. cbv beta iota.
  unfold bind at 1, console_log at 1, update at 1. cbv beta iota.
  cbn [md_photoUri]. rewrite Htruthy.
  match goal with
  | |- context [bind (savePhotoToGallery env ?md ?c ?u) _ ?w0] =>
      destruct (savePhotoToGallery_spec env md c u w0)
        as (w3 & Hsave & Hst3 & Hal3 & Hmk3)
  end.
  rewrite (bind_ok _ _ _ _ _ Hsave).
  unfold console_log, update, setIsGeneratingProof. simpl.
  match type of Hst3 with
  | _ = gallery_after _ _ ?photo => eexists _, _, vault, photo
  end.
  split; [reflexivity|]. simpl.
  rewrite Hmk3, Hal3. simpl.
  split; [reflexivity|]. split; [reflexivity|]. split; [reflexivity|].
  split; [exact Hid|]. split; [reflexivity|]. split; [reflexivity|].
  split.
  - rewrite Hst3. simpl. rewrite Hst2. simpl. rewrite Hst1. reflexivity.
  - intros message Hw. rewrite Hal2. simpl. apply Hal1, Hw.
Qed.

Lemma generateZKProof_links_capsule_vault_gallery_witness :
  ∃ w' capsule vault photo,
    generateZKProof (Sample.env [] []) (Some Sample.a_photo) Sample.only_country
      (Sample.world ∅ "") = (Ok (), w')
    ∧ generatedCapsule (maker w') = Some capsule
    ∧ proof capsule = Sample.a_proof
    ∧ pv_capsule_id vault = capsule_id capsule
    ∧ zkCapsule photo = capsule
    ∧ storage w'
      = gallery_after (Sample.env [] [])
          (store_after (Sample.env [] []) ∅ vault) photo.
Proof.
  destruct (generateZKProof_links_capsule_vault_gallery (Sample.env [] [])
              Sample.a_photo Sample.only_country (Sample.world ∅ "")
              "file:///photo.jpg" Sample.a_proof eq_refl eq_refl)
    as (w' & capsule & vault & photo & Hrun & Hshown & _ & Hproof & Hid & Hphoto
        & _ & Hstore & _).
  - reflexivity.
  - intros loc Hloc. injection Hloc as <-. eexists. reflexivity.
  - exists w', capsule, vault, photo. auto 10.
Defined.
